(** * Google Calendar & Tasks MCP server: request translation layer

    A shallow embedding of [server.ts] (the operation registry, the
    translation handlers and the response normalizers) together with the
    properties of its request construction and error handling.

    Conventions of the embedding.
    - A TypeScript optional property [x?: T] is a field of type [option T];
      [None] is [undefined].  A request body travels to the backend as JSON
      text, and JSON serialisation omits a key whose value is [undefined], so
      in a body [None] is exactly "the key is not sent".
    - Strings are [string]; the two regular expressions of the source only
      inspect ASCII digits, [-] and [=].
    - Loose JSON data (raw tool arguments, backend entities, response
      payloads) is the type [json]; an object is an association list and a
      missing key reads as [undefined].
    - A [z.record(z.string())] is a [gmap string string].
    - Asynchronous handlers run in the monad [M]: a state of the outside world
      (backend and clock) plus the log of backend requests issued so far, and
      an exception channel for [throw]. *)

From Stdlib Require Import QArith Ascii String.
From stdpp Require Import gmap strings list pretty.
Close Scope Q_scope.
Open Scope string_scope.
Open Scope list_scope.
Set Warnings "-register-all".

(** ** Loose JSON values *)

Inductive json : Type :=
| JNull
| JBool (b : bool)
| JNum (q : Q)
| JStr (s : string)
| JArr (items : list json)
| JObj (fields : list (string * json)).

(** [o[k]]: [None] is [undefined]. *)
Fixpoint obj_get (k : string) (fields : list (string * json)) : option json :=
  match fields with
  | [] => None
  | (k', v) :: rest => if String.eqb k k' then Some v else obj_get k rest
  end.

(** [v.k] on a value that may not be an object. *)
Definition get (k : string) (v : json) : option json :=
  match v with
  | JObj fields => obj_get k fields
  | _ => None
  end.

(** [x ?? null]. *)
Definition or_null (x : option json) : json :=
  match x with
  | None | Some JNull => JNull
  | Some v => v
  end.

(** [x ?? {}]. *)
Definition or_empty_object (x : option json) : json :=
  match x with
  | None | Some JNull => JObj []
  | Some v => v
  end.

(** [x ?? []] for a property that, by its type, is an array when it is
    there. *)
Definition or_empty (x : option json) : list json :=
  match x with
  | Some (JArr items) => items
  | _ => []
  end.

(** ** Regular expressions of the source *)

Definition is_digit (c : ascii) : bool :=
  (48 <=? nat_of_ascii c)%nat && (nat_of_ascii c <=? 57)%nat.

(** [\d{n}] at the head of [s]; returns the rest of the input. *)
Fixpoint digits (n : nat) (s : string) : option string :=
  match n with
  | O => Some s
  | S n' =>
      match s with
      | String c rest => if is_digit c then digits n' rest else None
      | EmptyString => None
      end
  end.

(** A literal character at the head of [s]. *)
Definition lit (c : ascii) (s : string) : option string :=
  match s with
  | String c' rest => if Ascii.eqb c c' then Some rest else None
  | EmptyString => None
  end.

(** Concatenation of patterns, anchored at both ends ([^...$]): every pattern
    consumes a prefix and the input must be used up. *)
Definition anchored (ps : list (string -> option string)) (s : string) : bool :=
  match fold_left (fun acc p => match acc with Some r => p r | None => None end) ps (Some s) with
  | Some EmptyString => true
  | _ => false
  end.

(** [DATE_ONLY_REGEX.test(value)] with
    [DATE_ONLY_REGEX = /^\d{4}-\d{2}-\d{2}$/]. *)
Definition DATE_ONLY_REGEX_test (value : string) : bool :=
  anchored [digits 4; lit "-"; digits 2; lit "-"; digits 2] value.

(** [[^=]+] at the head of [s]: the longest run of characters other than
    [=], which must be non-empty; returns the rest of the input. *)
Fixpoint skip_non_eq (s : string) : string :=
  match s with
  | String c rest => if Ascii.eqb c "="%char then s else skip_non_eq rest
  | EmptyString => EmptyString
  end.

Definition non_eq_run (s : string) : option string :=
  match s with
  | String c _ => if Ascii.eqb c "="%char then None else Some (skip_non_eq s)
  | EmptyString => None
  end.

(** [propertyFilterRegex.test(s)] with
    [propertyFilterRegex = /^[^=]+=[^=]+$/]. *)
Definition propertyFilterRegex_test (s : string) : bool :=
  anchored [non_eq_run; lit "="; non_eq_run] s.

(** ** Validated input types ([z.infer] of the schema library) *)

Inductive ResponseStatus := RsNeedsAction | RsDeclined | RsTentative | RsAccepted.
Inductive ReminderMethod := Email | Popup.
Inductive Transparency := Opaque | Transparent.
Inductive Visibility := VisDefault | VisPublic | VisPrivate | VisConfidential.
Inductive SendUpdates := SuAll | SuExternalOnly | SuNone.
Inductive OrderBy := ObStartTime | ObUpdated.
Inductive TaskStatus := NeedsAction | Completed.

Record AttendeeInput := {
  att_email : string;
  att_optional : option bool;
  att_displayName : option string;
  att_responseStatus : option ResponseStatus;
  att_comment : option string;
  att_additionalGuests : option Z
}.

Record ReminderOverrideInput := {
  ro_method : option ReminderMethod;
  ro_minutes : Z
}.

Record RemindersInput := {
  ri_useDefault : option bool;
  ri_overrides : option (list ReminderOverrideInput)
}.

Record ExtendedPropertiesInput := {
  epi_private : option (gmap string string);
  epi_shared : option (gmap string string)
}.

Record AttachmentInput := {
  at_fileUrl : string;
  at_title : option string;
  at_mimeType : option string;
  at_iconLink : option string;
  at_fileId : option string
}.

Record SourceInput := {
  src_title : string;
  src_url : string
}.

Record CommonEventFields := {
  cf_description : option string;
  cf_location : option string;
  cf_colorId : option string;
  cf_recurrence : option (list string);
  cf_transparency : option Transparency;
  cf_visibility : option Visibility;
  cf_attendees : option (list AttendeeInput);
  cf_reminders : option RemindersInput;
  cf_conferenceData : option json;
  cf_extendedProperties : option ExtendedPropertiesInput;
  cf_guestsCanInviteOthers : option bool;
  cf_guestsCanModify : option bool;
  cf_guestsCanSeeOtherGuests : option bool;
  cf_anyoneCanAddSelf : option bool;
  cf_attachments : option (list AttachmentInput);
  cf_source : option SourceInput
}.

(** ** Outbound event resource ([calendar_v3.Schema$Event] as the handlers
       build it) *)

Record EventDateTime := {
  gd_date : option string;
  gd_dateTime : option string;
  gd_timeZone : option string
}.

Record EventAttendee := {
  ea_email : string;
  ea_optional : option bool;
  ea_displayName : option string;
  ea_responseStatus : option ResponseStatus;
  ea_comment : option string;
  ea_additionalGuests : option Z
}.

Record EventReminder := {
  er_method : ReminderMethod;
  er_minutes : Z
}.

Record EventReminders := {
  rem_useDefault : option bool;
  rem_overrides : option (list EventReminder)
}.

Record EventExtendedProperties := {
  ep_private : option (gmap string string);
  ep_shared : option (gmap string string)
}.

Record EventBody := {
  ev_summary : option string;
  ev_start : option EventDateTime;
  ev_end : option EventDateTime;
  ev_id : option string;
  ev_description : option string;
  ev_location : option string;
  ev_colorId : option string;
  ev_recurrence : option (list string);
  ev_transparency : option Transparency;
  ev_visibility : option Visibility;
  ev_attendees : option (list EventAttendee);
  ev_reminders : option EventReminders;
  ev_conferenceData : option json;
  ev_extendedProperties : option EventExtendedProperties;
  ev_guestsCanInviteOthers : option bool;
  ev_guestsCanModify : option bool;
  ev_guestsCanSeeOtherGuests : option bool;
  ev_anyoneCanAddSelf : option bool;
  ev_attachments : option (list AttachmentInput);
  ev_source : option SourceInput
}.

(** The object literal [{}]. *)
Definition empty_event : EventBody :=
  {| ev_summary := None; ev_start := None; ev_end := None; ev_id := None;
     ev_description := None; ev_location := None; ev_colorId := None;
     ev_recurrence := None; ev_transparency := None; ev_visibility := None;
     ev_attendees := None; ev_reminders := None; ev_conferenceData := None;
     ev_extendedProperties := None; ev_guestsCanInviteOthers := None;
     ev_guestsCanModify := None; ev_guestsCanSeeOtherGuests := None;
     ev_anyoneCanAddSelf := None; ev_attachments := None; ev_source := None |}.

(** ** Request mappers *)

Definition mapAttendeesForRequest (attendees : option (list AttendeeInput))
  : option (list EventAttendee) :=
  (fun l => map (fun attendee =>
     {| ea_email := att_email attendee;
        ea_optional := att_optional attendee;
        ea_displayName := att_displayName attendee;
        ea_responseStatus := att_responseStatus attendee;
        ea_comment := att_comment attendee;
        ea_additionalGuests := att_additionalGuests attendee |}) l) <$> attendees.

(** The callback of [reminders.overrides?.map(...)]. *)
Definition mapOverride (override : ReminderOverrideInput) : EventReminder :=
  {| er_method := default Popup (ro_method override);
     er_minutes := ro_minutes override |}.

(** [Object.keys(mapped).length] for the object [mapReminders] builds. *)
Definition reminders_keys (mapped : EventReminders) : nat :=
  (if rem_useDefault mapped is Some _ then 1 else 0)
  + (if rem_overrides mapped is Some _ then 1 else 0).

Definition mapReminders (reminders : option RemindersInput) : option EventReminders :=
  match reminders with
  | None => None
  | Some reminders =>
      let overrides := map mapOverride <$> ri_overrides reminders in
      let mapped :=
        {| rem_useDefault := ri_useDefault reminders;
           rem_overrides :=
             match overrides with
             | Some l => if (0 <? length l)%nat then Some l else None
             | None => None
             end |} in
      if (0 <? reminders_keys mapped)%nat then Some mapped else None
  end.

(** [m && Object.keys(m).length > 0]. *)
Definition has_keys (m : option (gmap string string)) : bool :=
  match m with
  | Some m => (0 <? size m)%nat
  | None => false
  end.

Definition mapExtendedProperties (extendedProperties : option ExtendedPropertiesInput)
  : option EventExtendedProperties :=
  match extendedProperties with
  | None => None
  | Some extendedProperties =>
      let hasPrivate := has_keys (epi_private extendedProperties) in
      let hasShared := has_keys (epi_shared extendedProperties) in
      if negb hasPrivate && negb hasShared then None
      else Some {| ep_private := if hasPrivate then epi_private extendedProperties else None;
                   ep_shared := if hasShared then epi_shared extendedProperties else None |}
  end.

(** [if (x !== undefined) target.k = f(x)]: the new value of [target.k]. *)
Definition set_if_defined {A B} (x : option A) (f : A -> option B) (old : option B)
  : option B :=
  match x with
  | Some v => f v
  | None => old
  end.

Definition applyCommonEventFields (target : EventBody) (input : CommonEventFields)
  : EventBody :=
  {| ev_summary := ev_summary target;
     ev_start := ev_start target;
     ev_end := ev_end target;
     ev_id := ev_id target;
     ev_description := set_if_defined (cf_description input) Some (ev_description target);
     ev_location := set_if_defined (cf_location input) Some (ev_location target);
     ev_colorId := set_if_defined (cf_colorId input) Some (ev_colorId target);
     ev_recurrence := set_if_defined (cf_recurrence input) Some (ev_recurrence target);
     ev_transparency := set_if_defined (cf_transparency input) Some (ev_transparency target);
     ev_visibility := set_if_defined (cf_visibility input) Some (ev_visibility target);
     ev_attendees :=
       set_if_defined (cf_attendees input)
         (fun a => mapAttendeesForRequest (Some a)) (ev_attendees target);
     ev_reminders :=
       set_if_defined (cf_reminders input)
         (fun r => mapReminders (Some r)) (ev_reminders target);
     ev_conferenceData :=
       set_if_defined (cf_conferenceData input) Some (ev_conferenceData target);
     ev_extendedProperties :=
       set_if_defined (cf_extendedProperties input)
         (fun e => mapExtendedProperties (Some e)) (ev_extendedProperties target);
     ev_guestsCanInviteOthers :=
       set_if_defined (cf_guestsCanInviteOthers input) Some (ev_guestsCanInviteOthers target);
     ev_guestsCanModify :=
       set_if_defined (cf_guestsCanModify input) Some (ev_guestsCanModify target);
     ev_guestsCanSeeOtherGuests :=
       set_if_defined (cf_guestsCanSeeOtherGuests input) Some
         (ev_guestsCanSeeOtherGuests target);
     ev_anyoneCanAddSelf :=
       set_if_defined (cf_anyoneCanAddSelf input) Some (ev_anyoneCanAddSelf target);
     ev_attachments := set_if_defined (cf_attachments input) Some (ev_attachments target);
     ev_source := set_if_defined (cf_source input) Some (ev_source target) |}.

(** A JavaScript string is truthy when it is not empty. *)
Definition truthy_string (s : option string) : bool :=
  match s with
  | Some s => negb (String.eqb s "")
  | None => false
  end.

Definition toGoogleDate (value : string) (timeZone : option string) : EventDateTime :=
  if DATE_ONLY_REGEX_test value then
    {| gd_date := Some value; gd_dateTime := None; gd_timeZone := None |}
  else if truthy_string timeZone then
    {| gd_date := None; gd_dateTime := Some value; gd_timeZone := timeZone |}
  else
    {| gd_date := None; gd_dateTime := Some value; gd_timeZone := None |}.

(** ** The validation library (zod), as far as the schemas use it

    A schema is a function from a raw value ([None] for [undefined]) to
    either the list of issues or the typed, defaulted value.  Of an issue
    the source reads only [message]; its path is left out.  The text that
    zod's default error map gives to an issue, and its [email] and [url]
    string formats, are taken as parameters. *)

Inductive IssueKind :=
| InvalidType (expected received : string)
| InvalidEnumValue (options : list string)
| TooSmall (type : string) (minimum : Z)
| TooBig (type : string) (maximum : Z)
| InvalidString (validation : string)
| Custom.

Record ZodIssue := {
  issue_kind : IssueKind;
  issue_message : string
}.

Class ZodLib := {
  errorMap : IssueKind -> string;
  is_email : string -> bool;
  is_url : string -> bool
}.

Definition V (A : Type) : Type := list ZodIssue + A.
Definition Schema (A : Type) : Type := option json -> V A.

Definition map_V {A B} (f : A -> B) (x : V A) : V B :=
  match x with
  | inl issues => inl issues
  | inr a => inr (f a)
  end.

(** Issues of independent parts accumulate, in order. *)
Definition ap_V {A B} (f : V (A -> B)) (x : V A) : V B :=
  match f, x with
  | inr f, inr a => inr (f a)
  | inl i1, inl i2 => inl (i1 ++ i2)
  | inl i1, inr _ => inl i1
  | inr _, inl i2 => inl i2
  end.

Notation "f <*> x" := (ap_V f x) (at level 61, left associativity).

Fixpoint all_V {A} (rs : list (V A)) : V (list A) :=
  match rs with
  | [] => inr []
  | r :: rest => inr cons <*> r <*> all_V rest
  end.

(** Issues first if there are any. *)
Definition checked {A} (issues : list ZodIssue) (a : A) : V A :=
  match issues with
  | [] => inr a
  | _ => inl issues
  end.

Definition typeName (v : option json) : string :=
  match v with
  | None => "undefined"
  | Some JNull => "null"
  | Some (JBool _) => "boolean"
  | Some (JNum _) => "number"
  | Some (JStr _) => "string"
  | Some (JArr _) => "array"
  | Some (JObj _) => "object"
  end.

Inductive StringCheck :=
| MinLength (n : nat)
| Regex (test : string -> bool) (message : string)
| EmailFormat
| UrlFormat.

Inductive NumberCheck :=
| Min (n : Z)
| Max (n : Z).

Definition is_integer (q : Q) : bool := (Qnum q mod Zpos (Qden q) =? 0)%Z.
Definition to_Z (q : Q) : Z := (Qnum q / Zpos (Qden q))%Z.

Section Zod.
Context {zod : ZodLib}.

Definition issue (k : IssueKind) : ZodIssue :=
  {| issue_kind := k; issue_message := errorMap k |}.

Definition wrong_type {A} (expected : string) (v : option json) : V A :=
  inl [issue (InvalidType expected (typeName v))].

Definition string_issue (s : string) (c : StringCheck) : list ZodIssue :=
  match c with
  | MinLength n =>
      if (String.length s <? n)%nat then [issue (TooSmall "string" (Z.of_nat n))] else []
  | Regex test message =>
      if test s then []
      else [{| issue_kind := InvalidString "regex"; issue_message := message |}]
  | EmailFormat => if is_email s then [] else [issue (InvalidString "email")]
  | UrlFormat => if is_url s then [] else [issue (InvalidString "url")]
  end.

(** [z.string()] followed by its checks. *)
Definition z_string (checks : list StringCheck) : Schema string :=
  fun v =>
    match v with
    | Some (JStr s) => checked (flat_map (string_issue s) checks) s
    | _ => wrong_type "string" v
    end.

Definition int_issue (q : Q) : list ZodIssue :=
  if is_integer q then [] else [issue (InvalidType "integer" "float")].

Definition number_issue (q : Q) (c : NumberCheck) : list ZodIssue :=
  match c with
  | Min n => if Qle_bool (inject_Z n) q then [] else [issue (TooSmall "number" n)]
  | Max n => if Qle_bool q (inject_Z n) then [] else [issue (TooBig "number" n)]
  end.

(** [z.number().int()] followed by its bounds. *)
Definition z_int (checks : list NumberCheck) : Schema Z :=
  fun v =>
    match v with
    | Some (JNum q) => checked (int_issue q ++ flat_map (number_issue q) checks) (to_Z q)
    | _ => wrong_type "number" v
    end.

Definition z_boolean : Schema bool :=
  fun v =>
    match v with
    | Some (JBool b) => inr b
    | _ => wrong_type "boolean" v
    end.

Fixpoint assoc {A} (k : string) (table : list (string * A)) : option A :=
  match table with
  | [] => None
  | (k', a) :: rest => if String.eqb k k' then Some a else assoc k rest
  end.

(** [z.enum([...])]; the table pairs each literal with its typed value. *)
Definition z_enum {A} (options : list (string * A)) : Schema A :=
  fun v =>
    match v with
    | Some (JStr s) =>
        match assoc s options with
        | Some a => inr a
        | None => inl [issue (InvalidEnumValue (map fst options))]
        end
    | _ => wrong_type (String.concat " | " (map fst options)) v
    end.

(** [inner.array()], with [.min(n)] when [min] is given. *)
Definition z_array {A} (inner : Schema A) (min : option nat) : Schema (list A) :=
  fun v =>
    match v with
    | Some (JArr items) =>
        let short :=
          match min with
          | Some n =>
              if (length items <? n)%nat then [issue (TooSmall "array" (Z.of_nat n))] else []
          | None => []
          end in
        match all_V (map (fun item => inner (Some item)) items) with
        | inl issues => inl (short ++ issues)
        | inr values => checked short values
        end
    | _ => wrong_type "array" v
    end.

(** [z.record(z.string())]. *)
Definition z_record_string : Schema (gmap string string) :=
  fun v =>
    match v with
    | Some (JObj fields) =>
        map_V (fun values => list_to_map (zip (map fst fields) values))
              (all_V (map (fun kv => z_string [] (Some (snd kv))) fields))
    | _ => wrong_type "object" v
    end.

(** [z.custom(check, { message })], for a [check] that rejects
    [undefined]. *)
Definition z_custom (check : json -> bool) (message : string) : Schema json :=
  fun v =>
    match v with
    | Some x => if check x then inr x
                else inl [{| issue_kind := Custom; issue_message := message |}]
    | None => inl [{| issue_kind := Custom; issue_message := message |}]
    end.

Definition z_optional {A} (inner : Schema A) : Schema (option A) :=
  fun v =>
    match v with
    | None => inr None
    | Some _ => map_V Some (inner v)
    end.

Definition z_default {A} (inner : Schema A) (value : json) : Schema A :=
  fun v =>
    match v with
    | None => inner (Some value)
    | Some _ => inner v
    end.

(** [z.object({...})]: [shape] reads the keys it declares, in order, and
    ignores the others. *)
Definition z_object {A} (shape : list (string * json) -> V A) : Schema A :=
  fun v =>
    match v with
    | Some (JObj fields) => shape fields
    | _ => wrong_type "object" v
    end.

(** The entry [k: schema] of a shape, applied to the object at hand. *)
Definition key {A} (fields : list (string * json)) (k : string) (schema : Schema A)
  : V A :=
  schema (obj_get k fields).
End Zod.

(** ** Schema library of the server *)

Section Schemas.
Context {zod : ZodLib}.

Definition propertyFilterSchema : Schema string :=
  z_string [Regex propertyFilterRegex_test "Must be in key=value format"].

Definition attendeeSchema : Schema AttendeeInput :=
  z_object (fun o =>
    inr Build_AttendeeInput
    <*> key o "email" (z_string [EmailFormat])
    <*> key o "optional" (z_optional z_boolean)
    <*> key o "displayName" (z_optional (z_string []))
    <*> key o "responseStatus"
          (z_optional (z_enum [("needsAction", RsNeedsAction); ("declined", RsDeclined);
                               ("tentative", RsTentative); ("accepted", RsAccepted)]))
    <*> key o "comment" (z_optional (z_string []))
    <*> key o "additionalGuests" (z_optional (z_int [Min 0]))).

Definition reminderOverrideSchema : Schema ReminderOverrideInput :=
  z_object (fun o =>
    inr Build_ReminderOverrideInput
    <*> key o "method" (z_optional (z_enum [("email", Email); ("popup", Popup)]))
    <*> key o "minutes" (z_int [Min 0])).

Definition remindersSchema : Schema RemindersInput :=
  z_object (fun o =>
    inr Build_RemindersInput
    <*> key o "useDefault" (z_optional z_boolean)
    <*> key o "overrides" (z_optional (z_array reminderOverrideSchema (Some 1%nat)))).

Definition extendedPropertiesSchema : Schema (option ExtendedPropertiesInput) :=
  z_optional (z_object (fun o =>
    inr Build_ExtendedPropertiesInput
    <*> key o "private" (z_optional z_record_string)
    <*> key o "shared" (z_optional z_record_string))).

Definition attachmentsSchema : Schema (option (list AttachmentInput)) :=
  z_optional (z_array (z_object (fun o =>
    inr Build_AttachmentInput
    <*> key o "fileUrl" (z_string [UrlFormat])
    <*> key o "title" (z_optional (z_string []))
    <*> key o "mimeType" (z_optional (z_string []))
    <*> key o "iconLink" (z_optional (z_string [UrlFormat]))
    <*> key o "fileId" (z_optional (z_string [])))) None).

Definition sourceSchema : Schema (option SourceInput) :=
  z_optional (z_object (fun o =>
    inr Build_SourceInput
    <*> key o "title" (z_string [])
    <*> key o "url" (z_string [UrlFormat]))).

(** [typeof value === "object" && value !== null]. *)
Definition is_object (value : json) : bool :=
  match value with
  | JObj _ | JArr _ => true
  | _ => false
  end.

Definition conferenceDataSchema : Schema (option json) :=
  z_optional (z_custom is_object "conferenceData must be an object").

(** The shape of [commonEventFieldsSchema], read off the object [o]. *)
Definition commonEventFieldsShape (o : list (string * json)) : V CommonEventFields :=
  inr Build_CommonEventFields
  <*> key o "description" (z_optional (z_string []))
  <*> key o "location" (z_optional (z_string []))
  <*> key o "colorId" (z_optional (z_string []))
  <*> key o "recurrence" (z_optional (z_array (z_string []) None))
  <*> key o "transparency"
        (z_optional (z_enum [("opaque", Opaque); ("transparent", Transparent)]))
  <*> key o "visibility"
        (z_optional (z_enum [("default", VisDefault); ("public", VisPublic);
                             ("private", VisPrivate); ("confidential", VisConfidential)]))
  <*> key o "attendees" (z_optional (z_array attendeeSchema None))
  <*> key o "reminders" (z_optional remindersSchema)
  <*> key o "conferenceData" conferenceDataSchema
  <*> key o "extendedProperties" extendedPropertiesSchema
  <*> key o "guestsCanInviteOthers" (z_optional z_boolean)
  <*> key o "guestsCanModify" (z_optional z_boolean)
  <*> key o "guestsCanSeeOtherGuests" (z_optional z_boolean)
  <*> key o "anyoneCanAddSelf" (z_optional z_boolean)
  <*> key o "attachments" attachmentsSchema
  <*> key o "source" sourceSchema.

Definition commonEventFieldsSchema : Schema CommonEventFields :=
  z_object commonEventFieldsShape.

Definition sendUpdatesSchema : Schema (option SendUpdates) :=
  z_optional (z_enum [("all", SuAll); ("externalOnly", SuExternalOnly); ("none", SuNone)]).

Definition orderBySchema : Schema (option OrderBy) :=
  z_optional (z_enum [("startTime", ObStartTime); ("updated", ObUpdated)]).
End Schemas.

(** ** Operation inputs ([z.infer] of the per-operation schemas)

    A [.merge(commonEventFieldsSchema)] is kept as the sub-record
    [*_common]; the two shapes have no key in common. *)

Record ListEventsInput := {
  le_calendarId : string;
  le_timeMin : option string;
  le_timeMax : option string;
  le_maxResults : option Z;
  le_query : option string;
  le_singleEvents : option bool;
  le_orderBy : option OrderBy;
  le_showDeleted : option bool;
  le_timeZone : option string;
  le_pageToken : option string;
  le_syncToken : option string;
  le_privateExtendedProperty : option (list string);
  le_sharedExtendedProperty : option (list string)
}.

Record SearchEventsInput := {
  se_calendarIds : list string;
  se_query : string;
  se_timeMin : option string;
  se_timeMax : option string;
  se_maxResultsPerCalendar : option Z;
  se_timeZone : option string;
  se_orderBy : option OrderBy;
  se_showDeleted : option bool;
  se_singleEvents : option bool;
  se_privateExtendedProperty : option (list string);
  se_sharedExtendedProperty : option (list string)
}.

Record CreateEventInput := {
  ce_calendarId : string;
  ce_summary : string;
  ce_start : string;
  ce_end : string;
  ce_timeZone : option string;
  ce_eventId : option string;
  ce_sendUpdates : option SendUpdates;
  ce_common : CommonEventFields
}.

Record UpdateEventInput := {
  ue_calendarId : string;
  ue_eventId : string;
  ue_summary : option string;
  ue_start : option string;
  ue_end : option string;
  ue_timeZone : option string;
  ue_sendUpdates : option SendUpdates;
  ue_common : CommonEventFields
}.

Record UpdateEventInstanceInput := {
  ui_calendarId : string;
  ui_instanceId : string;
  ui_summary : option string;
  ui_start : option string;
  ui_end : option string;
  ui_timeZone : option string;
  ui_sendUpdates : option SendUpdates;
  ui_common : CommonEventFields
}.

Record UpdateTaskInput := {
  ut_tasklistId : string;
  ut_taskId : string;
  ut_title : option string;
  ut_notes : option string;
  ut_due : option string;
  ut_status : option TaskStatus
}.

Record CompleteTaskInput := {
  ct_tasklistId : string;
  ct_taskId : string
}.

Section InputSchemas.
Context {zod : ZodLib}.

Definition listEventsInput : Schema ListEventsInput :=
  z_object (fun o =>
    inr Build_ListEventsInput
    <*> key o "calendarId" (z_default (z_string []) (JStr "primary"))
    <*> key o "timeMin" (z_optional (z_string []))
    <*> key o "timeMax" (z_optional (z_string []))
    <*> key o "maxResults" (z_optional (z_int [Min 1; Max 2500]))
    <*> key o "query" (z_optional (z_string []))
    <*> key o "singleEvents" (z_optional z_boolean)
    <*> key o "orderBy" orderBySchema
    <*> key o "showDeleted" (z_optional z_boolean)
    <*> key o "timeZone" (z_optional (z_string []))
    <*> key o "pageToken" (z_optional (z_string []))
    <*> key o "syncToken" (z_optional (z_string []))
    <*> key o "privateExtendedProperty" (z_optional (z_array propertyFilterSchema None))
    <*> key o "sharedExtendedProperty" (z_optional (z_array propertyFilterSchema None))).

Definition searchEventsInput : Schema SearchEventsInput :=
  z_object (fun o =>
    inr Build_SearchEventsInput
    <*> key o "calendarIds"
          (z_default (z_array (z_string []) (Some 1%nat)) (JArr [JStr "primary"]))
    <*> key o "query" (z_string [MinLength 1])
    <*> key o "timeMin" (z_optional (z_string []))
    <*> key o "timeMax" (z_optional (z_string []))
    <*> key o "maxResultsPerCalendar" (z_optional (z_int [Min 1; Max 2500]))
    <*> key o "timeZone" (z_optional (z_string []))
    <*> key o "orderBy" orderBySchema
    <*> key o "showDeleted" (z_optional z_boolean)
    <*> key o "singleEvents" (z_optional z_boolean)
    <*> key o "privateExtendedProperty" (z_optional (z_array propertyFilterSchema None))
    <*> key o "sharedExtendedProperty" (z_optional (z_array propertyFilterSchema None))).

Definition createEventInput : Schema CreateEventInput :=
  z_object (fun o =>
    inr Build_CreateEventInput
    <*> key o "calendarId" (z_default (z_string []) (JStr "primary"))
    <*> key o "summary" (z_string [])
    <*> key o "start" (z_string [])
    <*> key o "end" (z_string [])
    <*> key o "timeZone" (z_optional (z_string []))
    <*> key o "eventId" (z_optional (z_string []))
    <*> key o "sendUpdates" sendUpdatesSchema
    <*> commonEventFieldsShape o).

Definition updateEventInput : Schema UpdateEventInput :=
  z_object (fun o =>
    inr Build_UpdateEventInput
    <*> key o "calendarId" (z_default (z_string []) (JStr "primary"))
    <*> key o "eventId" (z_string [])
    <*> key o "summary" (z_optional (z_string []))
    <*> key o "start" (z_optional (z_string []))
    <*> key o "end" (z_optional (z_string []))
    <*> key o "timeZone" (z_optional (z_string []))
    <*> key o "sendUpdates" sendUpdatesSchema
    <*> commonEventFieldsShape o).

Definition updateEventInstanceInput : Schema UpdateEventInstanceInput :=
  z_object (fun o =>
    inr Build_UpdateEventInstanceInput
    <*> key o "calendarId" (z_default (z_string []) (JStr "primary"))
    <*> key o "instanceId" (z_string [])
    <*> key o "summary" (z_optional (z_string []))
    <*> key o "start" (z_optional (z_string []))
    <*> key o "end" (z_optional (z_string []))
    <*> key o "timeZone" (z_optional (z_string []))
    <*> key o "sendUpdates" sendUpdatesSchema
    <*> commonEventFieldsShape o).

(** [z.object({})]. *)
Definition emptyInput : Schema unit :=
  z_object (fun _ => inr tt).

Definition updateTaskInput : Schema UpdateTaskInput :=
  z_object (fun o =>
    inr Build_UpdateTaskInput
    <*> key o "tasklistId" (z_default (z_string []) (JStr "@default"))
    <*> key o "taskId" (z_string [])
    <*> key o "title" (z_optional (z_string []))
    <*> key o "notes" (z_optional (z_string []))
    <*> key o "due" (z_optional (z_string []))
    <*> key o "status"
          (z_optional (z_enum [("needsAction", NeedsAction); ("completed", Completed)]))).

Definition completeTaskInput : Schema CompleteTaskInput :=
  z_object (fun o =>
    inr Build_CompleteTaskInput
    <*> key o "tasklistId" (z_default (z_string []) (JStr "@default"))
    <*> key o "taskId" (z_string [])).
End InputSchemas.

(** ** Backend requests and the runtime *)

Record EventsListParams := {
  el_calendarId : string;
  el_timeMin : option string;
  el_timeMax : option string;
  el_maxResults : option Z;
  el_q : option string;
  el_singleEvents : option bool;
  el_orderBy : option OrderBy;
  el_showDeleted : option bool;
  el_timeZone : option string;
  el_pageToken : option string;
  el_syncToken : option string;
  el_privateExtendedProperty : option (list string);
  el_sharedExtendedProperty : option (list string)
}.

(** Outbound task resource ([tasks_v1.Schema$Task] as the handlers build
    it). *)
Record TaskBody := {
  tk_title : option string;
  tk_notes : option string;
  tk_due : option string;
  tk_status : option TaskStatus;
  tk_completed : option string
}.

(** One call of a method of the calendar or tasks client, with its
    parameters. *)
Inductive Request :=
| Events_list (params : EventsListParams)
| Events_insert (calendarId : string) (requestBody : EventBody)
    (sendUpdates : option SendUpdates) (supportsAttachments : option bool)
    (conferenceDataVersion : option Z)
| Events_patch (calendarId eventId : string) (requestBody : EventBody)
    (sendUpdates : option SendUpdates) (supportsAttachments : option bool)
    (conferenceDataVersion : option Z)
| Tasklists_list (maxResults : option Z)
| Tasks_patch (tasklist task : string) (requestBody : TaskBody).

Inductive ErrorCode := InvalidParams | InternalError.

Record McpError := {
  code : ErrorCode;
  message : string
}.

(** What a [catch] clause can receive, by the tests [registerTool] makes. *)
Inductive Thrown :=
| ThrownMcpError (e : McpError)
| ThrownZodError (issues : list ZodIssue)
| ThrownWithMessage (message : string)
| ThrownOther.

(** The world outside the server: what the backend answers to a request
    ([response.data], or a rejection) and how the request changes it, and
    what [new Date().toISOString()] reads. *)
Class Runtime := {
  World : Type;
  backend : Request -> World -> (Thrown + json) * World;
  clock : World -> string
}.

Inductive CalendarClient := CalendarHandle.
Inductive TasksClient := TasksHandle.

Record Server := {
  calendar : option CalendarClient;
  tasks : option TasksClient
}.

Record TextContent := {
  content_type : string;
  content_data : json
}.

Record ToolResult := {
  content : list TextContent
}.

(** [JSON.stringify(data, null, 2)] is kept as the value it prints. *)
Definition toJsonContent (data : json) : list TextContent :=
  [{| content_type := "text"; content_data := data |}].

Definition mapEvent (event : json) : json :=
  JObj [("id", or_null (get "id" event));
        ("status", or_null (get "status" event));
        ("summary", or_null (get "summary" event));
        ("description", or_null (get "description" event));
        ("location", or_null (get "location" event));
        ("start", or_null (get "start" event));
        ("end", or_null (get "end" event));
        ("recurrence", or_null (get "recurrence" event));
        ("recurringEventId", or_null (get "recurringEventId" event));
        ("originalStartTime", or_null (get "originalStartTime" event));
        ("creator", or_null (get "creator" event));
        ("organizer", or_null (get "organizer" event));
        ("attendees", or_null (get "attendees" event));
        ("htmlLink", or_null (get "htmlLink" event));
        ("hangoutLink", or_null (get "hangoutLink" event));
        ("conferenceData", or_null (get "conferenceData" event));
        ("attachments", or_null (get "attachments" event));
        ("transparency", or_null (get "transparency" event));
        ("visibility", or_null (get "visibility" event));
        ("colorId", or_null (get "colorId" event));
        ("reminders", or_null (get "reminders" event));
        ("updated", or_null (get "updated" event));
        ("created", or_null (get "created" event))].

(** A property that may be [undefined] in an object literal: the key is
    printed only when the value is there. *)
Definition prop (k : string) (v : option json) : list (string * json) :=
  match v with
  | Some x => [(k, x)]
  | None => []
  end.

(** Truthiness of a JSON value. *)
Definition truthy (v : json) : bool :=
  match v with
  | JNull => false
  | JBool b => b
  | JNum q => negb (Qeq_bool q 0)
  | JStr s => negb (String.eqb s "")
  | JArr _ | JObj _ => true
  end.

Section Handlers.
Context {zod : ZodLib} {rt : Runtime}.

(** *** The monad of handlers *)

Definition State : Type := World * list Request.
Definition M (A : Type) : Type := State -> (Thrown + A) * State.

Definition ret {A} (a : A) : M A := fun s => (inr a, s).
Definition throw {A} (e : Thrown) : M A := fun s => (inl e, s).
Definition bind {A B} (m : M A) (k : A -> M B) : M B :=
  fun s =>
    match m s with
    | (inr a, s') => k a s'
    | (inl e, s') => (inl e, s')
    end.
Definition try_catch {A} (m : M A) (handler : Thrown -> M A) : M A :=
  fun s =>
    match m s with
    | (inr a, s') => (inr a, s')
    | (inl e, s') => handler e s'
    end.

Notation "x <- m ;; k" := (bind m (fun x => k))
  (at level 100, m at next level, right associativity).

(** [await client.method(params)]: the request is logged and answered by
    the backend. *)
Definition call (r : Request) : M json :=
  fun s =>
    let '(answer, w) := backend r (fst s) in
    (answer, (w, snd s ++ [r])).

(** [new Date().toISOString()]. *)
Definition now_iso : M string := fun s => (inr (clock (fst s)), s).

Definition ensureCalendar (this : Server) : M CalendarClient :=
  match calendar this with
  | Some c => ret c
  | None =>
      throw (ThrownMcpError {| code := InternalError;
                               message := "Google Calendar client is not initialized" |})
  end.

Definition ensureTasks (this : Server) : M TasksClient :=
  match tasks this with
  | Some t => ret t
  | None =>
      throw (ThrownMcpError {| code := InternalError;
                               message := "Google Tasks client is not initialized" |})
  end.

Definition events_list (_ : CalendarClient) (p : EventsListParams) : M json :=
  call (Events_list p).
Definition events_insert (_ : CalendarClient) calendarId requestBody sendUpdates
    supportsAttachments conferenceDataVersion : M json :=
  call (Events_insert calendarId requestBody sendUpdates supportsAttachments
          conferenceDataVersion).
Definition events_patch (_ : CalendarClient) calendarId eventId requestBody sendUpdates
    supportsAttachments conferenceDataVersion : M json :=
  call (Events_patch calendarId eventId requestBody sendUpdates supportsAttachments
          conferenceDataVersion).
Definition tasklists_list (_ : TasksClient) (maxResults : option Z) : M json :=
  call (Tasklists_list maxResults).
Definition tasks_patch (_ : TasksClient) tasklist task requestBody : M json :=
  call (Tasks_patch tasklist task requestBody).

(** *** The registry wrapper *)

Definition registerTool {T} (name description : string) (schema : Schema T)
    (executor : T -> M ToolResult) (args : option json) : M ToolResult :=
  try_catch
    (match schema (Some (or_empty_object args)) with
     | inr parsed => executor parsed
     | inl issues => throw (ThrownZodError issues)
     end)
    (fun error =>
       match error with
       | ThrownMcpError e => throw (ThrownMcpError e)
       | ThrownZodError issues =>
           let message := String.concat "; " (map issue_message issues) in
           throw (ThrownMcpError {| code := InvalidParams; message := message |})
       | ThrownWithMessage m =>
           throw (ThrownMcpError {| code := InternalError; message := m |})
       | ThrownOther =>
           throw (ThrownMcpError {| code := InternalError;
                                    message := "Unexpected error executing tool" |})
       end).

(** *** Calendar handlers *)

Definition list_events (this : Server) (input : ListEventsInput) : M ToolResult :=
  calendar <- ensureCalendar this ;;
  data <- events_list calendar
    {| el_calendarId := le_calendarId input;
       el_timeMin := le_timeMin input;
       el_timeMax := le_timeMax input;
       el_maxResults := le_maxResults input;
       el_q := le_query input;
       el_singleEvents := le_singleEvents input;
       el_orderBy := le_orderBy input;
       el_showDeleted := le_showDeleted input;
       el_timeZone := le_timeZone input;
       el_pageToken := le_pageToken input;
       el_syncToken := le_syncToken input;
       el_privateExtendedProperty := le_privateExtendedProperty input;
       el_sharedExtendedProperty := le_sharedExtendedProperty input |} ;;
  let events := map mapEvent (or_empty (get "items" data)) in
  ret {| content := toJsonContent
           (JObj [("events", JArr events);
                  ("nextPageToken", or_null (get "nextPageToken" data));
                  ("nextSyncToken", or_null (get "nextSyncToken" data))]) |}.

(** An element of the [results] array of [search-events]. *)
Record SearchEntry := {
  sr_calendarId : string;
  sr_events : list json;
  sr_nextPageToken : json
}.

Definition entry_json (entry : SearchEntry) : json :=
  JObj [("calendarId", JStr (sr_calendarId entry));
        ("events", JArr (sr_events entry));
        ("nextPageToken", sr_nextPageToken entry)].

Definition search_params (input : SearchEventsInput) (calendarId : string)
  : EventsListParams :=
  {| el_calendarId := calendarId;
     el_timeMin := se_timeMin input;
     el_timeMax := se_timeMax input;
     el_maxResults := se_maxResultsPerCalendar input;
     el_q := Some (se_query input);
     el_singleEvents := se_singleEvents input;
     el_orderBy := se_orderBy input;
     el_showDeleted := se_showDeleted input;
     el_timeZone := se_timeZone input;
     el_pageToken := None;
     el_syncToken := None;
     el_privateExtendedProperty := se_privateExtendedProperty input;
     el_sharedExtendedProperty := se_sharedExtendedProperty input |}.

(** [for (const calendarId of input.calendarIds) { ... results.push(...) }]
    over the identifiers still to visit. *)
Fixpoint search_loop (calendar : CalendarClient) (input : SearchEventsInput)
    (calendarIds : list string) (results : list SearchEntry) : M (list SearchEntry) :=
  match calendarIds with
  | [] => ret results
  | calendarId :: rest =>
      data <- events_list calendar (search_params input calendarId) ;;
      search_loop calendar input rest
        (results ++ [{| sr_calendarId := calendarId;
                        sr_events := map mapEvent (or_empty (get "items" data));
                        sr_nextPageToken := or_null (get "nextPageToken" data) |}])
  end.

Definition search_events (this : Server) (input : SearchEventsInput) : M ToolResult :=
  calendar <- ensureCalendar this ;;
  results <- search_loop calendar input (se_calendarIds input) [] ;;
  let totalEvents :=
    fold_left (fun sum entry => (sum + Z.of_nat (length (sr_events entry)))%Z) results 0%Z in
  ret {| content := toJsonContent
           (JObj [("query", JStr (se_query input));
                  ("totalEvents", JNum (inject_Z totalEvents));
                  ("calendars", JArr (map entry_json results))]) |}.

(** [Array.isArray(a) && a.length > 0]. *)
Definition hasAttachments (attachments : option (list AttachmentInput)) : bool :=
  match attachments with
  | Some l => (0 <? length l)%nat
  | None => false
  end.

(** [hasAttachments || undefined]. *)
Definition supportsAttachments_of (input : CommonEventFields) : option bool :=
  if hasAttachments (cf_attachments input) then Some true else None.

(** [input.conferenceData ? 1 : undefined]. *)
Definition conferenceDataVersion_of (input : CommonEventFields) : option Z :=
  match cf_conferenceData input with
  | Some c => if truthy c then Some 1%Z else None
  | None => None
  end.

(** The [requestBody] of [create-event] at the point of the backend call.
    The three guarded assignments that follow the object literal write to
    keys the literal has left unset. *)
Definition create_event_body (input : CreateEventInput) : EventBody :=
  let requestBody :=
    {| ev_summary := Some (ce_summary input);
       ev_start := Some (toGoogleDate (ce_start input) (ce_timeZone input));
       ev_end := Some (toGoogleDate (ce_end input) (ce_timeZone input));
       ev_id := if truthy_string (ce_eventId input) then ce_eventId input else None;
       ev_description := cf_description (ce_common input);
       ev_location := cf_location (ce_common input);
       ev_colorId := None; ev_recurrence := None; ev_transparency := None;
       ev_visibility := None; ev_attendees := None; ev_reminders := None;
       ev_conferenceData := None; ev_extendedProperties := None;
       ev_guestsCanInviteOthers := None; ev_guestsCanModify := None;
       ev_guestsCanSeeOtherGuests := None; ev_anyoneCanAddSelf := None;
       ev_attachments := None; ev_source := None |} in
  applyCommonEventFields requestBody (ce_common input).

Definition create_event (this : Server) (input : CreateEventInput) : M ToolResult :=
  calendar <- ensureCalendar this ;;
  created <- events_insert calendar (ce_calendarId input) (create_event_body input)
               (ce_sendUpdates input) (supportsAttachments_of (ce_common input))
               (conferenceDataVersion_of (ce_common input)) ;;
  ret {| content := toJsonContent (JObj [("event", created)]) |}.

(** The [requestBody] that [update-event] and [update-event-instance]
    build, in the same words, from their [summary], [start], [end],
    [timeZone] and common fields. *)
Definition update_body (summary start end_ timeZone : option string)
    (common : CommonEventFields) : EventBody :=
  let requestBody :=
    {| ev_summary := summary;
       ev_start := (fun v => toGoogleDate v timeZone) <$> start;
       ev_end := (fun v => toGoogleDate v timeZone) <$> end_;
       ev_id := None; ev_description := None; ev_location := None;
       ev_colorId := None; ev_recurrence := None; ev_transparency := None;
       ev_visibility := None; ev_attendees := None; ev_reminders := None;
       ev_conferenceData := None; ev_extendedProperties := None;
       ev_guestsCanInviteOthers := None; ev_guestsCanModify := None;
       ev_guestsCanSeeOtherGuests := None; ev_anyoneCanAddSelf := None;
       ev_attachments := None; ev_source := None |} in
  applyCommonEventFields requestBody common.

Definition update_event_body (input : UpdateEventInput) : EventBody :=
  update_body (ue_summary input) (ue_start input) (ue_end input) (ue_timeZone input)
    (ue_common input).

Definition update_event (this : Server) (input : UpdateEventInput) : M ToolResult :=
  calendar <- ensureCalendar this ;;
  updated <- events_patch calendar (ue_calendarId input) (ue_eventId input)
               (update_event_body input) (ue_sendUpdates input)
               (supportsAttachments_of (ue_common input))
               (conferenceDataVersion_of (ue_common input)) ;;
  ret {| content := toJsonContent (JObj [("event", updated)]) |}.

Definition update_event_instance_body (input : UpdateEventInstanceInput) : EventBody :=
  update_body (ui_summary input) (ui_start input) (ui_end input) (ui_timeZone input)
    (ui_common input).

Definition update_event_instance (this : Server) (input : UpdateEventInstanceInput)
  : M ToolResult :=
  calendar <- ensureCalendar this ;;
  updated <- events_patch calendar (ui_calendarId input) (ui_instanceId input)
               (update_event_instance_body input) (ui_sendUpdates input)
               (supportsAttachments_of (ui_common input))
               (conferenceDataVersion_of (ui_common input)) ;;
  ret {| content := toJsonContent (JObj [("event", updated)]) |}.

(** *** Task handlers *)

Definition tasklist_entry (item : json) : json :=
  JObj (prop "id" (get "id" item) ++ prop "title" (get "title" item)
        ++ prop "updated" (get "updated" item)).

Definition list_tasklists (this : Server) (_ : unit) : M ToolResult :=
  tasks <- ensureTasks this ;;
  data <- tasklists_list tasks (Some 100%Z) ;;
  let tasklists := map tasklist_entry (or_empty (get "items" data)) in
  ret {| content := toJsonContent
           (JObj [("tasklists", JArr tasklists);
                  ("nextPageToken", or_null (get "nextPageToken" data))]) |}.

(** The [requestBody] of [update-task]; [completed] is the stamp taken
    when the status is ["completed"]. *)
Definition update_task_body (input : UpdateTaskInput) (completed : option string)
  : TaskBody :=
  {| tk_title := ut_title input;
     tk_notes := ut_notes input;
     tk_due := ut_due input;
     tk_status := ut_status input;
     tk_completed := completed |}.

Definition update_task (this : Server) (input : UpdateTaskInput) : M ToolResult :=
  tasks <- ensureTasks this ;;
  completed <- match ut_status input with
               | Some Completed => now <- now_iso ;; ret (Some now)
               | _ => ret None
               end ;;
  updated <- tasks_patch tasks (ut_tasklistId input) (ut_taskId input)
               (update_task_body input completed) ;;
  ret {| content := toJsonContent (JObj [("task", updated)]) |}.

Definition complete_task (this : Server) (input : CompleteTaskInput) : M ToolResult :=
  tasks <- ensureTasks this ;;
  completedAt <- now_iso ;;
  updated <- tasks_patch tasks (ct_tasklistId input) (ct_taskId input)
               {| tk_title := None; tk_notes := None; tk_due := None;
                  tk_status := Some Completed; tk_completed := Some completedAt |} ;;
  ret {| content := toJsonContent (JObj [("task", updated)]) |}.

(** *** The registered tools *)

Definition tool_list_events (this : Server) :=
  registerTool "list-events"
    "List events from a calendar with optional filtering and pagination."
    listEventsInput (list_events this).

Definition tool_search_events (this : Server) :=
  registerTool "search-events"
    "Search events across one or more calendars with advanced filters."
    searchEventsInput (search_events this).

Definition tool_create_event (this : Server) :=
  registerTool "create-event"
    "Create a new calendar event, including support for recurrence and advanced options."
    createEventInput (create_event this).

Definition tool_update_event (this : Server) :=
  registerTool "update-event"
    "Update an existing calendar event or recurring series."
    updateEventInput (update_event this).

Definition tool_update_event_instance (this : Server) :=
  registerTool "update-event-instance"
    "Update a single occurrence of a recurring event."
    updateEventInstanceInput (update_event_instance this).

Definition tool_list_tasklists (this : Server) :=
  registerTool "list-tasklists"
    "List all Google Task lists available to the authenticated user."
    emptyInput (list_tasklists this).

Definition tool_update_task (this : Server) :=
  registerTool "update-task"
    "Update a task in the specified task list."
    updateTaskInput (update_task this).

Definition tool_complete_task (this : Server) :=
  registerTool "complete-task"
    "Mark a task as completed."
    completeTaskInput (complete_task this).
End Handlers.

(** ** Keys of a request body, and keys a caller supplied *)

(** The key [k] if the value is there. *)
Definition keyed {A} (k : string) (v : option A) : list string :=
  if v is Some _ then [k] else [].

(** The keys of an event body as it is sent. *)
Definition event_body_keys (b : EventBody) : list string :=
  keyed "summary" (ev_summary b) ++ keyed "start" (ev_start b) ++ keyed "end" (ev_end b)
  ++ keyed "id" (ev_id b) ++ keyed "description" (ev_description b)
  ++ keyed "location" (ev_location b) ++ keyed "colorId" (ev_colorId b)
  ++ keyed "recurrence" (ev_recurrence b) ++ keyed "transparency" (ev_transparency b)
  ++ keyed "visibility" (ev_visibility b) ++ keyed "attendees" (ev_attendees b)
  ++ keyed "reminders" (ev_reminders b) ++ keyed "conferenceData" (ev_conferenceData b)
  ++ keyed "extendedProperties" (ev_extendedProperties b)
  ++ keyed "guestsCanInviteOthers" (ev_guestsCanInviteOthers b)
  ++ keyed "guestsCanModify" (ev_guestsCanModify b)
  ++ keyed "guestsCanSeeOtherGuests" (ev_guestsCanSeeOtherGuests b)
  ++ keyed "anyoneCanAddSelf" (ev_anyoneCanAddSelf b)
  ++ keyed "attachments" (ev_attachments b) ++ keyed "source" (ev_source b).

(** The mutable event fields a caller supplied to an update operation. *)
Definition update_supplied (summary start end_ : option string) (c : CommonEventFields)
  : list string :=
  keyed "summary" summary ++ keyed "start" start ++ keyed "end" end_
  ++ keyed "id" (@None string) ++ keyed "description" (cf_description c)
  ++ keyed "location" (cf_location c) ++ keyed "colorId" (cf_colorId c)
  ++ keyed "recurrence" (cf_recurrence c) ++ keyed "transparency" (cf_transparency c)
  ++ keyed "visibility" (cf_visibility c) ++ keyed "attendees" (cf_attendees c)
  ++ keyed "reminders" (cf_reminders c) ++ keyed "conferenceData" (cf_conferenceData c)
  ++ keyed "extendedProperties" (cf_extendedProperties c)
  ++ keyed "guestsCanInviteOthers" (cf_guestsCanInviteOthers c)
  ++ keyed "guestsCanModify" (cf_guestsCanModify c)
  ++ keyed "guestsCanSeeOtherGuests" (cf_guestsCanSeeOtherGuests c)
  ++ keyed "anyoneCanAddSelf" (cf_anyoneCanAddSelf c)
  ++ keyed "attachments" (cf_attachments c) ++ keyed "source" (cf_source c).

Definition update_event_supplied (input : UpdateEventInput) : list string :=
  update_supplied (ue_summary input) (ue_start input) (ue_end input) (ue_common input).

Definition update_event_instance_supplied (input : UpdateEventInstanceInput) : list string :=
  update_supplied (ui_summary input) (ui_start input) (ui_end input) (ui_common input).

Definition task_body_keys (b : TaskBody) : list string :=
  keyed "title" (tk_title b) ++ keyed "notes" (tk_notes b) ++ keyed "due" (tk_due b)
  ++ keyed "status" (tk_status b) ++ keyed "completed" (tk_completed b).

Definition update_task_supplied (input : UpdateTaskInput) : list string :=
  keyed "title" (ut_title input) ++ keyed "notes" (ut_notes input)
  ++ keyed "due" (ut_due input) ++ keyed "status" (ut_status input).

(** A Reminders input that says something: [useDefault] is given or there is
    at least one override. *)
Definition reminders_content (r : RemindersInput) : bool :=
  bool_decide (is_Some (ri_useDefault r))
  || (if ri_overrides r is Some (_ :: _) then true else false).

(** An Extended Properties input with at least one key in [private] or in
    [shared]. *)
Definition some_key (m : option (gmap string string)) : bool :=
  if m is Some m then bool_decide (m ≠ ∅) else false.

Definition extendedProperties_content (e : ExtendedPropertiesInput) : bool :=
  some_key (epi_private e) || some_key (epi_shared e).

(** Whether a supplied key survives the mapping of its value: every key does,
    except [reminders] and [extendedProperties] without content. *)
Definition carried (c : CommonEventFields) (k : string) : bool :=
  if String.eqb k "reminders" then
    (if cf_reminders c is Some r then reminders_content r else true)
  else if String.eqb k "extendedProperties" then
    (if cf_extendedProperties c is Some e then extendedProperties_content e else true)
  else true.

(** "YYYY-MM-DD": four digits, a dash, two digits, a dash, two digits, and
    nothing else. *)
Definition is_YYYY_MM_DD (s : string) : Prop :=
  ∃ y1 y2 y3 y4 m1 m2 d1 d2 : ascii,
    forallb is_digit [y1; y2; y3; y4; m1; m2; d1; d2] = true ∧
    s = String y1 (String y2 (String y3 (String y4 (String "-"
          (String m1 (String m2 (String "-" (String d1 (String d2 ""))))))))).

(** ** A concrete library and runtime, for the examples *)

(** English messages in the style of zod 3 for the issues of the examples. *)
Definition sample_errorMap (k : IssueKind) : string :=
  match k with
  | InvalidType _ "undefined" => "Required"
  | InvalidType expected received => "Expected " +:+ expected +:+ ", received " +:+ received
  | InvalidEnumValue _ => "Invalid enum value"
  | TooSmall _ n => "Number must be greater than or equal to " +:+ pretty n
  | TooBig _ n => "Number must be less than or equal to " +:+ pretty n
  | InvalidString validation => "Invalid " +:+ validation
  | Custom => "Invalid input"
  end.

Definition sample_zod : ZodLib :=
  {| errorMap := sample_errorMap;
     is_email := fun s => bool_decide (is_Some (String.index 0 "@" s));
     is_url := String.prefix "https://" |}.

(** A backend that knows no calendar ["b"], and otherwise answers with small
    fixed entities; the world counts the requests served and the clock
    advances with it. *)
Definition sample_backend (r : Request) (w : nat) : (Thrown + json) * nat :=
  match r with
  | Events_list p =>
      if String.eqb (el_calendarId p) "b" then (inl (ThrownWithMessage "Not Found"), S w)
      else (inr (JObj [("items", JArr [JObj [("id", JStr "e1"); ("summary", JStr "Standup")]])]),
            S w)
  | Events_insert _ body _ _ _ =>
      (inr (JObj (("id", JStr "evt1") :: prop "summary" (JStr <$> ev_summary body))), S w)
  | Events_patch _ eventId _ _ _ _ => (inr (JObj [("id", JStr eventId)]), S w)
  | Tasklists_list _ =>
      (inr (JObj [("items", JArr [JObj [("id", JStr "l1"); ("title", JStr "My Tasks")]])]), S w)
  | Tasks_patch _ task body =>
      (inr (JObj (("id", JStr task) :: prop "completed" (JStr <$> tk_completed body))), S w)
  end.

Definition sample_clock (w : nat) : string :=
  "2024-01-10T17:00:0" +:+ pretty (w `mod` 10) +:+ ".000Z".

Definition sample_runtime : Runtime :=
  {| World := nat; backend := sample_backend; clock := sample_clock |}.

Definition sample_server : Server :=
  {| calendar := Some CalendarHandle; tasks := Some TasksHandle |}.

(** The arguments of the create-event scenario. *)
Definition standup_args : list (string * json) :=
  [("calendarId", JStr "primary"); ("summary", JStr "Standup");
   ("start", JStr "2024-01-10T09:00:00-08:00"); ("end", JStr "2024-01-10T09:30:00-08:00")].

Definition no_common_fields : CommonEventFields :=
  {| cf_description := None; cf_location := None; cf_colorId := None;
     cf_recurrence := None; cf_transparency := None; cf_visibility := None;
     cf_attendees := None; cf_reminders := None; cf_conferenceData := None;
     cf_extendedProperties := None; cf_guestsCanInviteOthers := None;
     cf_guestsCanModify := None; cf_guestsCanSeeOtherGuests := None;
     cf_anyoneCanAddSelf := None; cf_attachments := None; cf_source := None |}.

Definition standup_input : CreateEventInput :=
  {| ce_calendarId := "primary"; ce_summary := "Standup";
     ce_start := "2024-01-10T09:00:00-08:00"; ce_end := "2024-01-10T09:30:00-08:00";
     ce_timeZone := None; ce_eventId := None; ce_sendUpdates := None;
     ce_common := no_common_fields |}.

(** The reading of "a timeZone key is added if and only if a time zone was
    supplied" for a value sent as a timestamp. *)
Definition zone_key_iff_supplied (value : string) (timeZone : option string) : Prop :=
  is_Some (gd_timeZone (toGoogleDate value timeZone)) ↔ is_Some timeZone.

(** ** Reference descriptions used by the statements *)

(** The structured error that [registerTool] reports for a thrown value. *)
Definition reported (e : Thrown) : McpError :=
  match e with
  | ThrownMcpError e => e
  | ThrownZodError issues =>
      {| code := InvalidParams; message := String.concat "; " (map issue_message issues) |}
  | ThrownWithMessage m => {| code := InternalError; message := m |}
  | ThrownOther => {| code := InternalError; message := "Unexpected error executing tool" |}
  end.

(** A thrown value that is neither a protocol error nor a validation error:
    what a failing backend call raises. *)
Definition backend_failure (e : Thrown) : Prop :=
  match e with
  | ThrownWithMessage _ | ThrownOther => True
  | _ => False
  end.

Section Reference.
Context {rt : Runtime}.

(** The list request of [search-events] for one calendar. *)
Definition search_request (input : SearchEventsInput) (calendarId : string) : Request :=
  Events_list (search_params input calendarId).

(** Serving the list requests for [calendarIds] one after the other from
    the world [w]: the first rejection, if any. *)
Fixpoint first_rejection (input : SearchEventsInput) (calendarIds : list string)
    (w : World) : option Thrown :=
  match calendarIds with
  | [] => None
  | calendarId :: rest =>
      match backend (search_request input calendarId) w with
      | (inl e, _) => Some e
      | (inr _, w') => first_rejection input rest w'
      end
  end.

(** The entries for the calendars answered before the first rejection. *)
Fixpoint answered (input : SearchEventsInput) (calendarIds : list string)
    (w : World) : list SearchEntry :=
  match calendarIds with
  | [] => []
  | calendarId :: rest =>
      match backend (search_request input calendarId) w with
      | (inl _, _) => []
      | (inr data, w') =>
          {| sr_calendarId := calendarId;
             sr_events := map mapEvent (or_empty (get "items" data));
             sr_nextPageToken := or_null (get "nextPageToken" data) |}
          :: answered input rest w'
      end
  end.

(** The number of list requests served up to and including the first
    rejection. *)
Definition served (input : SearchEventsInput) (calendarIds : list string)
    (w : World) : nat :=
  match first_rejection input calendarIds w with
  | None => length calendarIds
  | Some _ => S (length (answered input calendarIds w))
  end.

(** The requests that a tool invocation adds to the log, and its outcome. *)
Definition issued {A} (run : (Thrown + A) * (World * list Request)) : list Request :=
  snd (snd run).
Definition outcome {A} (run : (Thrown + A) * (World * list Request)) : Thrown + A :=
  fst run.
End Reference.

Section UpdateReference.
Context {rt : Runtime}.

(** The completion stamp of [update-task] in the world [w]. *)
Definition stamp (input : UpdateTaskInput) (w : World) : option string :=
  match ut_status input with
  | Some Completed => Some (clock w)
  | _ => None
  end.

(** "The body contains a mutable field if and only if the caller supplied
    it", for update-task. *)
Definition task_keys_are_supplied (input : UpdateTaskInput) (w : World) : Prop :=
  task_body_keys (update_task_body input (stamp input w)) = update_task_supplied input.
End UpdateReference.

(** The same reading for update-event. *)
Definition event_keys_are_supplied (input : UpdateEventInput) : Prop :=
  event_body_keys (update_event_body input) = update_event_supplied input.

(** The object literal [{}] of [update-task]. *)
Definition empty_task : TaskBody :=
  {| tk_title := None; tk_notes := None; tk_due := None; tk_status := None;
     tk_completed := None |}.

(** Sample update inputs: a task marked completed, and an event whose
    reminders say nothing. *)
Definition complete_t1 : UpdateTaskInput :=
  {| ut_tasklistId := "@default"; ut_taskId := "t1"; ut_title := None; ut_notes := None;
     ut_due := None; ut_status := Some Completed |}.

Definition silent_reminders : UpdateEventInput :=
  {| ue_calendarId := "primary"; ue_eventId := "evt1"; ue_summary := None;
     ue_start := None; ue_end := None; ue_timeZone := None; ue_sendUpdates := None;
     ue_common :=
       {| cf_description := None; cf_location := None; cf_colorId := None;
          cf_recurrence := None; cf_transparency := None; cf_visibility := None;
          cf_attendees := None;
          cf_reminders := Some {| ri_useDefault := None; ri_overrides := None |};
          cf_conferenceData := None; cf_extendedProperties := None;
          cf_guestsCanInviteOthers := None; cf_guestsCanModify := None;
          cf_guestsCanSeeOtherGuests := None; cf_anyoneCanAddSelf := None;
          cf_attachments := None; cf_source := None |} |}.

(** An update that names the event and supplies nothing else. *)
Definition bare_update : UpdateEventInput :=
  {| ue_calendarId := "primary"; ue_eventId := "evt1"; ue_summary := None;
     ue_start := None; ue_end := None; ue_timeZone := None; ue_sendUpdates := None;
     ue_common := no_common_fields |}.

(** The number of events in a list of entries. *)
Definition total_events (entries : list SearchEntry) : Z :=
  Z.of_nat (length (flat_map sr_events entries)).

(** A search over the calendars ["a"] and ["b"]. *)
Definition search_a_b : SearchEventsInput :=
  {| se_calendarIds := ["a"; "b"]; se_query := "standup"; se_timeMin := None;
     se_timeMax := None; se_maxResultsPerCalendar := None; se_timeZone := None;
     se_orderBy := None; se_showDeleted := None; se_singleEvents := None;
     se_privateExtendedProperty := None; se_sharedExtendedProperty := None |}.

(** The create-event scenario with an empty-string time zone. *)
Definition standup_empty_zone : CreateEventInput :=
  {| ce_calendarId := "primary"; ce_summary := "Standup";
     ce_start := "2024-01-10T09:00:00-08:00"; ce_end := "2024-01-10T09:30:00-08:00";
     ce_timeZone := Some ""; ce_eventId := None; ce_sendUpdates := None;
     ce_common := no_common_fields |}.

(** The response of create-event would be the normalized event. *)
Definition returns_normalized (result : Thrown + ToolResult) (raw : json) : Prop :=
  result = inr {| content := toJsonContent (JObj [("event", mapEvent raw)]) |}.

Definition with_eventId (input : CreateEventInput) (eventId : option string)
  : CreateEventInput :=
  {| ce_calendarId := ce_calendarId input; ce_summary := ce_summary input;
     ce_start := ce_start input; ce_end := ce_end input;
     ce_timeZone := ce_timeZone input; ce_eventId := eventId;
     ce_sendUpdates := ce_sendUpdates input; ce_common := ce_common input |}.

(** The entity with which the sample backend answers the insert request of
    the create-event scenario. *)
Definition standup_raw : json :=
  JObj [("id", JStr "evt1"); ("summary", JStr "Standup")].

(** ** The remaining operations

    The requests of the client methods not listed in [Request].  They are
    answered by [backend_rest]; the log of [State] lists the requests of
    [Request] only, and a request of this section is observed through its
    answer and the world it leaves. *)

Record ListEventInstancesInput := {
  li_calendarId : string;
  li_recurringEventId : string;
  li_timeMin : option string;
  li_timeMax : option string;
  li_maxResults : option Z;
  li_pageToken : option string;
  li_showDeleted : option bool;
  li_timeZone : option string
}.

Record DeleteEventInput := {
  de_calendarId : string;
  de_eventId : string;
  de_sendUpdates : option SendUpdates
}.

Record DeleteEventInstanceInput := {
  di_calendarId : string;
  di_instanceId : string;
  di_sendUpdates : option SendUpdates
}.

Record ListTasksInput := {
  lt_tasklistId : string;
  lt_showCompleted : option bool;
  lt_showDeleted : option bool;
  lt_maxResults : option Z;
  lt_dueMin : option string;
  lt_dueMax : option string
}.

Record CreateTaskInput := {
  nt_tasklistId : string;
  nt_title : string;
  nt_notes : option string;
  nt_due : option string
}.

Record DeleteTaskInput := {
  dt_tasklistId : string;
  dt_taskId : string
}.

Record InstancesParams := {
  ip_calendarId : string;
  ip_eventId : string;
  ip_timeMin : option string;
  ip_timeMax : option string;
  ip_maxResults : option Z;
  ip_pageToken : option string;
  ip_showDeleted : option bool;
  ip_timeZone : option string
}.

Record TasksListParams := {
  tl_tasklist : string;
  tl_showCompleted : option bool;
  tl_showDeleted : option bool;
  tl_maxResults : option Z;
  tl_dueMin : option string;
  tl_dueMax : option string
}.

Inductive RestRequest :=
| CalendarList_list
| Events_instances (params : InstancesParams)
| Events_delete (calendarId eventId : string) (sendUpdates : option SendUpdates)
| Tasks_list (params : TasksListParams)
| Tasks_insert (tasklist : string) (requestBody : TaskBody)
| Tasks_delete (tasklist task : string).

Class RestRuntime {rt : Runtime} := {
  backend_rest : RestRequest -> World -> (Thrown + json) * World
}.

(** [Boolean(x)]. *)
Definition to_boolean (x : option json) : bool :=
  match x with
  | Some v => truthy v
  | None => false
  end.

(** The entry of [list-calendars] for one item of the calendar list. *)
Definition calendar_entry (item : json) : json :=
  JObj (prop "id" (get "id" item) ++ prop "summary" (get "summary" item)
        ++ [("description", or_null (get "description" item));
            ("timeZone", or_null (get "timeZone" item));
            ("primary", JBool (to_boolean (get "primary" item)));
            ("accessRole", or_null (get "accessRole" item))]).

(** The entry of [list-tasks] for one task. *)
Definition task_entry (task : json) : json :=
  JObj (prop "id" (get "id" task) ++ prop "title" (get "title" task)
        ++ [("notes", or_null (get "notes" task))]
        ++ prop "status" (get "status" task)
        ++ [("due", or_null (get "due" task));
            ("completed", or_null (get "completed" task))]
        ++ prop "updated" (get "updated" task)).

(** The [requestBody] of [create-task]. *)
Definition create_task_body (input : CreateTaskInput) : TaskBody :=
  {| tk_title := Some (nt_title input);
     tk_notes := nt_notes input;
     tk_due := nt_due input;
     tk_status := None;
     tk_completed := None |}.

Section RestSchemas.
Context {zod : ZodLib}.

Definition listEventInstancesInput : Schema ListEventInstancesInput :=
  z_object (fun o =>
    inr Build_ListEventInstancesInput
    <*> key o "calendarId" (z_default (z_string []) (JStr "primary"))
    <*> key o "recurringEventId" (z_string [])
    <*> key o "timeMin" (z_optional (z_string []))
    <*> key o "timeMax" (z_optional (z_string []))
    <*> key o "maxResults" (z_optional (z_int [Min 1; Max 2500]))
    <*> key o "pageToken" (z_optional (z_string []))
    <*> key o "showDeleted" (z_optional z_boolean)
    <*> key o "timeZone" (z_optional (z_string []))).

Definition deleteEventInput : Schema DeleteEventInput :=
  z_object (fun o =>
    inr Build_DeleteEventInput
    <*> key o "calendarId" (z_default (z_string []) (JStr "primary"))
    <*> key o "eventId" (z_string [])
    <*> key o "sendUpdates" sendUpdatesSchema).

Definition deleteEventInstanceInput : Schema DeleteEventInstanceInput :=
  z_object (fun o =>
    inr Build_DeleteEventInstanceInput
    <*> key o "calendarId" (z_default (z_string []) (JStr "primary"))
    <*> key o "instanceId" (z_string [])
    <*> key o "sendUpdates" sendUpdatesSchema).

Definition listTasksInput : Schema ListTasksInput :=
  z_object (fun o =>
    inr Build_ListTasksInput
    <*> key o "tasklistId" (z_default (z_string []) (JStr "@default"))
    <*> key o "showCompleted" (z_optional z_boolean)
    <*> key o "showDeleted" (z_optional z_boolean)
    <*> key o "maxResults" (z_optional (z_int [Min 1; Max 100]))
    <*> key o "dueMin" (z_optional (z_string []))
    <*> key o "dueMax" (z_optional (z_string []))).

Definition createTaskInput : Schema CreateTaskInput :=
  z_object (fun o =>
    inr Build_CreateTaskInput
    <*> key o "tasklistId" (z_default (z_string []) (JStr "@default"))
    <*> key o "title" (z_string [])
    <*> key o "notes" (z_optional (z_string []))
    <*> key o "due" (z_optional (z_string []))).

Definition deleteTaskInput : Schema DeleteTaskInput :=
  z_object (fun o =>
    inr Build_DeleteTaskInput
    <*> key o "tasklistId" (z_default (z_string []) (JStr "@default"))
    <*> key o "taskId" (z_string [])).
End RestSchemas.

Section RestHandlers.
Context {zod : ZodLib} {rt : Runtime} {rest : RestRuntime}.

Notation "x <- m ;; k" := (bind m (fun x => k))
  (at level 100, m at next level, right associativity).

(** [await client.method(params)] for a method of this section. *)
Definition call_rest (r : RestRequest) : M json :=
  fun s =>
    let '(answer, w) := backend_rest r (fst s) in
    (answer, (w, snd s)).

Definition calendarList_list (_ : CalendarClient) : M json :=
  call_rest CalendarList_list.
Definition events_instances (_ : CalendarClient) (p : InstancesParams) : M json :=
  call_rest (Events_instances p).
Definition events_delete (_ : CalendarClient) calendarId eventId sendUpdates : M json :=
  call_rest (Events_delete calendarId eventId sendUpdates).
Definition tasks_list (_ : TasksClient) (p : TasksListParams) : M json :=
  call_rest (Tasks_list p).
Definition tasks_insert (_ : TasksClient) tasklist requestBody : M json :=
  call_rest (Tasks_insert tasklist requestBody).
Definition tasks_delete (_ : TasksClient) tasklist task : M json :=
  call_rest (Tasks_delete tasklist task).

Definition list_calendars (this : Server) (_ : unit) : M ToolResult :=
  calendar <- ensureCalendar this ;;
  data <- calendarList_list calendar ;;
  let calendars := map calendar_entry (or_empty (get "items" data)) in
  ret {| content := toJsonContent (JObj [("calendars", JArr calendars)]) |}.

Definition list_event_instances (this : Server) (input : ListEventInstancesInput)
  : M ToolResult :=
  calendar <- ensureCalendar this ;;
  data <- events_instances calendar
    {| ip_calendarId := li_calendarId input;
       ip_eventId := li_recurringEventId input;
       ip_timeMin := li_timeMin input;
       ip_timeMax := li_timeMax input;
       ip_maxResults := li_maxResults input;
       ip_pageToken := li_pageToken input;
       ip_showDeleted := li_showDeleted input;
       ip_timeZone := li_timeZone input |} ;;
  let instances := map mapEvent (or_empty (get "items" data)) in
  ret {| content := toJsonContent
           (JObj [("instances", JArr instances);
                  ("nextPageToken", or_null (get "nextPageToken" data))]) |}.

Definition delete_event (this : Server) (input : DeleteEventInput) : M ToolResult :=
  calendar <- ensureCalendar this ;;
  _ <- events_delete calendar (de_calendarId input) (de_eventId input)
         (de_sendUpdates input) ;;
  ret {| content := toJsonContent (JObj [("success", JBool true)]) |}.

Definition delete_event_instance (this : Server) (input : DeleteEventInstanceInput)
  : M ToolResult :=
  calendar <- ensureCalendar this ;;
  _ <- events_delete calendar (di_calendarId input) (di_instanceId input)
         (di_sendUpdates input) ;;
  ret {| content := toJsonContent (JObj [("success", JBool true)]) |}.

Definition list_tasks (this : Server) (input : ListTasksInput) : M ToolResult :=
  tasks <- ensureTasks this ;;
  data <- tasks_list tasks
    {| tl_tasklist := lt_tasklistId input;
       tl_showCompleted := lt_showCompleted input;
       tl_showDeleted := lt_showDeleted input;
       tl_maxResults := lt_maxResults input;
       tl_dueMin := lt_dueMin input;
       tl_dueMax := lt_dueMax input |} ;;
  let taskItems := map task_entry (or_empty (get "items" data)) in
  ret {| content := toJsonContent
           (JObj [("tasks", JArr taskItems);
                  ("nextPageToken", or_null (get "nextPageToken" data))]) |}.

Definition create_task (this : Server) (input : CreateTaskInput) : M ToolResult :=
  tasks <- ensureTasks this ;;
  created <- tasks_insert tasks (nt_tasklistId input) (create_task_body input) ;;
  ret {| content := toJsonContent (JObj [("task", created)]) |}.

Definition delete_task (this : Server) (input : DeleteTaskInput) : M ToolResult :=
  tasks <- ensureTasks this ;;
  _ <- tasks_delete tasks (dt_tasklistId input) (dt_taskId input) ;;
  ret {| content := toJsonContent (JObj [("success", JBool true)]) |}.

Definition tool_list_calendars (this : Server) :=
  registerTool "list-calendars"
    "List all calendars available to the authenticated user."
    emptyInput (list_calendars this).

Definition tool_list_event_instances (this : Server) :=
  registerTool "list-event-instances"
    "List all instances of a recurring event."
    listEventInstancesInput (list_event_instances this).

Definition tool_delete_event (this : Server) :=
  registerTool "delete-event"
    "Delete a calendar event or recurring series."
    deleteEventInput (delete_event this).

Definition tool_delete_event_instance (this : Server) :=
  registerTool "delete-event-instance"
    "Delete a single occurrence of a recurring event."
    deleteEventInstanceInput (delete_event_instance this).

Definition tool_list_tasks (this : Server) :=
  registerTool "list-tasks"
    "List tasks from a task list."
    listTasksInput (list_tasks this).

Definition tool_create_task (this : Server) :=
  registerTool "create-task"
    "Create a new task in the specified task list."
    createTaskInput (create_task this).

Definition tool_delete_task (this : Server) :=
  registerTool "delete-task"
    "Delete a task from the specified task list."
    deleteTaskInput (delete_task this).
End RestHandlers.

(** The field allow-list of the event normalizer. *)
Definition event_fields : list string :=
  ["id"; "status"; "summary"; "description"; "location"; "start"; "end"; "recurrence";
   "recurringEventId"; "originalStartTime"; "creator"; "organizer"; "attendees";
   "htmlLink"; "hangoutLink"; "conferenceData"; "attachments"; "transparency";
   "visibility"; "colorId"; "reminders"; "updated"; "created"].

(** A backend for the remaining methods: deleting the event ["gone"] is
    rejected, every other request is answered with a small fixed entity. *)
Definition sample_backend_rest (r : RestRequest) (w : nat) : (Thrown + json) * nat :=
  match r with
  | CalendarList_list =>
      (inr (JObj [("items", JArr [JObj [("id", JStr "primary"); ("primary", JBool true)];
                                  JObj [("id", JStr "team")]])]), S w)
  | Events_instances p =>
      (inr (JObj [("items", JArr [JObj [("id", JStr (ip_eventId p +:+ "_1"))]])]), S w)
  | Events_delete _ eventId _ =>
      if String.eqb eventId "gone" then (inl (ThrownWithMessage "Resource has been deleted"), S w)
      else (inr JNull, S w)
  | Tasks_list _ =>
      (inr (JObj [("items", JArr [JObj [("id", JStr "t1"); ("title", JStr "Buy milk")]])]), S w)
  | Tasks_insert _ body =>
      (inr (JObj (("id", JStr "t2") :: prop "title" (JStr <$> tk_title body))), S w)
  | Tasks_delete _ _ => (inr JNull, S w)
  end.

Definition sample_rest : RestRuntime (rt := sample_runtime) :=
  @Build_RestRuntime sample_runtime sample_backend_rest.

(** Whether the character [=] occurs in a string. *)
Fixpoint mentions_eq (s : string) : bool :=
  match s with
  | String c rest => Ascii.eqb c "="%char || mentions_eq rest
  | EmptyString => false
  end.

(** ** Credentials and the command line ([googleClient.ts], [index.ts])

    The process is its readable files (a flat map from paths to contents),
    what it has written to standard output and standard error, and its exit
    code.  Directories, permissions and whatever else decides whether a
    directory can be made or a file written belong to the host: what
    [fs.mkdir] and [fs.writeFile] do to the process, and whether they throw,
    are parameters, as are the values the host gives to [os.homedir],
    [path.join], [path.dirname], [JSON.parse], [JSON.stringify], the
    interactive flow [authenticate], the version field of [package.json], the
    transport loop of the server and the errors raised by the runtime
    itself. *)

Inductive Exn :=
| ErrorObject (message : string)
| NonError (text : string).

(** [error instanceof Error ? error.message : String(error)]. *)
Definition exn_message (error : Exn) : string :=
  match error with
  | ErrorObject message => message
  | NonError text => text
  end.

Record Process := {
  p_files : gmap string string;
  p_stdout : list string;
  p_stderr : list string;
  p_exitCode : option Z
}.

Record Env := {
  GOOGLE_OAUTH_CREDENTIALS : option string;
  GOOGLE_CALENDAR_MCP_TOKEN_PATH : option string
}.

Record OAuth2Client := {
  oc_client_id : json;
  oc_client_secret : json;
  oc_credentials : json
}.

Class Host := {
  homedir : string;
  path_join : list string -> string;
  path_dirname : string -> string;
  JSON_parse : string -> option json;
  JSON_stringify : json -> string;
  fs_mkdir : string -> Process -> (Exn + unit) * Process;
  fs_writeFile : string -> string -> Process -> (Exn + unit) * Process;
  authenticate : list string -> string -> Process -> (Exn + OAuth2Client) * Process;
  package_version : option string;
  serve : Server -> Process -> (Exn + unit) * Process;
  no_such_file : string -> Exn;
  syntax_error : string -> Exn;
  type_error : Exn
}.

Inductive Command := CmdStart | CmdAuth | CmdVersion | CmdHelp.

(** The line feed of a template literal. *)
Definition LF : string := String "010" "".

(** [a ?? b]. *)
Definition nullish_or (a b : option json) : option json :=
  match a with
  | None | Some JNull => b
  | Some _ => a
  end.

Definition SCOPES : list string :=
  ["https://www.googleapis.com/auth/calendar";
   "https://www.googleapis.com/auth/calendar.events";
   "https://www.googleapis.com/auth/tasks"].

(** [const [, , firstArg] = process.argv] and the switch on it, whose cases
    are compared with [===] from the top. *)
Definition parseCommand (argv : list string) : Command :=
  match argv !! 2%nat with
  | None => CmdStart
  | Some firstArg =>
      if String.eqb firstArg "" then CmdStart
      else if String.eqb firstArg "start" then CmdStart
      else if String.eqb firstArg "auth" then CmdAuth
      else if String.eqb firstArg "version" || String.eqb firstArg "--version"
              || String.eqb firstArg "-v" then CmdVersion
      else if String.eqb firstArg "help" || String.eqb firstArg "--help"
              || String.eqb firstArg "-h" then CmdHelp
      else CmdStart
  end.

Section Credentials.
Context {host : Host}.

Definition IO (A : Type) : Type := Process -> (Exn + A) * Process.

Definition io_ret {A} (a : A) : IO A := fun p => (inr a, p).
Definition io_throw {A} (e : Exn) : IO A := fun p => (inl e, p).
Definition io_bind {A B} (m : IO A) (k : A -> IO B) : IO B :=
  fun p =>
    match m p with
    | (inr a, p') => k a p'
    | (inl e, p') => (inl e, p')
    end.
Definition io_catch {A} (m : IO A) (handler : Exn -> IO A) : IO A :=
  fun p =>
    match m p with
    | (inr a, p') => (inr a, p')
    | (inl e, p') => handler e p'
    end.

Notation "x <- m ;; k" := (io_bind m (fun x => k))
  (at level 100, m at next level, right associativity).

(** [fs.readFile(path, "utf-8")]. *)
Definition readFile (path : string) : IO string :=
  fun p =>
    match p_files p !! path with
    | Some content => (inr content, p)
    | None => (inl (no_such_file path), p)
    end.

(** [fs.writeFile(path, content)]: it throws or not, and leaves the process,
    as the host decides. *)
Definition writeFile (path content : string) : IO unit := fs_writeFile path content.

(** [fs.mkdir(dir, { recursive: true })], likewise. *)
Definition mkdir_recursive (dir : string) : IO unit := fs_mkdir dir.

(** [process.stdout.write(text)]. *)
Definition stdout_write (text : string) : IO unit :=
  fun p =>
    (inr tt, {| p_files := p_files p; p_stdout := p_stdout p ++ [text];
                p_stderr := p_stderr p; p_exitCode := p_exitCode p |}).

(** [JSON.parse(content)]. *)
Definition parse (content : string) : IO json :=
  match JSON_parse content with
  | Some v => io_ret v
  | None => io_throw (syntax_error content)
  end.

(** [v.k] on a parsed value: reading a property of [null] throws. *)
Definition member (k : string) (v : json) : IO (option json) :=
  match v with
  | JNull => io_throw type_error
  | _ => io_ret (get k v)
  end.

Definition DEFAULT_TOKEN_PATH : string :=
  path_join [homedir; ".config"; "google-calendar-todo-mcp"; "token.json"].

Definition getTokenPath (env : Env) : string :=
  default DEFAULT_TOKEN_PATH (GOOGLE_CALENDAR_MCP_TOKEN_PATH env).

Definition ensureDirectoryExists (filePath : string) : IO unit :=
  mkdir_recursive (path_dirname filePath).

Definition loadSavedCredentialsIfExist (env : Env) : IO (option OAuth2Client) :=
  io_catch
    (let tokenPath := getTokenPath env in
     content <- readFile tokenPath ;;
     tokens <- parse content ;;
     client_id <- member "client_id" tokens ;;
     if negb (to_boolean client_id) then io_ret None
     else
       client_secret <- member "client_secret" tokens ;;
       if negb (to_boolean client_secret) then io_ret None
       else io_ret (Some {| oc_client_id := or_null client_id;
                            oc_client_secret := or_null client_secret;
                            oc_credentials := tokens |}))
    (fun error => io_ret None).

(** The object written to the token file. *)
Definition token_payload (keys : json) (client : OAuth2Client) : json :=
  JObj ([("type", JStr "authorized_user");
         ("client_id", or_null (get "client_id" keys));
         ("client_secret", or_null (get "client_secret" keys))]
        ++ prop "refresh_token" (get "refresh_token" (oc_credentials client))
        ++ prop "access_token" (get "access_token" (oc_credentials client))
        ++ prop "expiry_date" (get "expiry_date" (oc_credentials client))).

Definition saveCredentials (env : Env) (client : OAuth2Client) : IO unit :=
  match GOOGLE_OAUTH_CREDENTIALS env with
  | Some keyfilePath =>
      if String.eqb keyfilePath "" then
        io_throw (ErrorObject "GOOGLE_OAUTH_CREDENTIALS environment variable is required")
      else
        content <- readFile keyfilePath ;;
        credentials <- parse content ;;
        installed <- member "installed" credentials ;;
        web <- match installed with
               | None | Some JNull => member "web" credentials
               | Some _ => io_ret None
               end ;;
        match nullish_or installed web with
        | Some keys =>
            if negb (truthy keys) || negb (to_boolean (get "client_id" keys))
               || negb (to_boolean (get "client_secret" keys)) then
              io_throw (ErrorObject
                "Invalid Google OAuth credentials file. Expected installed or web client.")
            else
              let tokenPath := getTokenPath env in
              _ <- ensureDirectoryExists tokenPath ;;
              writeFile tokenPath (JSON_stringify (token_payload keys client))
        | None =>
            io_throw (ErrorObject
              "Invalid Google OAuth credentials file. Expected installed or web client.")
        end
  | None =>
      io_throw (ErrorObject "GOOGLE_OAUTH_CREDENTIALS environment variable is required")
  end.

Definition authorize (env : Env) : IO OAuth2Client :=
  match GOOGLE_OAUTH_CREDENTIALS env with
  | Some keyfilePath =>
      if String.eqb keyfilePath "" then
        io_throw (ErrorObject
          "Set GOOGLE_OAUTH_CREDENTIALS to the path of your OAuth client credentials JSON file.")
      else
        cachedClient <- loadSavedCredentialsIfExist env ;;
        match cachedClient with
        | Some cachedClient => io_ret cachedClient
        | None =>
            client <- authenticate SCOPES keyfilePath ;;
            _ <- saveCredentials env client ;;
            io_ret client
        end
  | None =>
      io_throw (ErrorObject
        "Set GOOGLE_OAUTH_CREDENTIALS to the path of your OAuth client credentials JSON file.")
  end.

(** [GoogleCalendarTodoMcpServer.initialize]: the server as it is once the
    clients are set and the tools registered. *)
Definition initialize (env : Env) : IO Server :=
  authClient <- authorize env ;;
  io_ret {| calendar := Some CalendarHandle; tasks := Some TasksHandle |}.

Definition startServer (env : Env) (version : string) : IO unit :=
  server <- initialize env ;;
  serve server.

(** *** The command line *)

Definition VERSION : string := default "0.0.0" package_version.

Definition showHelp (env : Env) : IO unit :=
  let scopes := String.concat (LF +:+ "    - ") SCOPES in
  _ <- stdout_write ("google-calendar-todo-mcp v" +:+ VERSION +:+ LF +:+ LF) ;;
  _ <- stdout_write ("Usage:" +:+ LF) ;;
  _ <- stdout_write ("  google-calendar-todo-mcp [command]" +:+ LF +:+ LF) ;;
  _ <- stdout_write ("Commands:" +:+ LF) ;;
  _ <- stdout_write ("  start     Start the MCP server over stdio (default)" +:+ LF) ;;
  _ <- stdout_write ("  auth      Run authentication flow and cache tokens" +:+ LF) ;;
  _ <- stdout_write ("  version   Show the current version" +:+ LF) ;;
  _ <- stdout_write ("  help      Show this help message" +:+ LF +:+ LF) ;;
  _ <- stdout_write ("Environment variables:" +:+ LF) ;;
  _ <- stdout_write ("  GOOGLE_OAUTH_CREDENTIALS   Path to OAuth credentials JSON" +:+ LF) ;;
  _ <- stdout_write ("  GOOGLE_CALENDAR_MCP_TOKEN_PATH   Custom token cache path (optional)"
                     +:+ LF +:+ LF) ;;
  _ <- stdout_write ("Required OAuth scopes (requested automatically):" +:+ LF +:+ "    - "
                     +:+ scopes +:+ LF) ;;
  stdout_write ("Token cache location: " +:+ getTokenPath env +:+ LF).

Definition run (env : Env) (argv : list string) : IO unit :=
  match parseCommand argv with
  | CmdAuth =>
      _ <- authorize env ;;
      stdout_write ("OAuth tokens saved to " +:+ getTokenPath env +:+ "." +:+ LF)
  | CmdVersion =>
      stdout_write ("google-calendar-todo-mcp v" +:+ VERSION +:+ LF)
  | CmdHelp => showHelp env
  | CmdStart => startServer env VERSION
  end.

(** [runAuth] of the stand-alone authentication script, and the process
    after its [catch]. *)
Definition runAuth (env : Env) : IO unit :=
  _ <- authorize env ;;
  stdout_write ("Authentication complete. Tokens stored at " +:+ getTokenPath env +:+ "."
                +:+ LF).

Definition auth_main (env : Env) (p : Process) : Process :=
  match runAuth env p with
  | (inr _, p') => p'
  | (inl error, p') =>
      {| p_files := p_files p'; p_stdout := p_stdout p';
         p_stderr := p_stderr p' ++ ["Authentication failed: " +:+ exn_message error +:+ LF];
         p_exitCode := Some 1%Z |}
  end.

(** [run().catch(...)]: the process after the command. *)
Definition main (env : Env) (argv : list string) (p : Process) : Process :=
  match run env argv p with
  | (inr _, p') => p'
  | (inl error, p') =>
      {| p_files := p_files p'; p_stdout := p_stdout p';
         p_stderr := p_stderr p' ++ ["Error: " +:+ exn_message error +:+ LF];
         p_exitCode := Some 1%Z |}
  end.
End Credentials.

(** The process after [content] has been written at [path]. *)
Definition written (path content : string) (p : Process) : Process :=
  {| p_files := <[path := content]> (p_files p); p_stdout := p_stdout p;
     p_stderr := p_stderr p; p_exitCode := p_exitCode p |}.

(** A host for the examples: the home directory [/home/u], paths joined with
    [/], a [JSON.parse] that knows the two texts below, a disk on which
    every directory can be made and every file written except at the empty
    path, an interactive flow that always grants the same tokens, and a
    transport loop that returns at once. *)
Definition sample_tokens : json :=
  JObj [("refresh_token", JStr "r-1"); ("access_token", JStr "a-1")].

Definition sample_client : OAuth2Client :=
  {| oc_client_id := JStr "id-1"; oc_client_secret := JStr "secret-1";
     oc_credentials := sample_tokens |}.

Definition sample_keys : json :=
  JObj [("client_id", JStr "id-1"); ("client_secret", JStr "secret-1")].

Definition sample_host : Host :=
  {| homedir := "/home/u";
     path_join := String.concat "/";
     path_dirname := fun path => path;
     JSON_parse := fun text =>
       if String.eqb text "KEYFILE" then Some (JObj [("installed", sample_keys)])
       else if String.eqb text "TOKENS"
       then Some (token_payload sample_keys sample_client)
       else None;
     JSON_stringify := fun _ => "TOKENS";
     fs_mkdir := fun _ p => (inr tt, p);
     fs_writeFile := fun path content p =>
       if String.eqb path ""
       then (inl (ErrorObject "ENOENT: no such file or directory, open ''"), p)
       else (inr tt, written path content p);
     authenticate := fun _ _ p => (inr sample_client, p);
     package_version := Some "1.2.3";
     serve := fun _ p => (inr tt, p);
     no_such_file := fun path => ErrorObject ("ENOENT: no such file or directory, open '"
                                              +:+ path +:+ "'");
     syntax_error := fun _ => ErrorObject "Unexpected token";
     type_error := ErrorObject "Cannot read properties of null" |}.

Definition sample_env : Env :=
  {| GOOGLE_OAUTH_CREDENTIALS := Some "/keys.json";
     GOOGLE_CALENDAR_MCP_TOKEN_PATH := None |}.

Definition sample_process : Process :=
  {| p_files := {["/keys.json" := "KEYFILE"]}; p_stdout := []; p_stderr := [];
     p_exitCode := None |}.

(** An environment whose token path is the empty string. *)
Definition empty_token_path_env : Env :=
  {| GOOGLE_OAUTH_CREDENTIALS := Some "/keys.json";
     GOOGLE_CALENDAR_MCP_TOKEN_PATH := Some "" |}.

(** Keys of a credentials file that [saveCredentials] accepts: a truthy
    value with a truthy [client_id] and [client_secret]. *)
Definition usable_keys (keys : json) : bool :=
  truthy keys && to_boolean (get "client_id" keys) && to_boolean (get "client_secret" keys).

(** What [saveCredentials] does once it holds usable keys: the directory of
    [path] is made, then [content] is written at [path]; when the directory
    cannot be made that failure is the outcome and no write is attempted. *)
Definition stored {host : Host} (path content : string) (p : Process)
  : (Exn + unit) * Process :=
  match fs_mkdir (path_dirname path) p with
  | (inr _, p1) => fs_writeFile path content p1
  | (inl e, p1) => (inl e, p1)
  end.

(** A host on which a write that succeeds can be read back. *)
Definition read_after_write {host : Host} : Prop :=
  ∀ path content p p',
    fs_writeFile path content p = (inr tt, p') → p_files p' !! path = Some content.

(** An environment without GOOGLE_OAUTH_CREDENTIALS, a process whose token
    cache is already written, and a server before [initialize]. *)
Definition no_keyfile_env : Env :=
  {| GOOGLE_OAUTH_CREDENTIALS := None; GOOGLE_CALENDAR_MCP_TOKEN_PATH := None |}.

Definition cached_process : Process :=
  {| p_files := {["/home/u/.config/google-calendar-todo-mcp/token.json" := "TOKENS"]};
     p_stdout := []; p_stderr := []; p_exitCode := None |}.

Definition fresh_server : Server := {| calendar := None; tasks := None |}.

(** An action that only prints: it succeeds in every process and appends
    [front] and then [final] to standard output, changing nothing else. *)
Definition only_prints {host : Host} (m : IO unit) (front : list string) (final : string)
  : Prop :=
  ∀ p, m p = (inr tt, {| p_files := p_files p; p_stdout := p_stdout p ++ front ++ [final];
                         p_stderr := p_stderr p; p_exitCode := p_exitCode p |}).

(** The create-event scenario with one reminder that names no method. *)
Definition reminded_input : CreateEventInput :=
  {| ce_calendarId := "primary"; ce_summary := "Standup";
     ce_start := "2024-01-10T09:00:00-08:00"; ce_end := "2024-01-10T09:30:00-08:00";
     ce_timeZone := None; ce_eventId := None; ce_sendUpdates := None;
     ce_common :=
       {| cf_description := None; cf_location := None; cf_colorId := None;
          cf_recurrence := None; cf_transparency := None; cf_visibility := None;
          cf_attendees := None;
          cf_reminders :=
            Some {| ri_useDefault := None;
                    ri_overrides := Some [{| ro_method := None; ro_minutes := 5 |}] |};
          cf_conferenceData := None; cf_extendedProperties := None;
          cf_guestsCanInviteOthers := None; cf_guestsCanModify := None;
          cf_guestsCanSeeOtherGuests := None; cf_anyoneCanAddSelf := None;
          cf_attachments := None; cf_source := None |} |}.

(** * Properties *)

(** ** The schemas and patterns on sample values *)

Example standup_validates :
  createEventInput (zod := sample_zod) (Some (JObj standup_args)) = inr standup_input.
Proof. vm_compute. reflexivity. Qed.

Example list_events_5000 :
  listEventsInput (zod := sample_zod) (Some (JObj [("maxResults", JNum (5000 # 1))]))
  = inl [{| issue_kind := TooBig "number" 2500;
            issue_message := "Number must be less than or equal to 2500" |}].
Proof. vm_compute. reflexivity. Qed.

Example date_only_yes : DATE_ONLY_REGEX_test "2024-01-10" = true.
Proof. reflexivity. Qed.

Example date_only_no :
  map DATE_ONLY_REGEX_test ["2024-01-10T09:00:00Z"; "2024-1-10"; "2024-01-10 "; ""; "2024/01/10"]
  = [false; false; false; false; false].
Proof. reflexivity. Qed.

Example property_filter_examples :
  map propertyFilterRegex_test ["k=v"; "k="; "=v"; "a=b=c"; "kv"]
  = [true; false; false; false; false].
Proof. reflexivity. Qed.


(** ** Dates *)

Lemma digits_S n c rest :
  digits (S n) (String c rest) = if is_digit c then digits n rest else None.
Proof. reflexivity. Qed.

Lemma lit_Some c s rest : lit c s = Some rest ↔ s = String c rest.
Proof.
  destruct s as [|c' s']; simpl; [split; discriminate|].
  destruct (Ascii.eqb c c') eqn:E.
  - apply Ascii.eqb_eq in E as ->. split; congruence.
  - apply Ascii.eqb_neq in E. split; congruence.
Qed.

Lemma digits_2_Some s rest :
  digits 2 s = Some rest ↔
  ∃ a b, is_digit a = true ∧ is_digit b = true ∧ s = String a (String b rest).
Proof.
  split.
  - destruct s as [|a [|b s']]; simpl; try discriminate.
    + destruct (is_digit a); discriminate.
    + destruct (is_digit a) eqn:Ea, (is_digit b) eqn:Eb; try discriminate.
      intros [= ->]. eauto 6.
  - intros (a & b & Ha & Hb & ->). simpl. by rewrite Ha, Hb.
Qed.

Lemma digits_4_Some s rest :
  digits 4 s = Some rest ↔
  ∃ a b c d, (is_digit a = true ∧ is_digit b = true) ∧
             (is_digit c = true ∧ is_digit d = true) ∧
             s = String a (String b (String c (String d rest))).
Proof.
  split.
  - destruct s as [|a [|b s']]; simpl; try discriminate.
    + destruct (is_digit a); discriminate.
    + destruct (is_digit a) eqn:Ea, (is_digit b) eqn:Eb; try discriminate.
      change (digits 2 s' = Some rest → ∃ a0 b0 c d : ascii,
        (is_digit a0 = true ∧ is_digit b0 = true) ∧ (is_digit c = true ∧ is_digit d = true) ∧
        String a (String b s') = String a0 (String b0 (String c (String d rest)))).
      intros (c & d & Hc & Hd & ->)%digits_2_Some. eauto 10.
  - intros (a & b & c & d & [Ha Hb] & [Hc Hd] & ->). simpl. by rewrite Ha, Hb, Hc, Hd.
Qed.

(** The regular expression accepts exactly the strings of the shape
    YYYY-MM-DD. *)
Lemma DATE_ONLY_REGEX_test_shape value :
  DATE_ONLY_REGEX_test value = true ↔ is_YYYY_MM_DD value.
Proof.
  unfold DATE_ONLY_REGEX_test, anchored, is_YYYY_MM_DD. cbn [fold_left].
  split.
  - destruct (digits 4 value) as [r1|] eqn:E1; [|discriminate].
    destruct (lit "-" r1) as [r2|] eqn:E2; [|discriminate].
    destruct (digits 2 r2) as [r3|] eqn:E3; [|discriminate].
    destruct (lit "-" r3) as [r4|] eqn:E4; [|discriminate].
    destruct (digits 2 r4) as [[|]|] eqn:E5; try discriminate. intros _.
    apply digits_4_Some in E1 as (y1 & y2 & y3 & y4 & [H1 H2] & [H3 H4] & ->).
    apply lit_Some in E2 as ->. apply digits_2_Some in E3 as (m1 & m2 & H5 & H6 & ->).
    apply lit_Some in E4 as ->. apply digits_2_Some in E5 as (d1 & d2 & H7 & H8 & ->).
    exists y1, y2, y3, y4, m1, m2, d1, d2. split; [|reflexivity].
    simpl. by rewrite H1, H2, H3, H4, H5, H6, H7, H8.
  - intros (y1 & y2 & y3 & y4 & m1 & m2 & d1 & d2 & Hd & ->).
    simpl in Hd. repeat (apply andb_prop in Hd as [? Hd]).
    cbn. repeat match goal with H : is_digit _ = true |- _ => rewrite H; clear H; cbn end.
    reflexivity.
Qed.

Lemma truthy_string_spec (s : option string) :
  truthy_string s = true ↔ ∃ tz, s = Some tz ∧ tz ≠ "".
Proof.
  destruct s as [tz|]; simpl.
  - destruct (String.eqb tz "") eqn:E; simpl.
    + apply String.eqb_eq in E as ->. split; [discriminate|]. by intros (? & [= <-] & ?).
    + apply String.eqb_neq in E. split; eauto. 
  - split; [discriminate|]. by intros (? & ? & ?).
Qed.

Lemma toGoogleDate_date value timeZone :
  DATE_ONLY_REGEX_test value = true →
  toGoogleDate value timeZone
  = {| gd_date := Some value; gd_dateTime := None; gd_timeZone := None |}.
Proof. intros E. unfold toGoogleDate. by rewrite E. Qed.

Lemma toGoogleDate_dateTime value timeZone :
  DATE_ONLY_REGEX_test value = false →
  toGoogleDate value timeZone
  = {| gd_date := None; gd_dateTime := Some value;
       gd_timeZone := if truthy_string timeZone then timeZone else None |}.
Proof. intros E. unfold toGoogleDate. rewrite E. by destruct (truthy_string timeZone). Qed.

(** C1, as amended.  A start or end string of the shape YYYY-MM-DD is sent
    as [{date: value}]; any other string is sent as [{dateTime: value}], with
    a [timeZone] key exactly when a non-empty time zone was supplied (an
    empty-string time zone adds no key); [date] and [dateTime] are never both
    set; create-event, update-event and update-event-instance all send
    [start] and [end] through this one conversion. *)
Theorem toGoogleDate_date_or_dateTime :
  (∀ value timeZone,
     (is_YYYY_MM_DD value →
        toGoogleDate value timeZone
        = {| gd_date := Some value; gd_dateTime := None; gd_timeZone := None |}) ∧
     (¬ is_YYYY_MM_DD value →
        gd_date (toGoogleDate value timeZone) = None ∧
        gd_dateTime (toGoogleDate value timeZone) = Some value ∧
        ∀ tz, gd_timeZone (toGoogleDate value timeZone) = Some tz
              ↔ timeZone = Some tz ∧ tz ≠ "") ∧
     ¬ (is_Some (gd_date (toGoogleDate value timeZone)) ∧
        is_Some (gd_dateTime (toGoogleDate value timeZone)))) ∧
  (∀ input : CreateEventInput,
     ev_start (create_event_body input)
     = Some (toGoogleDate (ce_start input) (ce_timeZone input)) ∧
     ev_end (create_event_body input)
     = Some (toGoogleDate (ce_end input) (ce_timeZone input))) ∧
  (∀ input : UpdateEventInput,
     ev_start (update_event_body input)
     = (λ v, toGoogleDate v (ue_timeZone input)) <$> ue_start input ∧
     ev_end (update_event_body input)
     = (λ v, toGoogleDate v (ue_timeZone input)) <$> ue_end input) ∧
  (∀ input : UpdateEventInstanceInput,
     ev_start (update_event_instance_body input)
     = (λ v, toGoogleDate v (ui_timeZone input)) <$> ui_start input ∧
     ev_end (update_event_instance_body input)
     = (λ v, toGoogleDate v (ui_timeZone input)) <$> ui_end input).
Proof.
  split; [|by repeat split].
  intros value timeZone. split; [|split].
  - intros Hd%DATE_ONLY_REGEX_test_shape. by apply toGoogleDate_date.
  - intros Hnd.
    assert (DATE_ONLY_REGEX_test value = false) as E.
    { destruct (DATE_ONLY_REGEX_test value) eqn:E; [|done].
      by apply DATE_ONLY_REGEX_test_shape in E. }
    rewrite (toGoogleDate_dateTime _ _ E). simpl. do 2 (split; [done|]).
    intros tz. destruct (truthy_string timeZone) eqn:Et.
    + apply truthy_string_spec in Et as (tz' & -> & Hne). split.
      * by intros [= <-].
      * by intros [[= <-] _].
    + split; [discriminate|]. intros [-> Hne].
      assert (truthy_string (Some tz) = true) by (apply truthy_string_spec; eauto).
      congruence.
  - intros [[d Hd] [t Ht]]. unfold toGoogleDate in *.
    destruct (DATE_ONLY_REGEX_test value); [discriminate|].
    by destruct (truthy_string timeZone).
Qed.

Lemma toGoogleDate_date_or_dateTime_witness :
  toGoogleDate "2024-01-10" (Some "Asia/Tokyo")
  = {| gd_date := Some "2024-01-10"; gd_dateTime := None; gd_timeZone := None |}
  ∧ gd_timeZone (toGoogleDate "2024-01-10T09:00:00Z" (Some "Asia/Tokyo")) = Some "Asia/Tokyo".
Proof.
  split.
  - apply (proj1 (proj1 toGoogleDate_date_or_dateTime "2024-01-10" (Some "Asia/Tokyo"))).
    apply DATE_ONLY_REGEX_test_shape. reflexivity.
  - apply (proj1 (proj2 (proj1 toGoogleDate_date_or_dateTime
                           "2024-01-10T09:00:00Z" (Some "Asia/Tokyo")))).
    + intros Hd%DATE_ONLY_REGEX_test_shape. discriminate Hd.
    + split; [reflexivity | discriminate].
Defined.

(** C1, as stated, fails: an empty-string time zone is supplied, passes the
    schema, and no [timeZone] key is added. *)
Lemma timeZone_empty_string_not_added :
  createEventInput (zod := sample_zod)
    (Some (JObj (("timeZone", JStr "") :: standup_args))) = inr standup_empty_zone
  ∧ ev_start (create_event_body standup_empty_zone)
    = Some {| gd_date := None; gd_dateTime := Some "2024-01-10T09:00:00-08:00";
              gd_timeZone := None |}
  ∧ ¬ zone_key_iff_supplied (ce_start standup_empty_zone) (ce_timeZone standup_empty_zone).
Proof.
  split; [vm_compute; reflexivity|]. split; [reflexivity|].
  unfold zone_key_iff_supplied. intros [_ Hsupplied].
  destruct Hsupplied as [tz Htz]; [by eexists|]. discriminate Htz.
Qed.

(** ** Reminders and extended properties *)

Lemma applyCommonEventFields_reminders target c :
  ev_reminders (applyCommonEventFields target c)
  = match cf_reminders c with
    | Some r => mapReminders (Some r)
    | None => ev_reminders target
    end.
Proof. reflexivity. Qed.

Lemma applyCommonEventFields_extendedProperties target c :
  ev_extendedProperties (applyCommonEventFields target c)
  = match cf_extendedProperties c with
    | Some e => mapExtendedProperties (Some e)
    | None => ev_extendedProperties target
    end.
Proof. reflexivity. Qed.

Lemma mapReminders_Some r :
  mapReminders (Some r)
  = if reminders_content r
    then Some {| rem_useDefault := ri_useDefault r;
                 rem_overrides :=
                   match ri_overrides r with
                   | Some (o :: l) => Some (map mapOverride (o :: l))
                   | _ => None
                   end |}
    else None.
Proof.
  unfold mapReminders, reminders_content, reminders_keys.
  destruct r as [[u|] [[|o l]|]]; reflexivity.
Qed.

Lemma reminders_content_false r :
  reminders_content r = false ↔
  ri_useDefault r = None ∧ (ri_overrides r = None ∨ ri_overrides r = Some []).
Proof.
  unfold reminders_content.
  destruct r as [[u|] [[|o l]|]]; simpl; intuition (discriminate || eauto).
Qed.

(** The body of every create and update path holds [mapReminders] of the
    supplied reminders, and nothing when none were supplied. *)
Lemma bodies_reminders :
  (∀ input, ev_reminders (create_event_body input)
            = mapReminders (cf_reminders (ce_common input))) ∧
  (∀ input, ev_reminders (update_event_body input)
            = mapReminders (cf_reminders (ue_common input))) ∧
  (∀ input, ev_reminders (update_event_instance_body input)
            = mapReminders (cf_reminders (ui_common input))).
Proof.
  repeat split; intros input; unfold create_event_body, update_event_body,
    update_event_instance_body, update_body;
    rewrite applyCommonEventFields_reminders; simpl;
    by destruct (cf_reminders _).
Qed.

(** C6.  An override without a method is sent with method popup.  Supplied
    overrides, when there is at least one, are all sent, in order, each with
    its minutes and with popup where it names no method, next to the
    supplied [useDefault]; a supplied [useDefault] alone is sent alone.
    Whenever [useDefault] is absent and [overrides] is absent or empty,
    [mapReminders] yields nothing.  The request bodies of create-event,
    update-event and update-event-instance carry exactly what [mapReminders]
    yields for the supplied reminders, hence no [reminders] value at all in
    the last case. *)
Theorem mapReminders_popup_and_omission :
  (∀ override, ro_method override = None →
     mapOverride override = {| er_method := Popup; er_minutes := ro_minutes override |}) ∧
  (∀ r o l, ri_overrides r = Some (o :: l) →
     mapReminders (Some r)
     = Some {| rem_useDefault := ri_useDefault r;
               rem_overrides := Some (map mapOverride (o :: l)) |}) ∧
  (∀ r u, ri_useDefault r = Some u → ri_overrides r = None ∨ ri_overrides r = Some [] →
     mapReminders (Some r)
     = Some {| rem_useDefault := Some u; rem_overrides := None |}) ∧
  (∀ r out sent, mapReminders (Some r) = Some out → rem_overrides out = Some sent →
     ∃ supplied, ri_overrides r = Some supplied ∧ sent = map mapOverride supplied) ∧
  (∀ r, ri_useDefault r = None → ri_overrides r = None ∨ ri_overrides r = Some [] →
     mapReminders (Some r) = None ∧
     (∀ input, cf_reminders (ce_common input) = Some r →
        ev_reminders (create_event_body input) = None) ∧
     (∀ input, cf_reminders (ue_common input) = Some r →
        ev_reminders (update_event_body input) = None) ∧
     (∀ input, cf_reminders (ui_common input) = Some r →
        ev_reminders (update_event_instance_body input) = None)) ∧
  (∀ r o l, ri_overrides r = Some (o :: l) →
     let sent := Some {| rem_useDefault := ri_useDefault r;
                         rem_overrides := Some (map mapOverride (o :: l)) |} in
     (∀ input, cf_reminders (ce_common input) = Some r →
        ev_reminders (create_event_body input) = sent) ∧
     (∀ input, cf_reminders (ue_common input) = Some r →
        ev_reminders (update_event_body input) = sent) ∧
     (∀ input, cf_reminders (ui_common input) = Some r →
        ev_reminders (update_event_instance_body input) = sent)).
Proof.
  assert (∀ r o l, ri_overrides r = Some (o :: l) →
            mapReminders (Some r)
            = Some {| rem_useDefault := ri_useDefault r;
                      rem_overrides := Some (map mapOverride (o :: l)) |}) as Hsent.
  { intros r o l Ho. rewrite mapReminders_Some. unfold reminders_content.
    rewrite Ho. by destruct (ri_useDefault r). }
  destruct bodies_reminders as (Hc & Hu' & Hi).
  split; [|split; [|split; [|split; [|split]]]].
  - intros override Hm. unfold mapOverride. by rewrite Hm.
  - exact Hsent.
  - intros r u Hu Ho. rewrite mapReminders_Some. unfold reminders_content.
    rewrite Hu. by destruct Ho as [-> | ->].
  - intros r out sent. rewrite mapReminders_Some.
    destruct (reminders_content r); [|discriminate]. intros [= <-]. simpl.
    destruct (ri_overrides r) as [[|o l]|]; try discriminate.
    intros [= <-]. by eexists.
  - intros r Hu Ho.
    assert (mapReminders (Some r) = None) as Hnone.
    { rewrite mapReminders_Some.
      by rewrite (proj2 (reminders_content_false r) (conj Hu Ho)). }
    repeat split; [done|..]; intros input Hr.
    + by rewrite Hc, Hr.
    + by rewrite Hu', Hr.
    + by rewrite Hi, Hr.
  - intros r o l Ho sent. subst sent. rewrite <- (Hsent r o l Ho).
    split; [|split]; intros input Hr.
    + by rewrite Hc, Hr.
    + by rewrite Hu', Hr.
    + by rewrite Hi, Hr.
Qed.

Lemma mapReminders_popup_and_omission_witness :
  mapOverride {| ro_method := None; ro_minutes := 10 |}
  = {| er_method := Popup; er_minutes := 10 |}
  ∧ mapReminders (Some {| ri_useDefault := Some false;
                          ri_overrides := Some [{| ro_method := None; ro_minutes := 10 |};
                                                {| ro_method := Some Email;
                                                   ro_minutes := 30 |}] |})
    = Some {| rem_useDefault := Some false;
              rem_overrides := Some [{| er_method := Popup; er_minutes := 10 |};
                                     {| er_method := Email; er_minutes := 30 |}] |}
  ∧ mapReminders (Some {| ri_useDefault := Some true; ri_overrides := Some [] |})
    = Some {| rem_useDefault := Some true; rem_overrides := None |}
  ∧ mapReminders (Some {| ri_useDefault := None; ri_overrides := Some [] |}) = None
  ∧ ev_reminders (create_event_body reminded_input)
    = Some {| rem_useDefault := None;
              rem_overrides := Some [{| er_method := Popup; er_minutes := 5 |}] |}.
Proof.
  destruct mapReminders_popup_and_omission as (Hpopup & Hsent & Hdefault & _ & Hnone & Hbody).
  split; [|split; [|split; [|split]]].
  - apply Hpopup. reflexivity.
  - exact (Hsent {| ri_useDefault := Some false;
                    ri_overrides := Some [{| ro_method := None; ro_minutes := 10 |};
                                          {| ro_method := Some Email;
                                             ro_minutes := 30 |}] |}
             {| ro_method := None; ro_minutes := 10 |}
             [{| ro_method := Some Email; ro_minutes := 30 |}] eq_refl).
  - apply (Hdefault {| ri_useDefault := Some true; ri_overrides := Some [] |}).
    + reflexivity.
    + right. reflexivity.
  - apply (Hnone {| ri_useDefault := None; ri_overrides := Some [] |}).
    + reflexivity.
    + right. reflexivity.
  - exact (proj1 (Hbody {| ri_useDefault := None;
                           ri_overrides := Some [{| ro_method := None;
                                                    ro_minutes := 5 |}] |}
                    {| ro_method := None; ro_minutes := 5 |} [] eq_refl)
             reminded_input eq_refl).
Defined.

Lemma has_keys_spec (m : option (gmap string string)) :
  has_keys m = true ↔ ∃ m', m = Some m' ∧ ∃ k v, m' !! k = Some v.
Proof.
  destruct m as [m'|]; simpl; [|split; [discriminate|by intros (? & ? & ?)]].
  rewrite Nat.ltb_lt. split.
  - intros Hs. exists m'. split; [done|]. apply map_choose.
    intros ->. rewrite map_size_empty in Hs. lia.
  - intros (? & [= <-] & k & v & Hk).
    destruct (decide (size m' = 0)) as [Hz%map_size_empty_iff|]; [|lia].
    subst. by rewrite lookup_empty in Hk.
Qed.

Lemma has_keys_false (m : option (gmap string string)) :
  has_keys m = false ↔ m = None ∨ m = Some ∅.
Proof.
  destruct m as [m'|]; simpl; [|split; [by left|done]].
  rewrite Nat.ltb_ge. split.
  - intros Hs. right. f_equal. apply map_size_empty_iff. lia.
  - intros [|[= ->]]; [done|]. by rewrite map_size_empty.
Qed.

(** C7.  The mapped extended properties are omitted unless [private] or
    [shared] has at least one key; when they are included, [private] is
    included exactly when the supplied [private] has a key, and likewise
    [shared]; the bodies of the create and update paths carry this mapped
    value. *)
Theorem mapExtendedProperties_nonempty_only :
  (∀ e, is_Some (mapExtendedProperties (Some e)) ↔
        ∃ m k v, (epi_private e = Some m ∨ epi_shared e = Some m) ∧ m !! k = Some v) ∧
  (∀ e out, mapExtendedProperties (Some e) = Some out →
     (∀ m, ep_private out = Some m ↔ epi_private e = Some m ∧ ∃ k v, m !! k = Some v) ∧
     (∀ m, ep_shared out = Some m ↔ epi_shared e = Some m ∧ ∃ k v, m !! k = Some v)) ∧
  (∀ input, ev_extendedProperties (create_event_body input)
            = mapExtendedProperties (cf_extendedProperties (ce_common input))) ∧
  (∀ input, ev_extendedProperties (update_event_body input)
            = mapExtendedProperties (cf_extendedProperties (ue_common input))) ∧
  (∀ input, ev_extendedProperties (update_event_instance_body input)
            = mapExtendedProperties (cf_extendedProperties (ui_common input))).
Proof.
  split; [|split].
  - intros e. unfold mapExtendedProperties.
    destruct (has_keys (epi_private e)) eqn:Ep, (has_keys (epi_shared e)) eqn:Es; simpl.
    1-2: apply has_keys_spec in Ep as (m & Hm & k & v & Hk); split; [|by eexists];
         intros _; exists m, k, v; eauto.
    + apply has_keys_spec in Es as (m & Hm & k & v & Hk). split; [|by eexists].
      intros _. exists m, k, v. eauto.
    + apply has_keys_false in Ep, Es. split; [by intros [? ?]|].
      intros (m & k & v & Hm & Hk). exfalso.
      destruct Hm as [Hm|Hm]; rewrite Hm in *;
        [destruct Ep as [|[= ->]] | destruct Es as [|[= ->]]]; try discriminate;
        by rewrite lookup_empty in Hk.
  - intros e out. unfold mapExtendedProperties.
    destruct (has_keys (epi_private e)) eqn:Ep, (has_keys (epi_shared e)) eqn:Es; simpl;
      intros [= <-]; simpl; split; intros m.
    all: try (apply has_keys_spec in Ep as (mp & Hmp & Hp); rewrite Hmp).
    all: try (apply has_keys_spec in Es as (ms & Hms & Hs); rewrite Hms).
    all: try (split; [by intros [= <-] | by intros [[= <-] _]]).
    all: split; [discriminate|]; intros [Hm (k & v & Hk)].
    all: try (apply has_keys_false in Ep as [Ep|Ep]; rewrite Ep in Hm; simplify_eq;
              by rewrite lookup_empty in Hk).
    all: apply has_keys_false in Es as [Es|Es]; rewrite Es in Hm; simplify_eq;
         by rewrite lookup_empty in Hk.
  - repeat split; intros input; unfold create_event_body, update_event_body,
      update_event_instance_body, update_body;
      rewrite applyCommonEventFields_extendedProperties; simpl;
      by destruct (cf_extendedProperties _).
Qed.

Lemma mapExtendedProperties_nonempty_only_witness :
  ep_private {| ep_private := Some {["team" := "core"]}; ep_shared := None |}
  = Some {["team" := "core"]}
  ↔ Some ({["team" := "core"]} : gmap string string) = Some {["team" := "core"]}
    ∧ ∃ k v, ({["team" := "core"]} : gmap string string) !! k = Some v.
Proof.
  apply (proj1 (proj2 mapExtendedProperties_nonempty_only)
           {| epi_private := Some {["team" := "core"]}; epi_shared := Some ∅ |}
           {| ep_private := Some {["team" := "core"]}; ep_shared := None |}).
  vm_compute. reflexivity.
Defined.

(** ** The registry wrapper and the runs of the handlers *)

Section Runs.
Context {zod : ZodLib} {rt : Runtime}.

Lemma registerTool_run {T} name description (schema : Schema T) executor args parsed s :
  schema (Some (or_empty_object args)) = inr parsed →
  registerTool name description schema executor args s
  = match executor parsed s with
    | (inr r, s') => (inr r, s')
    | (inl e, s') => (inl (ThrownMcpError (reported e)), s')
    end.
Proof.
  intros Hp. unfold registerTool, try_catch. rewrite Hp.
  destruct (executor parsed s) as [[e|r] s']; [|done]. by destruct e.
Qed.

Lemma create_event_run this cal input w log :
  calendar this = Some cal →
  create_event this input (w, log)
  = let request := Events_insert (ce_calendarId input) (create_event_body input)
                     (ce_sendUpdates input) (supportsAttachments_of (ce_common input))
                     (conferenceDataVersion_of (ce_common input)) in
    (match fst (backend request w) with
     | inr created => inr {| content := toJsonContent (JObj [("event", created)]) |}
     | inl e => inl e
     end, (snd (backend request w), log ++ [request])).
Proof.
  intros Hc. unfold create_event, ensureCalendar, bind, events_insert, call. rewrite Hc.
  simpl. by destruct (backend _ w) as [[e|created] w'].
Qed.

(** C4.  When the raw arguments fail the operation's schema, the invocation
    ends with the structured error InvalidParams whose message is the
    messages of all the issues joined by "; "; the outcome is the same
    whatever the handler is, and the world and the log of backend requests
    are left as they were. *)
Theorem registerTool_rejects_invalid {T} name description (schema : Schema T)
    (executor : T → M ToolResult) args issues s :
  schema (Some (or_empty_object args)) = inl issues →
  registerTool name description schema executor args s
  = (inl (ThrownMcpError
            {| code := InvalidParams;
               message := String.concat "; " (map issue_message issues) |}), s)
  ∧ issued (registerTool name description schema executor args s) = snd s.
Proof.
  intros Hp. unfold registerTool, try_catch, throw, issued. by rewrite Hp.
Qed.

(** C3, as amended.  A create-event invocation whose arguments validate,
    with a start that is not a bare date and no time zone, issues one insert
    request whose body has [start = {dateTime: start}] without a [timeZone]
    key, and returns under [event] the entity exactly as the backend
    answered it: a key absent from the raw entity is absent from the
    response (the normalizer [mapEvent] is not applied on this path). *)
Theorem create_event_sends_dateTime_returns_raw this cal args input w log :
  calendar this = Some cal →
  createEventInput (Some (or_empty_object args)) = inr input →
  ¬ is_YYYY_MM_DD (ce_start input) →
  ce_timeZone input = None →
  let request := Events_insert (ce_calendarId input) (create_event_body input)
                   (ce_sendUpdates input) (supportsAttachments_of (ce_common input))
                   (conferenceDataVersion_of (ce_common input)) in
  let run := tool_create_event this args (w, log) in
  ev_start (create_event_body input)
  = Some {| gd_date := None; gd_dateTime := Some (ce_start input); gd_timeZone := None |}
  ∧ issued run = log ++ [request]
  ∧ ∀ created, fst (backend request w) = inr created →
      outcome run = inr {| content := toJsonContent (JObj [("event", created)]) |}.
Proof.
  intros Hc Hv Hnd Htz request run. split; [|split].
  - change (ev_start (create_event_body input))
      with (Some (toGoogleDate (ce_start input) (ce_timeZone input))).
    rewrite Htz, toGoogleDate_dateTime; [done|].
    destruct (DATE_ONLY_REGEX_test (ce_start input)) eqn:E; [|done].
    by apply DATE_ONLY_REGEX_test_shape in E.
- unfold run, tool_create_event, issued.
    rewrite (registerTool_run _ _ _ _ _ _ _ Hv), (create_event_run _ _ _ _ _ Hc).
    cbv zeta. by destruct (fst (backend _ w)).
  - intros created Hb. unfold run, tool_create_event, outcome.
    rewrite (registerTool_run _ _ _ _ _ _ _ Hv), (create_event_run _ _ _ _ _ Hc).
    cbv zeta. fold request. by rewrite Hb.
Qed.
End Runs.

Lemma registerTool_rejects_invalid_witness :
  tool_list_events (zod := sample_zod) (rt := sample_runtime) sample_server
    (Some (JObj [("maxResults", JNum (5000 # 1))])) (0%nat, [])
  = (inl (ThrownMcpError
            {| code := InvalidParams;
               message := "Number must be less than or equal to 2500" |}), (0%nat, [])).
Proof.
  apply (registerTool_rejects_invalid (rt := sample_runtime)
           "list-events"
           "List events from a calendar with optional filtering and pagination."
           listEventsInput (list_events sample_server)
           (Some (JObj [("maxResults", JNum (5000 # 1))]))
           [{| issue_kind := TooBig "number" 2500;
               issue_message := "Number must be less than or equal to 2500" |}]
           (0%nat, [])).
  vm_compute. reflexivity.
Defined.

Lemma create_event_sends_dateTime_returns_raw_witness :
  ev_start (create_event_body standup_input)
  = Some {| gd_date := None; gd_dateTime := Some "2024-01-10T09:00:00-08:00";
            gd_timeZone := None |}
  ∧ outcome (tool_create_event (zod := sample_zod) (rt := sample_runtime) sample_server
               (Some (JObj standup_args)) (0%nat, []))
    = inr {| content := toJsonContent (JObj [("event", standup_raw)]) |}.
Proof.
  destruct (create_event_sends_dateTime_returns_raw (zod := sample_zod)
              (rt := sample_runtime) sample_server CalendarHandle
              (Some (JObj standup_args)) standup_input 0%nat [])
    as (Hstart & _ & Hout).
  - reflexivity.
  - vm_compute. reflexivity.
  - intros Hd%DATE_ONLY_REGEX_test_shape. discriminate Hd.
  - reflexivity.
  - split; [exact Hstart|]. apply Hout. reflexivity.
Defined.

(** C3, as stated, fails: the backend answers the scenario's insert with an
    entity that has no description, and the response is that entity, not its
    normalization with explicit nulls. *)
Lemma create_event_response_not_normalized :
  fst (sample_backend
         (Events_insert "primary" (create_event_body standup_input) None None None) 0)
  = inr standup_raw
  ∧ get "description" (mapEvent standup_raw) = Some JNull
  ∧ ¬ returns_normalized
        (outcome (tool_create_event (zod := sample_zod) (rt := sample_runtime)
                    sample_server (Some (JObj standup_args)) (0%nat, [])))
        standup_raw.
Proof.
  split; [reflexivity|]. split; [reflexivity|].
  unfold returns_normalized. vm_compute. intros Heq. discriminate Heq.
Qed.

(** ** Partial updates *)

Lemma keyed_nil {A} k (v : option A) : keyed k v = [] → v = None.
Proof. by destruct v. Qed.

Lemma has_keys_some_key m : has_keys m = some_key m.
Proof.
  destruct m as [m|]; simpl; [|done].
  destruct (decide (m = ∅)) as [->|Hne].
  - rewrite map_size_empty. simpl. by rewrite bool_decide_eq_false_2 by auto.
  - rewrite bool_decide_eq_true_2 by done. apply Nat.ltb_lt.
    apply map_size_non_empty_iff in Hne. lia.
Qed.

Lemma mapExtendedProperties_Some e :
  is_Some (mapExtendedProperties (Some e)) ↔ extendedProperties_content e = true.
Proof.
  unfold mapExtendedProperties, extendedProperties_content.
  rewrite <- !has_keys_some_key.
  destruct (has_keys (epi_private e)), (has_keys (epi_shared e)); simpl;
    split; try done; try (by eexists); by intros [? ?].
Qed.

Lemma update_body_keys summary start end_ timeZone c :
  event_body_keys (update_body summary start end_ timeZone c)
  = List.filter (carried c) (update_supplied summary start end_ c).
Proof.
  destruct c as [de lo co re tr vi atd rm cd ex g1 g2 g3 g4 atc so].
  unfold event_body_keys, update_supplied, update_body, applyCommonEventFields,
    set_if_defined, carried.
  cbn [ev_summary ev_start ev_end ev_id ev_description ev_location ev_colorId
       ev_recurrence ev_transparency ev_visibility ev_attendees ev_reminders
       ev_conferenceData ev_extendedProperties ev_guestsCanInviteOthers
       ev_guestsCanModify ev_guestsCanSeeOtherGuests ev_anyoneCanAddSelf
       ev_attachments ev_source cf_description cf_location cf_colorId cf_recurrence
       cf_transparency cf_visibility cf_attendees cf_reminders cf_conferenceData
       cf_extendedProperties cf_guestsCanInviteOthers cf_guestsCanModify
       cf_guestsCanSeeOtherGuests cf_anyoneCanAddSelf cf_attachments cf_source].
  rewrite !List.filter_app.
  repeat match goal with |- _ ++ _ = _ ++ _ => f_equal end.
  all: try match goal with
           | |- keyed _ ?x = List.filter _ (keyed _ ?y) =>
               try (is_var y; destruct y); reflexivity
           end.
  - destruct rm as [r|]; [|reflexivity].
    rewrite mapReminders_Some. cbn. by destruct (reminders_content r).
  - destruct ex as [e|]; [|reflexivity].
    pose proof (mapExtendedProperties_Some e) as He.
    destruct (mapExtendedProperties (Some e)), (extendedProperties_content e);
      cbn; try reflexivity.
    + assert (false = true) as Hf by (apply He; by eexists). discriminate Hf.
    + destruct (proj2 He eq_refl) as [x Hx]. discriminate Hx.
Qed.

Lemma update_body_empty summary start end_ timeZone c :
  update_supplied summary start end_ c = [] →
  update_body summary start end_ timeZone c = empty_event.
Proof.
  destruct c as [de lo co re tr vi atd rm cd ex g1 g2 g3 g4 atc so].
  unfold update_supplied. simpl. intros Hk.
  repeat match goal with
         | H : _ ++ _ = [] |- _ => apply app_eq_nil in H as [?%keyed_nil H]
         end.
  apply keyed_nil in Hk. by subst.
Qed.

Section Updates.
Context {zod : ZodLib} {rt : Runtime}.

Lemma update_event_run this cal input w log :
  calendar this = Some cal →
  update_event this input (w, log)
  = let request := Events_patch (ue_calendarId input) (ue_eventId input)
                     (update_event_body input) (ue_sendUpdates input)
                     (supportsAttachments_of (ue_common input))
                     (conferenceDataVersion_of (ue_common input)) in
    (match fst (backend request w) with
     | inr updated => inr {| content := toJsonContent (JObj [("event", updated)]) |}
     | inl e => inl e
     end, (snd (backend request w), log ++ [request])).
Proof.
  intros Hc. unfold update_event, ensureCalendar, bind, events_patch, call. rewrite Hc.
  simpl. by destruct (backend _ w) as [[e|updated] w'].
Qed.

Lemma update_event_instance_run this cal input w log :
  calendar this = Some cal →
  update_event_instance this input (w, log)
  = let request := Events_patch (ui_calendarId input) (ui_instanceId input)
                     (update_event_instance_body input) (ui_sendUpdates input)
                     (supportsAttachments_of (ui_common input))
                     (conferenceDataVersion_of (ui_common input)) in
    (match fst (backend request w) with
     | inr updated => inr {| content := toJsonContent (JObj [("event", updated)]) |}
     | inl e => inl e
     end, (snd (backend request w), log ++ [request])).
Proof.
  intros Hc. unfold update_event_instance, ensureCalendar, bind, events_patch, call.
  rewrite Hc. simpl. by destruct (backend _ w) as [[e|updated] w'].
Qed.

Lemma update_task_run this t input w log :
  tasks this = Some t →
  update_task this input (w, log)
  = let request := Tasks_patch (ut_tasklistId input) (ut_taskId input)
                     (update_task_body input (stamp input w)) in
    (match fst (backend request w) with
     | inr updated => inr {| content := toJsonContent (JObj [("task", updated)]) |}
     | inl e => inl e
     end, (snd (backend request w), log ++ [request])).
Proof.
  intros Ht. unfold update_task, ensureTasks, bind, tasks_patch, call, stamp, now_iso, ret.
  rewrite Ht. simpl.
  destruct (ut_status input) as [[|]|]; simpl;
    by destruct (backend _ w) as [[e|updated] w'].
Qed.

Lemma complete_task_run this t input w log :
  tasks this = Some t →
  complete_task this input (w, log)
  = let request := Tasks_patch (ct_tasklistId input) (ct_taskId input)
                     {| tk_title := None; tk_notes := None; tk_due := None;
                        tk_status := Some Completed;
                        tk_completed := Some (clock w) |} in
    (match fst (backend request w) with
     | inr updated => inr {| content := toJsonContent (JObj [("task", updated)]) |}
     | inl e => inl e
     end, (snd (backend request w), log ++ [request])).
Proof.
  intros Ht. unfold complete_task, ensureTasks, bind, tasks_patch, call, now_iso.
  rewrite Ht. simpl. by destruct (backend _ w) as [[e|updated] w'].
Qed.

(** C2, as amended.  The body that update-event and update-event-instance
    send has exactly the keys of the mutable fields the caller supplied,
    less [reminders] and [extendedProperties] when the supplied value has no
    content; the body that update-task sends has exactly the supplied keys,
    plus [completed] when the supplied status is completed.  An invocation
    that supplies no optional field sends the empty body.  These bodies are
    the ones in the patch request each handler issues. *)
Theorem update_bodies_explicit_only :
  (∀ input : UpdateEventInput,
     event_body_keys (update_event_body input)
     = List.filter (carried (ue_common input)) (update_event_supplied input)
     ∧ (update_event_supplied input = [] → update_event_body input = empty_event)
     ∧ ∀ this cal w log, calendar this = Some cal →
         issued (update_event this input (w, log))
         = log ++ [Events_patch (ue_calendarId input) (ue_eventId input)
                     (update_event_body input) (ue_sendUpdates input)
                     (supportsAttachments_of (ue_common input))
                     (conferenceDataVersion_of (ue_common input))]) ∧
  (∀ input : UpdateEventInstanceInput,
     event_body_keys (update_event_instance_body input)
     = List.filter (carried (ui_common input)) (update_event_instance_supplied input)
     ∧ (update_event_instance_supplied input = [] →
        update_event_instance_body input = empty_event)
     ∧ ∀ this cal w log, calendar this = Some cal →
         issued (update_event_instance this input (w, log))
         = log ++ [Events_patch (ui_calendarId input) (ui_instanceId input)
                     (update_event_instance_body input) (ui_sendUpdates input)
                     (supportsAttachments_of (ui_common input))
                     (conferenceDataVersion_of (ui_common input))]) ∧
  (∀ (input : UpdateTaskInput) (w : World),
     task_body_keys (update_task_body input (stamp input w))
     = update_task_supplied input
       ++ match ut_status input with Some Completed => ["completed"] | _ => [] end
     ∧ (update_task_supplied input = [] →
        update_task_body input (stamp input w) = empty_task)
     ∧ ∀ this t log, tasks this = Some t →
         issued (update_task this input (w, log))
         = log ++ [Tasks_patch (ut_tasklistId input) (ut_taskId input)
                     (update_task_body input (stamp input w))]).
Proof.
  split; [|split].
  - intros input. split; [apply update_body_keys|]. split; [apply update_body_empty|].
    intros this cal w log Hc. by rewrite (update_event_run _ _ _ _ _ Hc).
  - intros input. split; [apply update_body_keys|]. split; [apply update_body_empty|].
    intros this cal w log Hc. by rewrite (update_event_instance_run _ _ _ _ _ Hc).
  - intros input w. split; [|split].
    + unfold stamp. by destruct input as [tl tk [?|] [?|] [?|] [[|]|]].
    + unfold stamp. by destruct input as [tl tk [?|] [?|] [?|] [[|]|]].
    + intros this t log Ht. by rewrite (update_task_run _ _ _ _ _ Ht).
Qed.
End Updates.

Lemma update_bodies_explicit_only_witness :
  update_event_body bare_update = empty_event.
Proof.
  apply (proj1 (proj2 (proj1 (update_bodies_explicit_only (rt := sample_runtime))
                         bare_update))).
  reflexivity.
Defined.

(** C2, as stated, fails in both directions: update-task with status
    completed sends [completed], a field the caller did not (and cannot)
    supply; update-event with a reminders object that says nothing sends no
    [reminders], a field the caller did supply. *)
Lemma update_bodies_not_exactly_supplied :
  updateTaskInput (zod := sample_zod)
    (Some (JObj [("taskId", JStr "t1"); ("status", JStr "completed")])) = inr complete_t1
  ∧ ¬ task_keys_are_supplied (rt := sample_runtime) complete_t1 0%nat
  ∧ updateEventInput (zod := sample_zod)
      (Some (JObj [("eventId", JStr "evt1"); ("reminders", JObj [])])) = inr silent_reminders
  ∧ ¬ event_keys_are_supplied silent_reminders.
Proof.
  split; [vm_compute; reflexivity|]. split; [|split; [vm_compute; reflexivity|]].
  - unfold task_keys_are_supplied. vm_compute. intros Heq. discriminate Heq.
  - unfold event_keys_are_supplied. vm_compute. intros Heq. discriminate Heq.
Qed.

(** ** Tasks *)

Section Tasks.
Context {zod : ZodLib} {rt : Runtime}.

(** C8.  Whatever raw arguments validate for complete-task, the patch body
    is exactly [{status: "completed", completed: now}] with [now] the
    reading of the clock at the call; whatever raw arguments validate for
    update-task with status completed, the patch body has status completed
    and [completed = now].  The stamp is a function of the clock alone, so
    no argument of the caller can set it. *)
Theorem completed_is_stamped_now :
  (∀ this t args input w log,
     tasks this = Some t →
     completeTaskInput (Some (or_empty_object args)) = inr input →
     issued (tool_complete_task this args (w, log))
     = log ++ [Tasks_patch (ct_tasklistId input) (ct_taskId input)
                 {| tk_title := None; tk_notes := None; tk_due := None;
                    tk_status := Some Completed;
                    tk_completed := Some (clock w) |}]) ∧
  (∀ this t args input w log,
     tasks this = Some t →
     updateTaskInput (Some (or_empty_object args)) = inr input →
     ut_status input = Some Completed →
     issued (tool_update_task this args (w, log))
     = log ++ [Tasks_patch (ut_tasklistId input) (ut_taskId input)
                 {| tk_title := ut_title input; tk_notes := ut_notes input;
                    tk_due := ut_due input; tk_status := Some Completed;
                    tk_completed := Some (clock w) |}]).
Proof.
  split.
  - intros this t args input w log Ht Hv. unfold tool_complete_task, issued.
    rewrite (registerTool_run _ _ _ _ _ _ _ Hv), (complete_task_run _ _ _ _ _ Ht).
    cbv zeta. by destruct (fst (backend _ w)).
  - intros this t args input w log Ht Hv Hs. unfold tool_update_task, issued.
    rewrite (registerTool_run _ _ _ _ _ _ _ Hv), (update_task_run _ _ _ _ _ Ht).
    cbv zeta. unfold update_task_body, stamp. rewrite Hs.
    by destruct (fst (backend _ w)).
Qed.

Lemma list_tasklists_run this t w log :
  tasks this = Some t →
  list_tasklists this tt (w, log)
  = let request := Tasklists_list (Some 100%Z) in
    (match fst (backend request w) with
     | inr data =>
         inr {| content := toJsonContent
                  (JObj [("tasklists",
                          JArr (map tasklist_entry (or_empty (get "items" data))));
                         ("nextPageToken", or_null (get "nextPageToken" data))]) |}
     | inl e => inl e
     end, (snd (backend request w), log ++ [request])).
Proof.
  intros Ht. unfold list_tasklists, ensureTasks, bind, tasklists_list, call.
  rewrite Ht. simpl. by destruct (backend _ w) as [[e|data] w'].
Qed.

(** C10.  Whatever record of arguments is passed, list-tasklists issues the
    one request [tasklists.list({maxResults: 100})]; the response lists one
    entry per item of the backend's page, so at most 100 when the backend
    keeps to the page size it was asked for, and surfaces the backend's
    [nextPageToken], as an explicit null when the backend sent none. *)
Theorem list_tasklists_fixed_page this t args fields w log :
  tasks this = Some t →
  or_empty_object args = JObj fields →
  let run := tool_list_tasklists this args (w, log) in
  issued run = log ++ [Tasklists_list (Some 100%Z)]
  ∧ ∀ data, fst (backend (Tasklists_list (Some 100%Z)) w) = inr data →
      ∃ tasklists,
        outcome run
        = inr {| content := toJsonContent
                   (JObj [("tasklists", JArr tasklists);
                          ("nextPageToken", or_null (get "nextPageToken" data))]) |}
        ∧ length tasklists = length (or_empty (get "items" data))
        ∧ ((length (or_empty (get "items" data)) ≤ 100)%nat →
           (length tasklists ≤ 100)%nat)
        ∧ (get "nextPageToken" data = None →
           or_null (get "nextPageToken" data) = JNull).
Proof.
  intros Ht Hargs run.
  assert (emptyInput (Some (or_empty_object args)) = inr tt) as Hv
    by by rewrite Hargs.
  unfold run, tool_list_tasklists, issued, outcome.
  rewrite (registerTool_run _ _ _ _ _ _ _ Hv), (list_tasklists_run _ _ _ _ Ht).
  cbv zeta. split; [by destruct (fst (backend _ w))|].
  intros data Hd. rewrite Hd. eexists. split; [reflexivity|].
  rewrite length_map. split; [done|]. split; [done|]. by intros ->.
Qed.
End Tasks.

(** ** Search across calendars *)

Section Search.
Context {zod : ZodLib} {rt : Runtime}.

Lemma search_loop_outcome cal input ids : ∀ results w log,
  fst (search_loop cal input ids results (w, log))
  = match first_rejection input ids w with
    | None => inr (results ++ answered input ids w)
    | Some e => inl e
    end.
Proof.
  induction ids as [|calendarId rest IH]; intros results w log; simpl.
  - by rewrite app_nil_r.
  - unfold bind, events_list, call, search_request. simpl.
    destruct (backend (Events_list (search_params input calendarId)) w)
      as [[e|data] w']; [done|].
    rewrite IH. destruct (first_rejection input rest w'); [done|].
    by rewrite <- app_assoc.
Qed.

Lemma search_loop_issued cal input ids : ∀ results w log,
  snd (snd (search_loop cal input ids results (w, log)))
  = log ++ map (search_request input) (take (served input ids w) ids).
Proof.
  unfold served.
  induction ids as [|calendarId rest IH]; intros results w log; simpl.
  - by rewrite app_nil_r.
  - unfold bind, events_list, call, search_request. simpl.
    destruct (backend (Events_list (search_params input calendarId)) w)
      as [[e|data] w']; simpl.
    + done.
    + rewrite IH, <- app_assoc. unfold search_request.
      by destruct (first_rejection input rest w').
Qed.

Lemma answered_ids input ids : ∀ w,
  first_rejection input ids w = None →
  map sr_calendarId (answered input ids w) = ids.
Proof.
  induction ids as [|calendarId rest IH]; intros w; simpl; [done|].
  destruct (backend (search_request input calendarId) w) as [[e|data] w'];
    [discriminate|].
  intros Hr. simpl. by rewrite IH.
Qed.

Lemma answered_length input ids : ∀ w,
  (length (answered input ids w) ≤ length ids)%nat ∧
  (is_Some (first_rejection input ids w) →
   (length (answered input ids w) < length ids)%nat).
Proof.
  induction ids as [|calendarId rest IH]; intros w; simpl.
  - split; [lia|]. by intros [? ?].
  - destruct (backend (search_request input calendarId) w) as [[e|data] w']; simpl.
    + split; [lia|]. lia.
    + destruct (IH w') as [Hle Hlt]. split; [lia|]. intros Hs. specialize (Hlt Hs). lia.
Qed.

Lemma fold_left_total entries : ∀ acc,
  fold_left (λ sum entry, (sum + Z.of_nat (length (sr_events entry)))%Z) entries acc
  = (acc + total_events entries)%Z.
Proof.
  unfold total_events.
  induction entries as [|entry rest IH]; intros acc; simpl; [lia|].
  rewrite IH, length_app. lia.
Qed.

Lemma search_events_run this cal input w log :
  calendar this = Some cal →
  outcome (search_events this input (w, log))
  = match first_rejection input (se_calendarIds input) w with
    | None =>
        let entries := answered input (se_calendarIds input) w in
        inr {| content := toJsonContent
                 (JObj [("query", JStr (se_query input));
                        ("totalEvents", JNum (inject_Z (total_events entries)));
                        ("calendars", JArr (map entry_json entries))]) |}
    | Some e => inl e
    end
  ∧ issued (search_events this input (w, log))
    = log ++ map (search_request input)
               (take (served input (se_calendarIds input) w) (se_calendarIds input)).
Proof.
  intros Hc. unfold search_events, ensureCalendar, outcome, issued. rewrite Hc.
  unfold bind, ret. simpl.
  pose proof (search_loop_outcome cal input (se_calendarIds input) [] w log) as Ho.
  pose proof (search_loop_issued cal input (se_calendarIds input) [] w log) as Hi.
  destruct (search_loop cal input (se_calendarIds input) [] (w, log))
    as [[e|results] [w' log']]. 
  - simpl in *. split; [|done].
    destruct (first_rejection input (se_calendarIds input) w); congruence.
  - simpl in *. split; [|done].
    destruct (first_rejection input (se_calendarIds input) w); [congruence|].
    injection Ho as ->. by rewrite fold_left_total.
Qed.

(** C5.  A search-events invocation issues its list requests one calendar
    identifier at a time, in input order.  When no request is rejected,
    there is exactly one request per identifier and the result has one
    entry per identifier in the same order.  When a request is rejected,
    no further request is issued and the invocation ends with a structured
    error and no result at all; the error is InternalError when the
    rejection is a backend failure. *)
Theorem search_events_sequential_all_or_nothing this cal args input w log :
  calendar this = Some cal →
  searchEventsInput (Some (or_empty_object args)) = inr input →
  let ids := se_calendarIds input in
  let run := tool_search_events this args (w, log) in
  match first_rejection input ids w with
  | None =>
      issued run = log ++ map (search_request input) ids
      ∧ map sr_calendarId (answered input ids w) = ids
      ∧ outcome run
        = inr {| content := toJsonContent
                   (JObj [("query", JStr (se_query input));
                          ("totalEvents",
                           JNum (inject_Z (total_events (answered input ids w))));
                          ("calendars", JArr (map entry_json (answered input ids w)))]) |}
  | Some e =>
      (∃ n, (n < length ids)%nat
            ∧ issued run = log ++ map (search_request input) (take (S n) ids))
      ∧ outcome run = inl (ThrownMcpError (reported e))
      ∧ (backend_failure e → code (reported e) = InternalError)
  end.
Proof.
  intros Hc Hv ids run.
  destruct (search_events_run this cal input w log Hc) as [Ho Hi].
  pose proof (answered_ids input ids w) as Hids.
  pose proof (answered_length input ids w) as [_ Hlt].
  unfold run, tool_search_events, issued, outcome in *.
  rewrite (registerTool_run _ _ _ _ _ _ _ Hv).
  destruct (search_events this input (w, log)) as [[e'|r] [w' log']]; simpl in *;
    unfold served in Hi; fold ids in Ho, Hi;
    destruct (first_rejection input ids w) as [e|]; try discriminate.
  - injection Ho as ->. split; [|split; [done|]].
    + exists (length (answered input ids w)). split; [|done]. apply Hlt. by eexists.
    + by destruct e.
  - injection Ho as ->. rewrite firstn_all in Hi. by rewrite Hids.
Qed.
End Search.

(** ** The event identifier of create-event *)

Section EventId.
Context {zod : ZodLib} {rt : Runtime}.

Lemma key_other {A} (o : list (string * json)) k' v k (schema : Schema A) :
  String.eqb k k' = false → key ((k', v) :: o) k schema = key o k schema.
Proof. intros Hk. unfold key. simpl. by rewrite Hk. Qed.

Lemma commonEventFieldsShape_eventId o v :
  commonEventFieldsShape (("eventId", v) :: o) = commonEventFieldsShape o.
Proof. reflexivity. Qed.

Lemma createEventInput_empty_eventId o input :
  createEventInput (Some (JObj o)) = inr input →
  createEventInput (Some (JObj (("eventId", JStr "") :: o)))
  = inr (with_eventId input (Some "")).
Proof.
  unfold createEventInput, z_object.
  change (key (("eventId", JStr "") :: o) "eventId" (z_optional (z_string [])))
    with (@inr (list ZodIssue) _ (Some "")).
  rewrite commonEventFieldsShape_eventId, !key_other by reflexivity.
  destruct (key o "calendarId" _) as [?|?], (key o "summary" _) as [?|?],
    (key o "start" _) as [?|?], (key o "end" _) as [?|?],
    (key o "timeZone" _) as [?|?], (key o "eventId" _) as [?|?],
    (key o "sendUpdates" _) as [?|?], (commonEventFieldsShape o) as [?|?];
    simpl; intros Hv; try discriminate Hv.
  by injection Hv as <-.
Qed.

(** The validated [eventId] is the string supplied under that key, and is
    absent when the key is. *)
Lemma createEventInput_eventId o input :
  createEventInput (Some (JObj o)) = inr input →
  ∀ id, ce_eventId input = Some id ↔ obj_get "eventId" o = Some (JStr id).
Proof.
  unfold createEventInput, z_object.
  destruct (key o "calendarId" _) as [?|?], (key o "summary" _) as [?|?],
    (key o "start" _) as [?|?], (key o "end" _) as [?|?],
    (key o "timeZone" _) as [?|?],
    (key o "eventId" (z_optional (z_string []))) as [?|eid] eqn:Ek,
    (key o "sendUpdates" _) as [?|?], (commonEventFieldsShape o) as [?|?];
    simpl; intros Hv; try discriminate Hv.
  injection Hv as <-. simpl. intros id.
  unfold key, z_optional, z_string in Ek.
  destruct (obj_get "eventId" o) as [[| | |text| |]|]; simpl in Ek;
    try discriminate Ek; injection Ek as <-.
  - split; congruence.
  - split; discriminate.
Qed.

(** C9.  The insert request of create-event goes out with the body built
    from the validated arguments, and that body carries [id] exactly when
    the arguments supply a non-empty string as [eventId]: the supplied
    identifier is then the [id] sent.  An empty-string [eventId] passes the
    schema (arguments that validate still validate with [eventId: ""]),
    and the insert request then goes out without [id]. *)
Theorem create_event_id_iff_nonempty :
  (∀ input id,
     ev_id (create_event_body input) = Some id ↔ ce_eventId input = Some id ∧ id ≠ "") ∧
  (∀ o input this cal w log,
     createEventInput (Some (JObj o)) = inr input →
     calendar this = Some cal →
     let dropped := with_eventId input (Some "") in
     createEventInput (Some (JObj (("eventId", JStr "") :: o))) = inr dropped
     ∧ ev_id (create_event_body dropped) = None
     ∧ issued (tool_create_event this (Some (JObj (("eventId", JStr "") :: o))) (w, log))
       = log ++ [Events_insert (ce_calendarId input) (create_event_body dropped)
                   (ce_sendUpdates input) (supportsAttachments_of (ce_common input))
                   (conferenceDataVersion_of (ce_common input))]) ∧
  (∀ o input this cal w log,
     createEventInput (Some (JObj o)) = inr input →
     calendar this = Some cal →
     issued (tool_create_event this (Some (JObj o)) (w, log))
     = log ++ [Events_insert (ce_calendarId input) (create_event_body input)
                 (ce_sendUpdates input) (supportsAttachments_of (ce_common input))
                 (conferenceDataVersion_of (ce_common input))]
     ∧ (∀ id, ev_id (create_event_body input) = Some id
              ↔ obj_get "eventId" o = Some (JStr id) ∧ id ≠ "")).
Proof.
  assert (∀ input id,
            ev_id (create_event_body input) = Some id
            ↔ ce_eventId input = Some id ∧ id ≠ "") as Hbody.
  { intros input id. unfold create_event_body. simpl.
    destruct (truthy_string (ce_eventId input)) eqn:Et.
    + apply truthy_string_spec in Et as (tz & Hid & Hne). rewrite Hid. split.
      * by intros [= <-].
      * by intros [[= <-] _].
    + split; [discriminate|]. intros [Hid Hne].
      assert (truthy_string (ce_eventId input) = true)
        by (apply truthy_string_spec; eauto).
      congruence. }
  split; [exact Hbody|split].
  - intros o input this cal w log Hv Hc dropped.
    pose proof (createEventInput_empty_eventId o input Hv) as Hd.
    split; [done|]. split; [done|].
    unfold tool_create_event, issued.
    rewrite (registerTool_run _ _ _ _ (Some (JObj _)) _ _ Hd),
      (create_event_run _ _ _ _ _ Hc).
    cbv zeta. by destruct (fst (backend _ w)).
  - intros o input this cal w log Hv Hc. split.
    + unfold tool_create_event, issued.
      rewrite (registerTool_run _ _ _ _ (Some (JObj _)) _ _ Hv),
        (create_event_run _ _ _ _ _ Hc).
      cbv zeta. by destruct (fst (backend _ w)).
    + intros id. rewrite Hbody, (createEventInput_eventId o input Hv id). done.
Qed.
End EventId.

Lemma create_event_id_iff_nonempty_witness :
  (createEventInput (zod := sample_zod) (Some (JObj (("eventId", JStr "") :: standup_args)))
   = inr (with_eventId standup_input (Some ""))
   ∧ ev_id (create_event_body (with_eventId standup_input (Some ""))) = None)
  ∧ issued (tool_create_event (zod := sample_zod) (rt := sample_runtime) sample_server
              (Some (JObj (("eventId", JStr "evt-7") :: standup_args))) (0%nat, []))
    = [Events_insert "primary"
         (create_event_body (with_eventId standup_input (Some "evt-7"))) None None None]
  ∧ ev_id (create_event_body (with_eventId standup_input (Some "evt-7"))) = Some "evt-7".
Proof.
  split; [|split].
  - destruct (proj1 (proj2 (create_event_id_iff_nonempty (zod := sample_zod)
                              (rt := sample_runtime)))
                standup_args standup_input sample_server CalendarHandle 0%nat [])
      as (Hv & Hid & _).
    + vm_compute. reflexivity.
    + reflexivity.
    + split; [exact Hv | exact Hid].
  - refine (proj1 (proj2 (proj2 (create_event_id_iff_nonempty (zod := sample_zod)
                                   (rt := sample_runtime)))
                     (("eventId", JStr "evt-7") :: standup_args)
                     (with_eventId standup_input (Some "evt-7"))
                     sample_server CalendarHandle 0%nat [] _ eq_refl)).
    vm_compute. reflexivity.
  - apply (proj2 (proj2 (proj2 (create_event_id_iff_nonempty (zod := sample_zod)
                                  (rt := sample_runtime)))
                    (("eventId", JStr "evt-7") :: standup_args)
                    (with_eventId standup_input (Some "evt-7"))
                    sample_server CalendarHandle 0%nat []
                    ltac:(vm_compute; reflexivity) eq_refl) "evt-7").
    split; [reflexivity | discriminate].
Defined.

Lemma search_events_sequential_all_or_nothing_witness :
  issued (tool_search_events (zod := sample_zod) (rt := sample_runtime) sample_server
            (Some (JObj [("calendarIds", JArr [JStr "a"; JStr "b"]);
                         ("query", JStr "standup")])) (0%nat, []))
  = [search_request search_a_b "a"; search_request search_a_b "b"]
  ∧ outcome (tool_search_events (zod := sample_zod) (rt := sample_runtime) sample_server
               (Some (JObj [("calendarIds", JArr [JStr "a"; JStr "b"]);
                            ("query", JStr "standup")])) (0%nat, []))
    = inl (ThrownMcpError {| code := InternalError; message := "Not Found" |}).
Proof.
  pose proof (search_events_sequential_all_or_nothing (zod := sample_zod)
                (rt := sample_runtime) sample_server CalendarHandle
                (Some (JObj [("calendarIds", JArr [JStr "a"; JStr "b"]);
                             ("query", JStr "standup")]))
                search_a_b 0%nat [] eq_refl) as H.
  specialize (H ltac:(vm_compute; reflexivity)).
  split; [vm_compute; reflexivity|]. exact (proj1 (proj2 H)).
Defined.

Lemma completed_is_stamped_now_witness :
  issued (tool_complete_task (zod := sample_zod) (rt := sample_runtime) sample_server
            (Some (JObj [("taskId", JStr "t1");
                         ("completed", JStr "1999-12-31T00:00:00.000Z")])) (0%nat, []))
  = [Tasks_patch "@default" "t1"
       {| tk_title := None; tk_notes := None; tk_due := None;
          tk_status := Some Completed;
          tk_completed := Some "2024-01-10T17:00:00.000Z" |}].
Proof.
  apply (proj1 (completed_is_stamped_now (zod := sample_zod) (rt := sample_runtime))
           sample_server TasksHandle
           (Some (JObj [("taskId", JStr "t1");
                        ("completed", JStr "1999-12-31T00:00:00.000Z")]))
           {| ct_tasklistId := "@default"; ct_taskId := "t1" |} 0%nat []).
  - reflexivity.
  - vm_compute. reflexivity.
Defined.

Lemma list_tasklists_fixed_page_witness :
  issued (tool_list_tasklists (zod := sample_zod) (rt := sample_runtime) sample_server
            (Some (JObj [("maxResults", JNum (5 # 1))])) (0%nat, []))
  = [Tasklists_list (Some 100%Z)].
Proof.
  apply (list_tasklists_fixed_page (zod := sample_zod) (rt := sample_runtime)
           sample_server TasksHandle (Some (JObj [("maxResults", JNum (5 # 1))]))
           [("maxResults", JNum (5 # 1))] 0%nat []).
  - reflexivity.
  - reflexivity.
Defined.

(** * Further properties of the server *)

(** ** Validated inputs *)

Lemma ap_V_inr {A B} (f : V (A → B)) (x : V A) (b : B) :
  f <*> x = inr b → ∃ g a, f = inr g ∧ x = inr a ∧ b = g a.
Proof. destruct f, x; simpl; try discriminate. intros [= <-]. eauto. Qed.

Ltac invert_shape H :=
  repeat (let g := fresh "g" in let a := fresh "a" in
          apply ap_V_inr in H as (g & a & H & ? & ?));
  injection H as <-; subst.

Section ValidatedInputs.
Context {zod : ZodLib}.

Lemma z_default_string_absent o k d x :
  obj_get k o = None → key o k (z_default (z_string []) (JStr d)) = inr x → x = d.
Proof. unfold key. intros ->. simpl. by intros [= <-]. Qed.

Lemma z_default_string_present o k d c x :
  obj_get k o = Some (JStr c) → key o k (z_default (z_string []) (JStr d)) = inr x → x = c.
Proof. unfold key. intros ->. simpl. by intros [= <-]. Qed.

Lemma Qle_bool_lower (n : Z) q :
  is_integer q = true → Qle_bool (inject_Z n) q = true → (n ≤ to_Z q)%Z.
Proof.
  unfold is_integer, to_Z. destruct q as [a d]. simpl.
  intros Hm%Z.eqb_eq Hle%Qle_bool_iff. unfold Qle in Hle. simpl in Hle.
  apply Z.div_le_lower_bound; lia.
Qed.

Lemma Qle_bool_upper (n : Z) q :
  is_integer q = true → Qle_bool q (inject_Z n) = true → (to_Z q ≤ n)%Z.
Proof.
  unfold is_integer, to_Z. destruct q as [a d]. simpl.
  intros Hm%Z.eqb_eq Hle%Qle_bool_iff. unfold Qle in Hle. simpl in Hle.
  apply Z.div_le_upper_bound; lia.
Qed.

Lemma z_int_range lo hi v n :
  z_int [Min lo; Max hi] v = inr n → (lo ≤ n ≤ hi)%Z.
Proof.
  unfold z_int. destruct v as [[| |q| | |]|]; try discriminate.
  unfold int_issue. simpl.
  destruct (is_integer q) eqn:Hi, (Qle_bool (inject_Z lo) q) eqn:Hlo,
    (Qle_bool q (inject_Z hi)) eqn:Hhi; simpl; try discriminate.
  intros [= <-]. split; [by apply Qle_bool_lower | by apply Qle_bool_upper].
Qed.

Lemma z_int_min lo v n : z_int [Min lo] v = inr n → (lo ≤ n)%Z.
Proof.
  unfold z_int. destruct v as [[| |q| | |]|]; try discriminate.
  unfold int_issue. simpl.
  destruct (is_integer q) eqn:Hi, (Qle_bool (inject_Z lo) q) eqn:Hlo; simpl;
    try discriminate.
  intros [= <-]. by apply Qle_bool_lower.
Qed.

Lemma z_optional_Some {A} (inner : Schema A) v a :
  z_optional inner v = inr (Some a) → inner v = inr a.
Proof.
  unfold z_optional. destruct v; [|discriminate].
  destruct (inner (Some j)); simpl; [discriminate|]. by intros [= ->].
Qed.
End ValidatedInputs.

Section Defaults.
Context {zod : ZodLib}.

Lemma z_default_string_value o k d x :
  key o k (z_default (z_string []) (JStr d)) = inr x →
  x = match obj_get k o with Some (JStr c) => c | _ => d end.
Proof.
  unfold key. destruct (obj_get k o) as [[| | |c| |]|]; simpl; try discriminate;
    by intros [= <-].
Qed.

Ltac default_id Hv :=
  unfold z_object in Hv; invert_shape Hv; simpl;
  eauto using z_default_string_value.

(** X1.  In every operation that takes [calendarId], the validated
    identifier is the supplied string, and ["primary"] when the key is
    missing; likewise [tasklistId] and ["@default"]. *)
Theorem default_identifiers (o : list (string * json)) :
  let calendarId := match obj_get "calendarId" o with Some (JStr c) => c | _ => "primary" end in
  let tasklistId := match obj_get "tasklistId" o with Some (JStr c) => c | _ => "@default" end in
  (∀ input, listEventsInput (Some (JObj o)) = inr input → le_calendarId input = calendarId) ∧
  (∀ input, createEventInput (Some (JObj o)) = inr input → ce_calendarId input = calendarId) ∧
  (∀ input, updateEventInput (Some (JObj o)) = inr input → ue_calendarId input = calendarId) ∧
  (∀ input, updateEventInstanceInput (Some (JObj o)) = inr input →
     ui_calendarId input = calendarId) ∧
  (∀ input, listEventInstancesInput (Some (JObj o)) = inr input →
     li_calendarId input = calendarId) ∧
  (∀ input, deleteEventInput (Some (JObj o)) = inr input → de_calendarId input = calendarId) ∧
  (∀ input, deleteEventInstanceInput (Some (JObj o)) = inr input →
     di_calendarId input = calendarId) ∧
  (∀ input, listTasksInput (Some (JObj o)) = inr input → lt_tasklistId input = tasklistId) ∧
  (∀ input, createTaskInput (Some (JObj o)) = inr input → nt_tasklistId input = tasklistId) ∧
  (∀ input, updateTaskInput (Some (JObj o)) = inr input → ut_tasklistId input = tasklistId) ∧
  (∀ input, completeTaskInput (Some (JObj o)) = inr input → ct_tasklistId input = tasklistId) ∧
  (∀ input, deleteTaskInput (Some (JObj o)) = inr input → dt_tasklistId input = tasklistId).
Proof.
  cbv zeta. repeat split; intros input Hv.
  - unfold listEventsInput in Hv. default_id Hv.
  - unfold createEventInput in Hv. default_id Hv.
  - unfold updateEventInput in Hv. default_id Hv.
  - unfold updateEventInstanceInput in Hv. default_id Hv.
  - unfold listEventInstancesInput in Hv. default_id Hv.
  - unfold deleteEventInput in Hv. default_id Hv.
  - unfold deleteEventInstanceInput in Hv. default_id Hv.
  - unfold listTasksInput in Hv. default_id Hv.
  - unfold createTaskInput in Hv. default_id Hv.
  - unfold updateTaskInput in Hv. default_id Hv.
  - unfold completeTaskInput in Hv. default_id Hv.
  - unfold deleteTaskInput in Hv. default_id Hv.
Qed.

(** X2.  A validated page size lies within the bounds of its schema: 1 to
    2500 for list-events, search-events and list-event-instances, 1 to 100
    for list-tasks. *)
Theorem page_size_bounds :
  (∀ v input n, listEventsInput v = inr input → le_maxResults input = Some n →
     (1 ≤ n ≤ 2500)%Z) ∧
  (∀ v input n, searchEventsInput v = inr input → se_maxResultsPerCalendar input = Some n →
     (1 ≤ n ≤ 2500)%Z) ∧
  (∀ v input n, listEventInstancesInput v = inr input → li_maxResults input = Some n →
     (1 ≤ n ≤ 2500)%Z) ∧
  (∀ v input n, listTasksInput v = inr input → lt_maxResults input = Some n →
     (1 ≤ n ≤ 100)%Z).
Proof.
  split; [|split; [|split]]; intros v input n Hv Hn.
  all: unfold listEventsInput, searchEventsInput, listEventInstancesInput, listTasksInput,
         z_object in Hv;
       destruct v as [[| | | | |o]|]; try discriminate Hv;
       invert_shape Hv; simpl in Hn; subst;
       match goal with
       | H : key _ _ (z_optional (z_int _)) = inr (Some _) |- _ =>
           apply z_optional_Some, z_int_range in H; lia
       end.
Qed.
End Defaults.

Section Shapes.
Context {zod : ZodLib}.

Lemma all_V_inr {A B} (f : B → V A) (P : A → Prop) xs l :
  (∀ x a, f x = inr a → P a) →
  all_V (map f xs) = inr l → length l = length xs ∧ Forall P l.
Proof.
  intros Hf. revert l. induction xs as [|x xs IH]; intros l; simpl.
  - intros [= <-]. by split.
  - destruct (f x) as [|a] eqn:Ha, (all_V (map f xs)) as [|l'] eqn:Hl; simpl;
      try discriminate.
    intros [= <-]. destruct (IH l' eq_refl) as [Hlen HP]. split; [simpl; lia|].
    constructor; eauto.
Qed.

Lemma checked_inr {A} issues (a b : A) : checked issues a = inr b → issues = [] ∧ a = b.
Proof. destruct issues; simpl; [by intros [= <-]|discriminate]. Qed.

Lemma z_array_inr {A} (inner : Schema A) (P : A → Prop) min v l :
  (∀ x a, inner (Some x) = inr a → P a) →
  z_array inner min v = inr l →
  Forall P l ∧ (∀ n, min = Some n → (n ≤ length l)%nat).
Proof.
  intros Hin. unfold z_array. destruct v as [[| | | |items|]|]; try discriminate.
  destruct (all_V (map (λ item, inner (Some item)) items)) as [|values] eqn:Hall;
    [discriminate|].
  intros [Hshort <-]%checked_inr.
  destruct (all_V_inr (λ item, inner (Some item)) P items values Hin Hall) as [Hlen HP].
  split; [done|]. intros n ->. rewrite Hlen.
  destruct (length items <? n)%nat eqn:Hlt; [discriminate|].
  apply Nat.ltb_ge in Hlt. lia.
Qed.

Lemma z_string_min_1 v s : z_string [MinLength 1] v = inr s → s ≠ "".
Proof.
  unfold z_string. destruct v as [[| | |s'| |]|]; try discriminate.
  simpl. destruct s'; simpl; [discriminate|]. by intros [= <-].
Qed.

(** X3.  A validated search-events input always names at least one
    calendar and has a non-empty query; when [calendarIds] is missing the
    search runs over the one calendar ["primary"], and an empty
    [calendarIds] array is rejected rather than searched. *)
Theorem search_input_never_empty :
  (∀ v input, searchEventsInput v = inr input →
     se_calendarIds input ≠ [] ∧ se_query input ≠ "") ∧
  (∀ o input, searchEventsInput (Some (JObj o)) = inr input →
     obj_get "calendarIds" o = None → se_calendarIds input = ["primary"]) ∧
  (∀ o, obj_get "calendarIds" o = Some (JArr []) →
     ∃ issues, searchEventsInput (Some (JObj o)) = inl issues).
Proof.
  split; [|split].
  - intros v input Hv. unfold searchEventsInput, z_object in Hv.
    destruct v as [[| | | | |o]|]; try discriminate Hv.
    invert_shape Hv. simpl. split.
    + match goal with H : key _ "calendarIds" _ = inr _ |- _ => rename H into Hc end.
      unfold key, z_default in Hc.
      match type of Hc with _ = inr ?ids =>
        assert (∃ v', z_array (z_string []) (Some 1%nat) v' = inr ids) as [v' Hv']
          by (destruct (obj_get "calendarIds" o); eauto)
      end.
      destruct (z_array_inr _ (λ _, True) _ _ _ (λ _ _ _, I) Hv') as [_ Hmin].
      specialize (Hmin 1%nat eq_refl). intros ->. simpl in Hmin. lia.
    + match goal with H : key _ "query" _ = inr _ |- _ => rename H into Hq end.
      by apply z_string_min_1 in Hq.
  - intros o input Hv Hnone. unfold searchEventsInput, z_object in Hv.
    invert_shape Hv. simpl.
    match goal with H : key _ "calendarIds" _ = inr _ |- _ => rename H into Hc end.
    unfold key in Hc. rewrite Hnone in Hc. simpl in Hc. by injection Hc as <-.
  - intros o Hempty.
    destruct (searchEventsInput (Some (JObj o))) as [issues|input] eqn:Hv; [by eexists|].
    exfalso. unfold searchEventsInput, z_object in Hv. invert_shape Hv.
    match goal with H : key _ "calendarIds" _ = inr _ |- _ => rename H into Hc end.
    unfold key in Hc. rewrite Hempty in Hc. discriminate Hc.
Qed.
End Shapes.

(** ** Property filters *)

Lemma append_cons c k rest : String c k +:+ rest = String c (k +:+ rest).
Proof. reflexivity. Qed.

Lemma append_nil rest : "" +:+ rest = rest.
Proof. reflexivity. Qed.

Lemma append_nil_r s : s +:+ "" = s.
Proof. induction s as [|c s IH]; [done|]. by rewrite append_cons, IH. Qed.

Lemma skip_non_eq_none v : mentions_eq v = false → skip_non_eq v = "".
Proof.
  induction v as [|c v IH]; simpl; [done|].
  destruct (Ascii.eqb c "=")%char; simpl; [discriminate|]. exact IH.
Qed.

Lemma skip_non_eq_app k rest :
  mentions_eq k = false → skip_non_eq (k +:+ String "=" rest) = String "=" rest.
Proof.
  induction k as [|c k IH]; [done|]. rewrite append_cons. simpl.
  destruct (Ascii.eqb c "=")%char; simpl; [discriminate|]. exact IH.
Qed.

Lemma skip_non_eq_split s :
  ∃ k, s = k +:+ skip_non_eq s ∧ mentions_eq k = false.
Proof.
  induction s as [|c s (k & Hk & Hno)]; simpl.
  - by exists "".
  - destruct (Ascii.eqb c "=")%char eqn:E.
    + by exists "".
    + exists (String c k). rewrite append_cons. simpl. rewrite E. simpl.
      split; [by f_equal|done].
Qed.

Lemma non_eq_run_Some s rest :
  non_eq_run s = Some rest ↔
  ∃ c s', s = String c s' ∧ Ascii.eqb c "="%char = false ∧ rest = skip_non_eq s.
Proof.
  destruct s as [|c s']; simpl.
  - split; [discriminate|]. by intros (? & ? & ? & _).
  - destruct (Ascii.eqb c "=")%char eqn:E.
    + split; [discriminate|]. intros (c' & s'' & [= <- <-] & E' & _). congruence.
    + split.
      * intros [= <-]. by exists c, s'.
      * by intros (c' & s'' & [= <- <-] & _ & ->).
Qed.

(** X4.  A property filter is accepted exactly when it is a non-empty key
    without [=], one [=], and a non-empty value without [=]. *)
Theorem propertyFilter_key_value s :
  propertyFilterRegex_test s = true ↔
  ∃ k v, s = k +:+ String "=" v ∧ k ≠ "" ∧ v ≠ ""
         ∧ mentions_eq k = false ∧ mentions_eq v = false.
Proof.
  unfold propertyFilterRegex_test, anchored. cbn [fold_left]. split.
  - destruct (non_eq_run s) as [r1|] eqn:E1; [|discriminate].
    destruct (lit "=" r1) as [r2|] eqn:E2; [|discriminate].
    destruct (non_eq_run r2) as [[|]|] eqn:E3; try discriminate. intros _.
    apply non_eq_run_Some in E1 as (c & s' & Hs & Hc & ->).
    apply lit_Some in E2.
    apply non_eq_run_Some in E3 as (c2 & s2 & Hr2 & Hc2 & Hend).
    destruct (skip_non_eq_split s) as (k & Hk & Hkno).
    destruct (skip_non_eq_split r2) as (v & Hv & Hvno).
    rewrite <- Hend in Hv.
    rewrite append_nil_r in Hv. subst v.
    exists k, r2. rewrite E2 in Hk. repeat split; try done.
    + intros ->. rewrite append_nil, Hs in Hk. injection Hk as Hc' _.
      subst c. discriminate Hc.
    + by rewrite Hr2.
  - intros (k & v & -> & Hk & Hv & Hkno & Hvno).
    assert (non_eq_run (k +:+ String "=" v) = Some (String "=" v)) as ->.
    { apply non_eq_run_Some. destruct k as [|c k]; [done|]. simpl in Hkno.
      apply orb_false_iff in Hkno as [Hc Hkno]. exists c, (k +:+ String "=" v).
      split; [by rewrite append_cons|]. split; [done|].
      symmetry. apply (skip_non_eq_app (String c k)). simpl. by rewrite Hc. }
    simpl.
    assert (non_eq_run v = Some "") as ->; [|done].
    apply non_eq_run_Some. destruct v as [|c v]; [done|]. simpl in Hvno.
    apply orb_false_iff in Hvno as [Hc Hvno]. exists c, v.
    split; [done|]. split; [done|].
    symmetry. apply (skip_non_eq_none (String c v)). simpl. by rewrite Hc.
Qed.

(** ** Unknown keys and nested values *)

Section Strip.
Context {zod : ZodLib}.

Lemma key_skip {A} (o : list (string * json)) k v k' (schema : Schema A) :
  k ≠ k' → key ((k, v) :: o) k' schema = key o k' schema.
Proof.
  intros Hne. unfold key. simpl.
  destruct (String.eqb k' k) eqn:E; [|done]. apply String.eqb_eq in E. congruence.
Qed.

Ltac skip_keys Hk :=
  rewrite !key_skip; [reflexivity|..];
  intros ->; apply Hk; repeat first [by left | right].

Lemma commonEventFieldsShape_skip k v o :
  k ∉ ["description"; "location"; "colorId"; "recurrence"; "transparency"; "visibility";
       "attendees"; "reminders"; "conferenceData"; "extendedProperties";
       "guestsCanInviteOthers"; "guestsCanModify"; "guestsCanSeeOtherGuests";
       "anyoneCanAddSelf"; "attachments"; "source"] →
  commonEventFieldsShape ((k, v) :: o) = commonEventFieldsShape o.
Proof. intros Hk. unfold commonEventFieldsShape. skip_keys Hk. Qed.

(** X5.  An argument whose key is not in the operation's schema has no
    effect on validation or on the validated input: create-event,
    update-task, complete-task and create-task parse the arguments with and
    without it to the same result. *)
Theorem unknown_keys_are_dropped k v o :
  (k ∉ ["calendarId"; "summary"; "start"; "end"; "timeZone"; "eventId"; "sendUpdates";
        "description"; "location"; "colorId"; "recurrence"; "transparency"; "visibility";
        "attendees"; "reminders"; "conferenceData"; "extendedProperties";
        "guestsCanInviteOthers"; "guestsCanModify"; "guestsCanSeeOtherGuests";
        "anyoneCanAddSelf"; "attachments"; "source"] →
   createEventInput (Some (JObj ((k, v) :: o))) = createEventInput (Some (JObj o))) ∧
  (k ∉ ["tasklistId"; "taskId"; "title"; "notes"; "due"; "status"] →
   updateTaskInput (Some (JObj ((k, v) :: o))) = updateTaskInput (Some (JObj o))) ∧
  (k ∉ ["tasklistId"; "taskId"] →
   completeTaskInput (Some (JObj ((k, v) :: o))) = completeTaskInput (Some (JObj o))) ∧
  (k ∉ ["tasklistId"; "title"; "notes"; "due"] →
   createTaskInput (Some (JObj ((k, v) :: o))) = createTaskInput (Some (JObj o))).
Proof.
  split; [|split; [|split]]; intros Hk.
  - unfold createEventInput, z_object. rewrite commonEventFieldsShape_skip.
    + skip_keys Hk.
    + intros Hin. apply Hk. do 7 right. exact Hin.
  - unfold updateTaskInput, z_object. skip_keys Hk.
  - unfold completeTaskInput, z_object. skip_keys Hk.
  - unfold createTaskInput, z_object. skip_keys Hk.
Qed.

Lemma reminderOverride_minutes v override :
  reminderOverrideSchema v = inr override → (0 ≤ ro_minutes override)%Z.
Proof.
  unfold reminderOverrideSchema, z_object. destruct v as [[| | | | |o]|]; try discriminate.
  intros Hv. invert_shape Hv. simpl.
  match goal with H : key _ "minutes" _ = inr _ |- _ => by apply z_int_min in H end.
Qed.

(** X6.  In validated reminders, [overrides], when present, holds at least
    one override and every override has a non-negative number of minutes; so
    for validated input [mapReminders] yields nothing only when neither
    [useDefault] nor [overrides] was supplied. *)
Theorem validated_reminders v r :
  remindersSchema v = inr r →
  (∀ l, ri_overrides r = Some l →
     l ≠ [] ∧ Forall (λ override, (0 ≤ ro_minutes override)%Z) l) ∧
  (mapReminders (Some r) = None ↔ ri_useDefault r = None ∧ ri_overrides r = None).
Proof.
  unfold remindersSchema, z_object. destruct v as [[| | | | |o]|]; try discriminate.
  intros Hv. invert_shape Hv. cbn [ri_overrides ri_useDefault].
  match goal with H : key _ "overrides" _ = inr _ |- _ => rename H into Ho end.
  match type of Ho with _ = inr ?ov =>
    assert (∀ l, ov = Some l →
              l ≠ [] ∧ Forall (λ override, (0 ≤ ro_minutes override)%Z) l) as Hl
  end.
  { intros l ->. apply z_optional_Some in Ho.
    destruct (z_array_inr _ (λ override, (0 ≤ ro_minutes override)%Z) _ _ _
                (λ x a, reminderOverride_minutes (Some x) a) Ho) as [HP Hmin].
    split; [|done]. intros ->. specialize (Hmin 1%nat eq_refl). simpl in Hmin. lia. }
  split; [done|].
  rewrite mapReminders_Some.
  destruct (reminders_content _) eqn:Hc.
  - split; [discriminate|]. intros [Hu Hov].
    unfold reminders_content in Hc. simpl in *. subst. discriminate Hc.
  - apply reminders_content_false in Hc as [Hu [Hov|Hov]]; simpl in *; [done|].
    by destruct (Hl [] Hov).
Qed.
End Strip.

(** ** The event normalizer *)

Lemma mapEvent_fields event :
  mapEvent event = JObj (map (λ k, (k, or_null (get k event))) event_fields).
Proof. reflexivity. Qed.

Lemma obj_get_tabulate (f : string → json) k (keys : list string) :
  obj_get k (map (λ k', (k', f k')) keys)
  = if bool_decide (k ∈ keys) then Some (f k) else None.
Proof.
  induction keys as [|k' keys IH]; simpl; [done|].
  destruct (String.eqb k k') eqn:E.
  - apply String.eqb_eq in E as ->. rewrite bool_decide_eq_true_2; [done|by left].
  - apply String.eqb_neq in E. rewrite IH.
    destruct (bool_decide (k ∈ keys)) eqn:Hin.
    + apply bool_decide_eq_true_1 in Hin. rewrite bool_decide_eq_true_2; [done|by right].
    + apply bool_decide_eq_false_1 in Hin. rewrite bool_decide_eq_false_2; [done|].
      by intros [->|?]%elem_of_cons.
Qed.

Lemma or_null_or_null x : or_null (Some (or_null x)) = or_null x.
Proof. by destruct x as [[]|]. Qed.

(** X7.  The normalized event has exactly the 23 keys of the allow-list:
    each of them is present, with the raw value, or null when the raw entity
    lacks the key or holds null there; any other key of the raw entity is
    dropped. *)
Theorem mapEvent_allow_list event k :
  (k ∈ event_fields →
     get k (mapEvent event) = Some (or_null (get k event))
     ∧ (∀ v, get k event = Some v → v ≠ JNull → get k (mapEvent event) = Some v)
     ∧ (get k event = None → get k (mapEvent event) = Some JNull)) ∧
  (k ∉ event_fields → get k (mapEvent event) = None).
Proof.
  rewrite mapEvent_fields. cbn [get]. rewrite obj_get_tabulate. split.
  - intros Hin. rewrite bool_decide_eq_true_2 by done. split; [done|]. split.
    + intros v -> Hv. by destruct v.
    + by intros ->.
  - intros Hout. by rewrite bool_decide_eq_false_2.
Qed.

(** X8.  Normalizing is idempotent: a normalized event is its own
    normalization. *)
Theorem mapEvent_idempotent event : mapEvent (mapEvent event) = mapEvent event.
Proof.
  rewrite (mapEvent_fields (mapEvent event)), (mapEvent_fields event) at 1.
  f_equal. apply map_ext_in. intros k Hin%list_elem_of_In. f_equal.
  rewrite mapEvent_fields. cbn [get]. rewrite obj_get_tabulate.
  rewrite bool_decide_eq_true_2 by done. apply or_null_or_null.
Qed.

(** ** Attendees, attachments and conference data *)

(** X9.  A supplied attendee list is sent entry by entry, in order and with
    every field unchanged; in particular an empty list is sent as an empty
    list (clearing the attendees) and is not left out of an update. *)
Theorem attendees_sent_as_supplied :
  (∀ l, ∃ sent, mapAttendeesForRequest (Some l) = Some sent
        ∧ length sent = length l
        ∧ map (λ a, (ea_email a, ea_optional a, ea_displayName a, ea_responseStatus a,
                     ea_comment a, ea_additionalGuests a)) sent
          = map (λ a, (att_email a, att_optional a, att_displayName a,
                       att_responseStatus a, att_comment a, att_additionalGuests a)) l) ∧
  (∀ input, ev_attendees (update_event_body input)
            = mapAttendeesForRequest (cf_attendees (ue_common input))) ∧
  mapAttendeesForRequest (Some []) = Some [].
Proof.
  split; [|split].
  - intros l. eexists. split; [reflexivity|]. rewrite length_map. split; [done|].
    rewrite map_map. by apply map_ext.
  - intros input. unfold update_event_body, update_body. simpl.
    by destruct (cf_attendees (ue_common input)).
  - reflexivity.
Qed.

Section Flags.
Context {zod : ZodLib}.

Lemma common_flags o c :
  commonEventFieldsShape o = inr c →
  conferenceDataVersion_of c = (if obj_get "conferenceData" o is Some _ then Some 1%Z else None)
  ∧ supportsAttachments_of c
    = (if obj_get "attachments" o is Some (JArr (_ :: _)) then Some true else None).
Proof.
  unfold commonEventFieldsShape. intros Hv. invert_shape Hv.
  unfold conferenceDataVersion_of, supportsAttachments_of, hasAttachments. simpl.
  match goal with H : key _ "conferenceData" _ = inr _ |- _ => rename H into Hc end.
  match goal with H : key _ "attachments" _ = inr _ |- _ => rename H into Ha end.
  unfold key, conferenceDataSchema, z_optional, z_custom in Hc.
  unfold key, attachmentsSchema, z_optional in Ha.
  split.
  - destruct (obj_get "conferenceData" o) as [v|]; [|by injection Hc as <-].
    destruct (is_object v) eqn:Hobj; simpl in Hc; [|discriminate].
    injection Hc as <-. by destruct v.
  - destruct (obj_get "attachments" o) as [v|]; [|by injection Ha as <-].
    match type of Ha with map_V _ (z_array ?inner _ _) = _ =>
      destruct (z_array inner None (Some v)) as [|l] eqn:Harr; [discriminate|];
      unfold z_array in Harr
    end.
    injection Ha as <-.
    destruct v as [| | | |items|]; try discriminate.
    match type of Harr with context [all_V (map ?f items)] =>
      destruct (all_V (map f items)) as [|values] eqn:Hall; [discriminate|];
      destruct (all_V_inr f (λ _, True) items values (λ _ _ _, I) Hall) as [Hlen _]
    end.
    simpl in Harr. injection Harr as <-.
    destruct items, values; simpl in *; try done; lia.
Qed.

(** X10.  For validated create-event, update-event and update-event-instance
    arguments, the request asks for conference processing
    ([conferenceDataVersion = 1]) exactly when [conferenceData] is among the
    arguments, and declares attachment support ([supportsAttachments = true])
    exactly when [attachments] is a non-empty array; otherwise the option is
    absent, never 0 or false. *)
Theorem write_request_flags o :
  let version := if obj_get "conferenceData" o is Some _ then Some 1%Z else None in
  let attach := if obj_get "attachments" o is Some (JArr (_ :: _)) then Some true else None in
  (∀ input, createEventInput (Some (JObj o)) = inr input →
     conferenceDataVersion_of (ce_common input) = version
     ∧ supportsAttachments_of (ce_common input) = attach) ∧
  (∀ input, updateEventInput (Some (JObj o)) = inr input →
     conferenceDataVersion_of (ue_common input) = version
     ∧ supportsAttachments_of (ue_common input) = attach) ∧
  (∀ input, updateEventInstanceInput (Some (JObj o)) = inr input →
     conferenceDataVersion_of (ui_common input) = version
     ∧ supportsAttachments_of (ui_common input) = attach).
Proof.
  cbv zeta. split; [|split]; intros input Hv.
  - unfold createEventInput, z_object in Hv.
    apply ap_V_inr in Hv as (g & c & Hg & Hc & ->). invert_shape Hg.
    by apply common_flags.
  - unfold updateEventInput, z_object in Hv.
    apply ap_V_inr in Hv as (g & c & Hg & Hc & ->). invert_shape Hg.
    by apply common_flags.
  - unfold updateEventInstanceInput, z_object in Hv.
    apply ap_V_inr in Hv as (g & c & Hg & Hc & ->). invert_shape Hg.
    by apply common_flags.
Qed.
End Flags.

(** ** Outcomes of the registered tools *)

Section Outcomes.
Context {zod : ZodLib} {rt : Runtime} {rest : RestRuntime}.

(** X11.  Whatever the schema, the handler and the arguments, a registered
    tool ends with a result or with a structured McpError, never with
    another thrown value.  A result of the handler is passed on as it is; an
    McpError thrown by the handler is re-raised unchanged; a validation
    error becomes InvalidParams with the joined messages; an error with a
    message becomes InternalError with that message; anything else becomes
    InternalError with a fixed text. *)
Theorem registerTool_structured_outcome {T} name description (schema : Schema T)
    (executor : T → M ToolResult) args s :
  (∀ e, outcome (registerTool name description schema executor args s) = inl e →
     ∃ m, e = ThrownMcpError m) ∧
  (∀ parsed, schema (Some (or_empty_object args)) = inr parsed →
     let reports thrown m :=
       ∀ s', executor parsed s = (inl thrown, s') →
         registerTool name description schema executor args s = (inl (ThrownMcpError m), s') in
     (∀ r s', executor parsed s = (inr r, s') →
        registerTool name description schema executor args s = (inr r, s')) ∧
     (∀ m, reports (ThrownMcpError m) m) ∧
     (∀ issues, reports (ThrownZodError issues)
        {| code := InvalidParams;
           message := String.concat "; " (map issue_message issues) |}) ∧
     (∀ text, reports (ThrownWithMessage text) {| code := InternalError; message := text |}) ∧
     reports ThrownOther
       {| code := InternalError; message := "Unexpected error executing tool" |}).
Proof.
  split.
  - intros e. unfold registerTool, try_catch, throw, outcome.
    destruct (schema (Some (or_empty_object args))) as [issues|parsed]; simpl.
    + intros [= <-]. by eexists.
    + destruct (executor parsed s) as [[thrown|r] s']; simpl; [|discriminate].
      destruct thrown; simpl; intros [= <-]; by eexists.
  - intros parsed Hp. cbv zeta.
    repeat split; intros; rewrite (registerTool_run _ _ _ _ _ _ _ Hp);
      by match goal with H : executor _ _ = _ |- _ => rewrite H end.
Qed.

Lemma uninitialized_calendar this {A} (k : CalendarClient → M A) s :
  calendar this = None →
  bind (ensureCalendar this) k s
  = (inl (ThrownMcpError {| code := InternalError;
                            message := "Google Calendar client is not initialized" |}), s).
Proof. intros Hc. unfold bind, ensureCalendar. by rewrite Hc. Qed.

Lemma uninitialized_tasks this {A} (k : TasksClient → M A) s :
  tasks this = None →
  bind (ensureTasks this) k s
  = (inl (ThrownMcpError {| code := InternalError;
                            message := "Google Tasks client is not initialized" |}), s).
Proof. intros Ht. unfold bind, ensureTasks. by rewrite Ht. Qed.

(** X12.  On a server whose calendar client is not set, every calendar
    handler ends at once with InternalError "Google Calendar client is not
    initialized", and on a server whose tasks client is not set every task
    handler ends with InternalError "Google Tasks client is not initialized";
    the world and the request log are untouched, so no backend call is
    made. *)
Theorem uninitialized_clients this s :
  let no_calendar :=
    (inl (ThrownMcpError {| code := InternalError;
                            message := "Google Calendar client is not initialized" |}), s) in
  let no_tasks :=
    (inl (ThrownMcpError {| code := InternalError;
                            message := "Google Tasks client is not initialized" |}), s) in
  (calendar this = None →
     list_calendars this tt s = no_calendar
     ∧ (∀ input, list_events this input s = no_calendar)
     ∧ (∀ input, search_events this input s = no_calendar)
     ∧ (∀ input, create_event this input s = no_calendar)
     ∧ (∀ input, update_event this input s = no_calendar)
     ∧ (∀ input, list_event_instances this input s = no_calendar)
     ∧ (∀ input, update_event_instance this input s = no_calendar)
     ∧ (∀ input, delete_event this input s = no_calendar)
     ∧ (∀ input, delete_event_instance this input s = no_calendar)) ∧
  (tasks this = None →
     list_tasklists this tt s = no_tasks
     ∧ (∀ input, list_tasks this input s = no_tasks)
     ∧ (∀ input, create_task this input s = no_tasks)
     ∧ (∀ input, update_task this input s = no_tasks)
     ∧ (∀ input, complete_task this input s = no_tasks)
     ∧ (∀ input, delete_task this input s = no_tasks)).
Proof.
  cbv zeta. split; intros Hnone.
  - repeat split; intros; by apply uninitialized_calendar.
  - repeat split; intros; by apply uninitialized_tasks.
Qed.
End Outcomes.

(** ** Listing, deleting and creating *)

Section Rest.
Context {zod : ZodLib} {rt : Runtime} {rest : RestRuntime}.

Lemma list_events_run this cal input w log :
  calendar this = Some cal →
  list_events this input (w, log)
  = let request :=
      Events_list
        {| el_calendarId := le_calendarId input; el_timeMin := le_timeMin input;
           el_timeMax := le_timeMax input; el_maxResults := le_maxResults input;
           el_q := le_query input; el_singleEvents := le_singleEvents input;
           el_orderBy := le_orderBy input; el_showDeleted := le_showDeleted input;
           el_timeZone := le_timeZone input; el_pageToken := le_pageToken input;
           el_syncToken := le_syncToken input;
           el_privateExtendedProperty := le_privateExtendedProperty input;
           el_sharedExtendedProperty := le_sharedExtendedProperty input |} in
    (match fst (backend request w) with
     | inr data =>
         inr {| content := toJsonContent
                  (JObj [("events", JArr (map mapEvent (or_empty (get "items" data))));
                         ("nextPageToken", or_null (get "nextPageToken" data));
                         ("nextSyncToken", or_null (get "nextSyncToken" data))]) |}
     | inl e => inl e
     end, (snd (backend request w), log ++ [request])).
Proof.
  intros Hc. unfold list_events, ensureCalendar, bind, events_list, call. rewrite Hc.
  simpl. by destruct (backend _ w) as [[e|data] w'].
Qed.

(** X13.  list-events issues one list request that carries every validated
    filter unchanged ([query] as [q]) and answers with one normalized event
    per item of the backend's page, in order; a page without [items] gives an
    empty list, and [nextPageToken] and [nextSyncToken] are null when the
    backend sent none. *)
Theorem list_events_page this cal args input w log :
  calendar this = Some cal →
  listEventsInput (Some (or_empty_object args)) = inr input →
  ∃ p, issued (tool_list_events this args (w, log)) = log ++ [Events_list p]
     ∧ (el_calendarId p, el_timeMin p, el_timeMax p, el_maxResults p, el_q p,
        el_singleEvents p, el_orderBy p)
       = (le_calendarId input, le_timeMin input, le_timeMax input, le_maxResults input,
          le_query input, le_singleEvents input, le_orderBy input)
     ∧ (el_showDeleted p, el_timeZone p, el_pageToken p, el_syncToken p,
        el_privateExtendedProperty p, el_sharedExtendedProperty p)
       = (le_showDeleted input, le_timeZone input, le_pageToken input, le_syncToken input,
          le_privateExtendedProperty input, le_sharedExtendedProperty input)
     ∧ ∀ data, fst (backend (Events_list p) w) = inr data →
         ∃ events pageToken syncToken,
           outcome (tool_list_events this args (w, log))
           = inr {| content := toJsonContent
                      (JObj [("events", JArr events); ("nextPageToken", pageToken);
                             ("nextSyncToken", syncToken)]) |}
           ∧ events = map mapEvent (or_empty (get "items" data))
           ∧ (get "items" data = None → events = [])
           ∧ (get "nextPageToken" data = None → pageToken = JNull)
           ∧ (get "nextSyncToken" data = None → syncToken = JNull)
           ∧ (∀ t, get "nextPageToken" data = Some (JStr t) → pageToken = JStr t).
Proof.
  intros Hc Hv. unfold tool_list_events, issued, outcome.
  rewrite (registerTool_run _ _ _ _ _ _ _ Hv), (list_events_run _ _ _ _ _ Hc). cbv zeta.
  eexists. split; [by destruct (fst (backend _ w))|]. split; [reflexivity|].
  split; [reflexivity|]. intros data Hd. rewrite Hd.
  eexists _, _, _. split; [reflexivity|]. split; [reflexivity|].
  split; [by intros ->|]. split; [by intros ->|]. split; [by intros ->|by intros t ->].
Qed.

Lemma call_rest_bind {A} r (k : json → M A) w log :
  bind (call_rest r) k (w, log)
  = match fst (backend_rest r w) with
    | inr data => k data (snd (backend_rest r w), log)
    | inl e => (inl e, (snd (backend_rest r w), log))
    end.
Proof. unfold bind, call_rest. simpl. by destruct (backend_rest r w) as [[e|data] w']. Qed.

Lemma ensureCalendar_bind this cal {A} (k : CalendarClient → M A) s :
  calendar this = Some cal → bind (ensureCalendar this) k s = k cal s.
Proof. intros Hc. unfold bind, ensureCalendar. by rewrite Hc. Qed.

Lemma ensureTasks_bind this t {A} (k : TasksClient → M A) s :
  tasks this = Some t → bind (ensureTasks this) k s = k t s.
Proof. intros Ht. unfold bind, ensureTasks. by rewrite Ht. Qed.

Lemma registerTool_outcome {T} name description (schema : Schema T) executor args parsed s :
  schema (Some (or_empty_object args)) = inr parsed →
  outcome (registerTool name description schema executor args s)
  = match outcome (executor parsed s) with
    | inr r => inr r
    | inl e => inl (ThrownMcpError (reported e))
    end
  ∧ fst (snd (registerTool name description schema executor args s))
    = fst (snd (executor parsed s)).
Proof.
  intros Hp. rewrite (registerTool_run _ _ _ _ _ _ _ Hp). unfold outcome.
  by destruct (executor parsed s) as [[e|r] s'].
Qed.

(** X14.  The three delete operations issue one delete request and, when the
    backend accepts it, answer [{success: true}] whatever the backend sent
    back; delete-event-instance passes the instance identifier as the event
    identifier of the same backend method as delete-event.  When the backend
    rejects the request there is no acknowledgment, only the structured
    error. *)
Theorem delete_acknowledges this w log :
  let ack := inr {| content := toJsonContent (JObj [("success", JBool true)]) |} in
  let result request := 
    match fst (backend_rest request w) with
    | inr _ => ack
    | inl e => inl (ThrownMcpError (reported e))
    end in
  (∀ cal args input, calendar this = Some cal →
     deleteEventInput (Some (or_empty_object args)) = inr input →
     let request := Events_delete (de_calendarId input) (de_eventId input)
                      (de_sendUpdates input) in
     tool_delete_event this args (w, log)
     = (result request, (snd (backend_rest request w), log))) ∧
  (∀ cal args input, calendar this = Some cal →
     deleteEventInstanceInput (Some (or_empty_object args)) = inr input →
     let request := Events_delete (di_calendarId input) (di_instanceId input)
                      (di_sendUpdates input) in
     tool_delete_event_instance this args (w, log)
     = (result request, (snd (backend_rest request w), log))) ∧
  (∀ t args input, tasks this = Some t →
     deleteTaskInput (Some (or_empty_object args)) = inr input →
     let request := Tasks_delete (dt_tasklistId input) (dt_taskId input) in
     tool_delete_task this args (w, log)
     = (result request, (snd (backend_rest request w), log))).
Proof.
  cbv zeta. split; [|split]; intros h args input Hh Hv.
  - unfold tool_delete_event. rewrite (registerTool_run _ _ _ _ _ _ _ Hv).
    unfold delete_event, events_delete.
    rewrite (ensureCalendar_bind _ _ _ _ Hh), call_rest_bind.
    by destruct (fst (backend_rest _ w)).
  - unfold tool_delete_event_instance. rewrite (registerTool_run _ _ _ _ _ _ _ Hv).
    unfold delete_event_instance, events_delete.
    rewrite (ensureCalendar_bind _ _ _ _ Hh), call_rest_bind.
    by destruct (fst (backend_rest _ w)).
  - unfold tool_delete_task. rewrite (registerTool_run _ _ _ _ _ _ _ Hv).
    unfold delete_task, tasks_delete.
    rewrite (ensureTasks_bind _ _ _ _ Hh), call_rest_bind.
    by destruct (fst (backend_rest _ w)).
Qed.
End Rest.

Section Entries.
Context {zod : ZodLib} {rt : Runtime} {rest : RestRuntime}.

Lemma not_in_eqb k (l : list string) :
  k ∉ l → Forall (λ k', String.eqb k k' = false) l.
Proof.
  intros Hk. apply Forall_forall. intros k' Hin. apply String.eqb_neq.
  intros ->. by apply Hk.
Qed.

Ltac other_keys Hk :=
  apply not_in_eqb in Hk;
  repeat match type of Hk with
         | Forall _ (_ :: _) => apply Forall_cons in Hk as [? Hk]
         end.

Ltac use_other_keys :=
  simpl; repeat match goal with H : String.eqb _ _ = false |- _ => rewrite H; clear H end.

Ltac one_of Hk :=
  repeat (apply elem_of_cons in Hk as [->|Hk]); [..|by apply elem_of_nil in Hk].

(** X15.  list-tasks issues one list request for the validated task list
    and filters, and answers with one entry per task of the page, in order.
    In an entry [notes], [due] and [completed] are always present, null when
    the task has none; [id], [title], [status] and [updated] are present
    exactly when the task has them; no other key of the task is passed on. *)
Theorem list_tasks_entries :
  (∀ this t args input w log, tasks this = Some t →
     listTasksInput (Some (or_empty_object args)) = inr input →
     let request :=
       Tasks_list {| tl_tasklist := lt_tasklistId input;
                     tl_showCompleted := lt_showCompleted input;
                     tl_showDeleted := lt_showDeleted input;
                     tl_maxResults := lt_maxResults input;
                     tl_dueMin := lt_dueMin input; tl_dueMax := lt_dueMax input |} in
     ∀ data, fst (backend_rest request w) = inr data →
       tool_list_tasks this args (w, log)
       = (inr {| content := toJsonContent
                   (JObj [("tasks", JArr (map task_entry (or_empty (get "items" data))));
                          ("nextPageToken", or_null (get "nextPageToken" data))]) |},
          (snd (backend_rest request w), log))) ∧
  (∀ task k,
     (k ∈ ["notes"; "due"; "completed"] →
        get k (task_entry task) = Some (or_null (get k task))) ∧
     (k ∈ ["id"; "title"; "status"; "updated"] → get k (task_entry task) = get k task) ∧
     (k ∉ ["id"; "title"; "notes"; "status"; "due"; "completed"; "updated"] →
        get k (task_entry task) = None)).
Proof.
  split.
  - intros this t args input w log Ht Hv request data Hd. unfold tool_list_tasks.
    rewrite (registerTool_run _ _ _ _ _ _ _ Hv). unfold list_tasks, tasks_list.
    rewrite (ensureTasks_bind _ _ _ _ Ht), call_rest_bind. fold request. by rewrite Hd.
  - intros task k. unfold task_entry, prop. split; [|split]; intros Hk.
    + one_of Hk;
        by destruct (get "id" task), (get "title" task), (get "status" task),
          (get "updated" task).
    + one_of Hk;
        by destruct (get "id" task), (get "title" task), (get "status" task),
          (get "updated" task).
    + other_keys Hk.
      by destruct (get "id" task), (get "title" task), (get "status" task),
        (get "updated" task); use_other_keys.
Qed.

(** X16.  list-calendars answers with one entry per calendar of the list, in
    order.  In an entry [primary] is always a boolean, true exactly when the
    backend's value is truthy and false when it is missing; [description],
    [timeZone] and [accessRole] are always present, null by default; [id] and
    [summary] are passed through. *)
Theorem list_calendars_entries :
  (∀ this cal args fields w log, calendar this = Some cal →
     or_empty_object args = JObj fields →
     ∀ data, fst (backend_rest CalendarList_list w) = inr data →
       tool_list_calendars this args (w, log)
       = (inr {| content := toJsonContent
                   (JObj [("calendars",
                           JArr (map calendar_entry (or_empty (get "items" data))))]) |},
          (snd (backend_rest CalendarList_list w), log))) ∧
  (∀ item k,
     get "primary" (calendar_entry item) = Some (JBool (to_boolean (get "primary" item)))
     ∧ (get "primary" item = None → get "primary" (calendar_entry item) = Some (JBool false))
     ∧ (k ∈ ["description"; "timeZone"; "accessRole"] →
          get k (calendar_entry item) = Some (or_null (get k item)))
     ∧ (k ∈ ["id"; "summary"] → get k (calendar_entry item) = get k item)
     ∧ (k ∉ ["id"; "summary"; "description"; "timeZone"; "primary"; "accessRole"] →
          get k (calendar_entry item) = None)).
Proof.
  split.
  - intros this cal args fields w log Hc Hargs data Hd.
    assert (emptyInput (Some (or_empty_object args)) = inr tt) as Hv by by rewrite Hargs.
    unfold tool_list_calendars.
    rewrite (registerTool_run _ _ _ _ _ _ _ Hv). unfold list_calendars, calendarList_list.
    rewrite (ensureCalendar_bind _ _ _ _ Hc), call_rest_bind. by rewrite Hd.
  - intros item k. unfold calendar_entry, prop.
    split; [|split; [|split; [|split]]].
    + by destruct (get "id" item), (get "summary" item).
    + intros ->. by destruct (get "id" item), (get "summary" item).
    + intros Hk. one_of Hk; by destruct (get "id" item), (get "summary" item).
    + intros Hk. one_of Hk; by destruct (get "id" item), (get "summary" item).
    + intros Hk. other_keys Hk.
      by destruct (get "id" item), (get "summary" item); use_other_keys.
Qed.

(** X17.  create-task issues one insert request whose body holds the title,
    [notes] and [due] exactly when they were supplied, and never a status or
    a completion stamp; it answers with the task as the backend returned
    it. *)
Theorem create_task_body_and_echo this t args input w log :
  tasks this = Some t →
  createTaskInput (Some (or_empty_object args)) = inr input →
  let request := Tasks_insert (nt_tasklistId input) (create_task_body input) in
  task_body_keys (create_task_body input)
  = "title" :: keyed "notes" (nt_notes input) ++ keyed "due" (nt_due input)
  ∧ tk_title (create_task_body input) = Some (nt_title input)
  ∧ ∀ created, fst (backend_rest request w) = inr created →
      tool_create_task this args (w, log)
      = (inr {| content := toJsonContent (JObj [("task", created)]) |},
         (snd (backend_rest request w), log)).
Proof.
  intros Ht Hv request. split; [|split; [done|]].
  - unfold task_body_keys, create_task_body. simpl.
    by destruct (nt_notes input), (nt_due input).
  - intros created Hd. unfold tool_create_task.
    rewrite (registerTool_run _ _ _ _ _ _ _ Hv). unfold create_task, tasks_insert.
    rewrite (ensureTasks_bind _ _ _ _ Ht), call_rest_bind. fold request. by rewrite Hd.
Qed.

(** X18.  list-event-instances asks the backend for the instances of the
    event named by [recurringEventId], with the validated filters unchanged,
    and answers with one normalized event per instance, in order, and the
    page token or null. *)
Theorem list_event_instances_page this cal args input w log :
  calendar this = Some cal →
  listEventInstancesInput (Some (or_empty_object args)) = inr input →
  let request :=
    Events_instances
      {| ip_calendarId := li_calendarId input; ip_eventId := li_recurringEventId input;
         ip_timeMin := li_timeMin input; ip_timeMax := li_timeMax input;
         ip_maxResults := li_maxResults input; ip_pageToken := li_pageToken input;
         ip_showDeleted := li_showDeleted input; ip_timeZone := li_timeZone input |} in
  ∀ data, fst (backend_rest request w) = inr data →
    ∃ instances,
      tool_list_event_instances this args (w, log)
      = (inr {| content := toJsonContent
                  (JObj [("instances", JArr instances);
                         ("nextPageToken", or_null (get "nextPageToken" data))]) |},
         (snd (backend_rest request w), log))
      ∧ instances = map mapEvent (or_empty (get "items" data))
      ∧ Forall (λ instance, ∀ k, k ∈ event_fields → is_Some (get k instance)) instances.
Proof.
  intros Hc Hv request data Hd. eexists. split; [|split; [reflexivity|]].
  - unfold tool_list_event_instances.
    rewrite (registerTool_run _ _ _ _ _ _ _ Hv).
    unfold list_event_instances, events_instances.
    rewrite (ensureCalendar_bind _ _ _ _ Hc), call_rest_bind. fold request. by rewrite Hd.
  - apply Forall_forall. intros instance (raw & -> & _)%list_elem_of_fmap k Hk.
    rewrite mapEvent_fields. cbn [get]. rewrite obj_get_tabulate.
    rewrite bool_decide_eq_true_2 by done. by eexists.
Qed.
End Entries.

(** * Credentials and the command line *)

Section Auth.
Context {host : Host}.

Lemma loadSaved_total env p :
  ∃ r, loadSavedCredentialsIfExist env p = (inr r, p).
Proof.
  unfold loadSavedCredentialsIfExist, io_catch, io_bind, readFile, parse, member,
    io_ret, io_throw.
  destruct (p_files p !! getTokenPath env) as [content|]; [|by eexists].
  destruct (JSON_parse content) as [tokens|]; [|by eexists].
  destruct tokens; try (by eexists);
    destruct (to_boolean _); simpl; try (by eexists);
    destruct (to_boolean _); simpl; by eexists.
Qed.

Lemma loadSaved_Some env p client :
  loadSavedCredentialsIfExist env p = (inr (Some client), p) ↔
  ∃ content tokens,
    p_files p !! getTokenPath env = Some content ∧ JSON_parse content = Some tokens
    ∧ to_boolean (get "client_id" tokens) = true
    ∧ to_boolean (get "client_secret" tokens) = true
    ∧ client = {| oc_client_id := or_null (get "client_id" tokens);
                  oc_client_secret := or_null (get "client_secret" tokens);
                  oc_credentials := tokens |}.
Proof.
  unfold loadSavedCredentialsIfExist, io_catch, io_bind, readFile, parse, member,
    io_ret, io_throw.
  split.
  - destruct (p_files p !! getTokenPath env) as [content|]; [|discriminate].
    destruct (JSON_parse content) as [tokens|] eqn:Hp; [|discriminate].
    destruct tokens as [| | | | |fields]; try discriminate.
    destruct (to_boolean (get "client_id" (JObj fields))) eqn:Hid; cbn [negb];
      [|discriminate].
    destruct (to_boolean (get "client_secret" (JObj fields))) eqn:Hs; cbn [negb];
      [|discriminate].
    intros [= <-]. by exists content, (JObj fields).
  - intros (content & tokens & -> & -> & Hid & Hs & ->).
    destruct tokens; try discriminate Hid; by rewrite Hid, Hs.
Qed.

(** X19.  Reading the token cache never fails and changes nothing: a missing
    file, text that does not parse, a parsed [null], or tokens without a
    truthy [client_id] and [client_secret] all give "no cached client"; a
    cached client is returned only for a token file that parses to tokens
    with both, and it carries those tokens as its credentials. *)
Theorem loadSaved_never_throws env p :
  (∃ r, loadSavedCredentialsIfExist env p = (inr r, p)) ∧
  (p_files p !! getTokenPath env = None →
     loadSavedCredentialsIfExist env p = (inr None, p)) ∧
  (∀ content, p_files p !! getTokenPath env = Some content →
     JSON_parse content = None ∨ JSON_parse content = Some JNull →
     loadSavedCredentialsIfExist env p = (inr None, p)) ∧
  (∀ client, loadSavedCredentialsIfExist env p = (inr (Some client), p) →
     ∃ content, p_files p !! getTokenPath env = Some content
       ∧ JSON_parse content = Some (oc_credentials client)
       ∧ to_boolean (get "client_id" (oc_credentials client)) = true
       ∧ to_boolean (get "client_secret" (oc_credentials client)) = true).
Proof.
  split; [apply loadSaved_total|]. split; [|split].
  - intros Hnone. unfold loadSavedCredentialsIfExist, io_catch, io_bind, readFile.
    by rewrite Hnone.
  - intros content Hc Hp.
    unfold loadSavedCredentialsIfExist, io_catch, io_bind, readFile, parse, member.
    rewrite Hc. by destruct Hp as [->| ->].
  - intros client (content & tokens & Hc & Hp & Hid & Hs & ->)%loadSaved_Some.
    by exists content.
Qed.

(** X20.  Without GOOGLE_OAUTH_CREDENTIALS (unset or empty) authorization
    fails before anything is read or written, even when a valid token cache
    exists; the commands [start] and [auth] then end with the error on
    standard error and exit code 1, and so does the authentication script. *)
Theorem authorize_requires_keyfile env p :
  GOOGLE_OAUTH_CREDENTIALS env = None ∨ GOOGLE_OAUTH_CREDENTIALS env = Some "" →
  let text :=
    "Set GOOGLE_OAUTH_CREDENTIALS to the path of your OAuth client credentials JSON file." in
  let failed prefix :=
    {| p_files := p_files p; p_stdout := p_stdout p;
       p_stderr := p_stderr p ++ [prefix +:+ text +:+ LF]; p_exitCode := Some 1%Z |} in
  authorize env p = (inl (ErrorObject text), p)
  ∧ (∀ argv, parseCommand argv = CmdStart ∨ parseCommand argv = CmdAuth →
       main env argv p = failed "Error: ")
  ∧ auth_main env p = failed "Authentication failed: ".
Proof.
  intros Henv text failed.
  assert (authorize env p = (inl (ErrorObject text), p)) as Ha.
  { unfold authorize. by destruct Henv as [-> | ->]. }
  split; [done|]. split.
  - intros argv Hcmd. unfold main, run, startServer, initialize, io_bind.
    destruct Hcmd as [-> | ->]; by rewrite Ha.
  - unfold auth_main, runAuth, io_bind. by rewrite Ha.
Qed.

(** X21.  With GOOGLE_OAUTH_CREDENTIALS set, a usable token cache is all
    that authorization needs: the cached client is returned, the process is
    left as it was, and neither the interactive flow nor the credentials
    file is consulted. *)
Theorem authorize_uses_cache env p keyfilePath content tokens :
  GOOGLE_OAUTH_CREDENTIALS env = Some keyfilePath → keyfilePath ≠ "" →
  p_files p !! getTokenPath env = Some content →
  JSON_parse content = Some tokens →
  to_boolean (get "client_id" tokens) = true →
  to_boolean (get "client_secret" tokens) = true →
  authorize env p
  = (inr {| oc_client_id := or_null (get "client_id" tokens);
            oc_client_secret := or_null (get "client_secret" tokens);
            oc_credentials := tokens |}, p).
Proof.
  intros Henv Hne Hc Hp Hid Hs. unfold authorize. rewrite Henv.
  apply String.eqb_neq in Hne as ->. unfold io_bind.
  by rewrite (proj2 (loadSaved_Some env p _) (ex_intro _ content (ex_intro _ tokens
       (conj Hc (conj Hp (conj Hid (conj Hs eq_refl))))))).
Qed.
End Auth.

Section Saving.
Context {host : Host}.

Lemma saveCredentials_parsed env client p path content credentials :
  GOOGLE_OAUTH_CREDENTIALS env = Some path → path ≠ "" →
  p_files p !! path = Some content →
  JSON_parse content = Some credentials → credentials ≠ JNull →
  saveCredentials env client p
  = match nullish_or (get "installed" credentials) (get "web" credentials) with
    | Some keys =>
        if usable_keys keys
        then stored (getTokenPath env) (JSON_stringify (token_payload keys client)) p
        else (inl (ErrorObject
               "Invalid Google OAuth credentials file. Expected installed or web client."), p)
    | None =>
        (inl (ErrorObject
           "Invalid Google OAuth credentials file. Expected installed or web client."), p)
    end.
Proof.
  intros Henv Hne Hc Hp Hnull. unfold saveCredentials. rewrite Henv.
  apply String.eqb_neq in Hne as ->.
  unfold io_bind, readFile, parse. rewrite Hc, Hp. unfold io_ret at 1.
  assert (member "installed" credentials p = (inr (get "installed" credentials), p)) as ->
    by by destruct credentials.
  assert (member "web" credentials p = (inr (get "web" credentials), p)) as Hweb
    by by destruct credentials.
  assert (∀ keys, 
            (if negb (truthy keys) || negb (to_boolean (get "client_id" keys))
                || negb (to_boolean (get "client_secret" keys))
             then io_throw (A := unit) (ErrorObject
               "Invalid Google OAuth credentials file. Expected installed or web client.")
             else io_bind (ensureDirectoryExists (getTokenPath env))
                    (λ _, writeFile (getTokenPath env)
                            (JSON_stringify (token_payload keys client)))) p
            = if usable_keys keys
              then stored (getTokenPath env) (JSON_stringify (token_payload keys client)) p
              else (inl (ErrorObject
                "Invalid Google OAuth credentials file. Expected installed or web client."),
                    p)) as Hkeys.
  { intros keys. unfold usable_keys.
    by destruct (truthy keys), (to_boolean (get "client_id" keys)),
      (to_boolean (get "client_secret" keys)). }
  destruct (get "installed" credentials) as [installed|] eqn:Hi.
  - destruct installed; try unfold io_ret at 1; rewrite ?Hweb; unfold nullish_or;
      try apply Hkeys.
    destruct (get "web" credentials) as [keys|]; [apply Hkeys|done].
  - rewrite Hweb. unfold nullish_or.
    destruct (get "web" credentials) as [keys|]; [apply Hkeys|done].
Qed.

(** Every run of [saveCredentials] either fails with the process untouched,
    or is the run of [stored] on the payload of usable keys. *)
Lemma saveCredentials_cases env client p :
  (∃ e, saveCredentials env client p = (inl e, p)) ∨
  (∃ keys, usable_keys keys = true
     ∧ saveCredentials env client p
       = stored (getTokenPath env) (JSON_stringify (token_payload keys client)) p).
Proof.
  destruct (GOOGLE_OAUTH_CREDENTIALS env) as [path|] eqn:Henv; cycle 1.
  { left. unfold saveCredentials. rewrite Henv. by eexists. }
  destruct (String.eqb path "") eqn:Hpath.
  { left. unfold saveCredentials. rewrite Henv, Hpath. by eexists. }
  destruct (p_files p !! path) as [content|] eqn:Hc; cycle 1.
  { left. unfold saveCredentials, io_bind, readFile. rewrite Henv, Hpath, Hc.
    by eexists. }
  destruct (JSON_parse content) as [credentials|] eqn:Hp; cycle 1.
  { left. unfold saveCredentials, io_bind, readFile, parse.
    rewrite Henv, Hpath, Hc, Hp. by eexists. }
  destruct credentials as [| b | q | t | items | fields].
  { left. unfold saveCredentials, io_bind, readFile, parse.
    rewrite Henv, Hpath, Hc, Hp. by eexists. }
  all: apply String.eqb_neq in Hpath.
  all: rewrite (saveCredentials_parsed env client p path content _ Henv Hpath Hc Hp)
         by discriminate.
  all: destruct (nullish_or _ _) as [keys|]; [|left; by eexists].
  all: destruct (usable_keys keys) eqn:Hu; [|left; by eexists].
  all: right; by exists keys.
Qed.

(** X22.  [saveCredentials] touches the disk last, and only with usable
    keys.  Every run either fails with the process exactly as it was (no
    GOOGLE_OAUTH_CREDENTIALS, credentials file missing or not JSON, no usable
    client keys), or is the making of the token file's directory followed by
    the writing of the payload built from usable keys at the token path;
    the failure of either step is then the failure of [saveCredentials], and
    the file is not written when the directory cannot be made.  The keys are
    those of [installed] when it has usable ones, whatever [web] holds. *)
Theorem saveCredentials_checks_before_writing env client p :
  ((∃ e, saveCredentials env client p = (inl e, p)) ∨
   (∃ keys, usable_keys keys = true
      ∧ saveCredentials env client p
        = stored (getTokenPath env) (JSON_stringify (token_payload keys client)) p)) ∧
  (GOOGLE_OAUTH_CREDENTIALS env = None ∨ GOOGLE_OAUTH_CREDENTIALS env = Some "" →
     saveCredentials env client p
     = (inl (ErrorObject "GOOGLE_OAUTH_CREDENTIALS environment variable is required"), p)) ∧
  (∀ path content credentials installed,
     GOOGLE_OAUTH_CREDENTIALS env = Some path → path ≠ "" →
     p_files p !! path = Some content → JSON_parse content = Some credentials →
     get "installed" credentials = Some installed → usable_keys installed = true →
     let text := JSON_stringify (token_payload installed client) in
     saveCredentials env client p = stored (getTokenPath env) text p
     ∧ (∀ e p1, mkdir_recursive (path_dirname (getTokenPath env)) p = (inl e, p1) →
          saveCredentials env client p = (inl e, p1))
     ∧ (∀ p1, mkdir_recursive (path_dirname (getTokenPath env)) p = (inr tt, p1) →
          saveCredentials env client p = writeFile (getTokenPath env) text p1)).
Proof.
  split; [apply saveCredentials_cases|]. split.
  - intros Henv. unfold saveCredentials. by destruct Henv as [-> | ->].
  - intros path content credentials installed Henv Hpath Hc Hp Hi Hu text.
    assert (credentials ≠ JNull) as Hnull by (intros ->; discriminate Hi).
    rewrite (saveCredentials_parsed env client p path content _ Henv Hpath Hc Hp Hnull), Hi.
    assert (nullish_or (Some installed) (get "web" credentials) = Some installed) as ->
      by by destruct installed.
    rewrite Hu. unfold stored, mkdir_recursive, writeFile.
    split; [done|]. split.
    + by intros e p1 ->.
    + by intros p1 ->.
Qed.

Lemma token_payload_get keys client :
  get "client_id" (token_payload keys client) = Some (or_null (get "client_id" keys))
  ∧ get "client_secret" (token_payload keys client)
    = Some (or_null (get "client_secret" keys))
  ∧ get "refresh_token" (token_payload keys client)
    = get "refresh_token" (oc_credentials client)
  ∧ get "access_token" (token_payload keys client)
    = get "access_token" (oc_credentials client)
  ∧ get "expiry_date" (token_payload keys client)
    = get "expiry_date" (oc_credentials client).
Proof.
  unfold token_payload, prop.
  by destruct (get "refresh_token" (oc_credentials client)),
    (get "access_token" (oc_credentials client)),
    (get "expiry_date" (oc_credentials client)).
Qed.

Lemma to_boolean_or_null x : to_boolean x = true → to_boolean (Some (or_null x)) = true.
Proof. by destruct x as [[]|]. Qed.

(** X23.  What [saveCredentials] writes is what
    [loadSavedCredentialsIfExist] reads back.  Suppose a save succeeded, on a
    host where a write that succeeds can be read back and whose [JSON.parse]
    inverts [JSON.stringify] on the payload.  Then the keys of the
    credentials file were usable, the cache yields a client with their
    [client_id] and [client_secret] and the saved refresh token, access token
    and expiry date, and [authorize] returns that client without running the
    interactive flow again. *)
Theorem saved_token_loads_back env client p p' path content credentials keys :
  GOOGLE_OAUTH_CREDENTIALS env = Some path → path ≠ "" →
  p_files p !! path = Some content → JSON_parse content = Some credentials →
  credentials ≠ JNull →
  nullish_or (get "installed" credentials) (get "web" credentials) = Some keys →
  read_after_write →
  JSON_parse (JSON_stringify (token_payload keys client))
  = Some (token_payload keys client) →
  saveCredentials env client p = (inr tt, p') →
  let cached := {| oc_client_id := or_null (get "client_id" keys);
                   oc_client_secret := or_null (get "client_secret" keys);
                   oc_credentials := token_payload keys client |} in
  usable_keys keys = true
  ∧ p_files p' !! getTokenPath env = Some (JSON_stringify (token_payload keys client))
  ∧ loadSavedCredentialsIfExist env p' = (inr (Some cached), p')
  ∧ authorize env p' = (inr cached, p')
  ∧ (∀ k, k ∈ ["refresh_token"; "access_token"; "expiry_date"] →
       get k (oc_credentials cached) = get k (oc_credentials client)).
Proof.
  intros Henv Hpath Hc Hp Hnull Hkeys Hraw Hrt Hsave cached.
  destruct (token_payload_get keys client) as (Hid & Hsec & Hr & Ha & He).
  rewrite (saveCredentials_parsed env client p path content _ Henv Hpath Hc Hp Hnull),
    Hkeys in Hsave.
  destruct (usable_keys keys) eqn:Hu; [|discriminate Hsave].
  assert (p_files p' !! getTokenPath env
          = Some (JSON_stringify (token_payload keys client))) as Hfile.
  { unfold stored in Hsave.
    destruct (fs_mkdir (path_dirname (getTokenPath env)) p) as [[e|[]] p1];
      [discriminate Hsave|].
    exact (Hraw _ _ _ _ Hsave). }
  unfold usable_keys in Hu. apply andb_prop in Hu as [[Ht Hi]%andb_prop Hs].
  assert (loadSavedCredentialsIfExist env p' = (inr (Some cached), p')) as Hload.
  { apply loadSaved_Some. eexists _, _. split; [exact Hfile|]. split; [exact Hrt|].
    rewrite Hid, Hsec. split; [by apply to_boolean_or_null|].
    split; [by apply to_boolean_or_null|].
    unfold cached. f_equal; by rewrite or_null_or_null. }
  split; [done|]. split; [done|]. split; [done|]. split.
  - unfold authorize. rewrite Henv. apply String.eqb_neq in Hpath as ->.
    unfold io_bind. by rewrite Hload.
  - intros k Hk. simpl.
    repeat (apply elem_of_cons in Hk as [->|Hk]); [done..|by apply elem_of_nil in Hk].
Qed.
End Saving.

(** ** Commands *)

Ltac case_first_arg a :=
  repeat match goal with
         | |- context [String.eqb a ?l] =>
             let E := fresh "E" in
             destruct (String.eqb a l) eqn:E;
             [apply String.eqb_eq in E; subst a | apply String.eqb_neq in E]; simpl
         end.

Ltac in_list := repeat first [by left | right].

Ltac not_in_list Hin :=
  repeat (apply elem_of_cons in Hin as [Hin|Hin]; [congruence|]);
  by apply elem_of_nil in Hin.

(** X24.  The command is decided by the first argument after the script
    name alone: [auth] selects authentication; [version], [--version] and
    [-v] select the version; [help], [--help] and [-h] select the help; a
    missing, empty or unrecognized argument starts the server. *)
Theorem parseCommand_first_argument argv :
  parseCommand argv = parseCommand (take 3 argv) ∧
  (parseCommand argv = CmdAuth ↔ argv !! 2%nat = Some "auth") ∧
  (parseCommand argv = CmdVersion ↔
     ∃ a, argv !! 2%nat = Some a ∧ a ∈ ["version"; "--version"; "-v"]) ∧
  (parseCommand argv = CmdHelp ↔ ∃ a, argv !! 2%nat = Some a ∧ a ∈ ["help"; "--help"; "-h"]) ∧
  (argv !! 2%nat = None → parseCommand argv = CmdStart) ∧
  (∀ a, argv !! 2%nat = Some a →
     a ∉ ["auth"; "version"; "--version"; "-v"; "help"; "--help"; "-h"] →
     parseCommand argv = CmdStart).
Proof.
  split.
  { unfold parseCommand. rewrite lookup_take_lt by lia. done. }
  unfold parseCommand. destruct (argv !! 2%nat) as [a|]; cycle 1.
  { repeat split; try discriminate; try (by intros (? & ? & ?)); by intros. }
  split; [|split; [|split; [|split]]].
  - case_first_arg a; split; try discriminate; try done; try congruence.
  - case_first_arg a; split; try discriminate; try done;
      try (intros _; eexists; split; [reflexivity|]; in_list);
      intros (a' & [= <-] & Hin); not_in_list Hin.
  - case_first_arg a; split; try discriminate; try done;
      try (intros _; eexists; split; [reflexivity|]; in_list);
      intros (a' & [= <-] & Hin); not_in_list Hin.
  - discriminate.
  - intros a' [= <-] Hout. case_first_arg a; try done; exfalso; apply Hout; in_list.
Qed.

Section CommandLine.
Context {host : Host}.

Lemma only_prints_write text : only_prints (stdout_write text) [] text.
Proof. intros p. reflexivity. Qed.

Lemma only_prints_bind m text k front final :
  only_prints m [] text → only_prints k front final →
  only_prints (io_bind m (λ _, k)) (text :: front) final.
Proof.
  intros Hm Hk p. unfold io_bind. rewrite Hm, Hk. simpl. do 2 f_equal.
  by rewrite <- app_assoc.
Qed.

Lemma showHelp_only_prints env :
  ∃ front, only_prints (showHelp env) front
             ("Token cache location: " +:+ getTokenPath env +:+ LF).
Proof.
  unfold showHelp. eexists.
  repeat (apply only_prints_bind; [apply only_prints_write|]).
  apply only_prints_write.
Qed.

(** X25.  The commands [version] and [help] only print: they succeed
    whatever the environment and the files are (no credentials are needed),
    and leave the files, standard error and the exit code as they were.
    [version] prints the one line with the package version, "0.0.0" when
    [package.json] has none; [help] ends with the token cache location in
    use. *)
Theorem version_and_help_only_print env argv p :
  (parseCommand argv = CmdVersion →
     main env argv p
     = {| p_files := p_files p;
          p_stdout := p_stdout p ++ ["google-calendar-todo-mcp v" +:+ VERSION +:+ LF];
          p_stderr := p_stderr p; p_exitCode := p_exitCode p |}) ∧
  (package_version = None → VERSION = "0.0.0") ∧
  (parseCommand argv = CmdHelp →
     p_files (main env argv p) = p_files p
     ∧ p_stderr (main env argv p) = p_stderr p
     ∧ p_exitCode (main env argv p) = p_exitCode p
     ∧ ∃ lines, p_stdout (main env argv p) = p_stdout p ++ lines
         ∧ last lines = Some ("Token cache location: " +:+ getTokenPath env +:+ LF)).
Proof.
  split; [|split].
  - intros Hcmd. unfold main, run. by rewrite Hcmd.
  - unfold VERSION. by intros ->.
  - intros Hcmd. unfold main, run. rewrite Hcmd.
    destruct (showHelp_only_prints env) as [front Hhelp].
    do 3 (split; [by rewrite Hhelp|]).
    exists (front ++ ["Token cache location: " +:+ getTokenPath env +:+ LF]).
    rewrite Hhelp. split; [reflexivity|]. apply last_snoc.
Qed.

(** X26.  The transport loop is entered only after authorization has
    succeeded, and then with a server whose calendar and tasks clients are
    both set; when authorization fails the failure is the outcome of
    [startServer] and the loop is never entered. *)
Theorem server_starts_only_authorized env version p :
  (∀ e p', authorize env p = (inl e, p') → startServer env version p = (inl e, p')) ∧
  (∀ client p', authorize env p = (inr client, p') →
     ∃ server, startServer env version p = serve server p'
       ∧ initialize env p = (inr server, p')
       ∧ is_Some (calendar server) ∧ is_Some (tasks server)).
Proof.
  split.
  - intros e p' Ha. unfold startServer, initialize, io_bind. by rewrite Ha.
  - intros client p' Ha. eexists. unfold startServer, initialize, io_bind. rewrite Ha.
    split; [reflexivity|]. split; [reflexivity|]. split; by eexists.
Qed.
End CommandLine.

(** * The further properties on sample values *)

Lemma default_identifiers_witness : ut_tasklistId complete_t1 = "@default".
Proof.
  destruct (default_identifiers (zod := sample_zod)
              [("taskId", JStr "t1"); ("status", JStr "completed")])
    as (_ & _ & _ & _ & _ & _ & _ & _ & _ & Hupdate & _).
  apply Hupdate. vm_compute. reflexivity.
Defined.

Lemma page_size_bounds_witness : (1 ≤ 50 ≤ 100)%Z.
Proof.
  apply (proj2 (proj2 (proj2 (page_size_bounds (zod := sample_zod))))
           (Some (JObj [("maxResults", JNum (50 # 1))]))
           {| lt_tasklistId := "@default"; lt_showCompleted := None; lt_showDeleted := None;
              lt_maxResults := Some 50%Z; lt_dueMin := None; lt_dueMax := None |} 50%Z).
  - vm_compute. reflexivity.
  - reflexivity.
Defined.

Lemma search_input_never_empty_witness :
  se_calendarIds search_a_b ≠ [] ∧ se_query search_a_b ≠ "".
Proof.
  apply (proj1 (search_input_never_empty (zod := sample_zod))
           (Some (JObj [("calendarIds", JArr [JStr "a"; JStr "b"]);
                        ("query", JStr "standup")]))).
  vm_compute. reflexivity.
Defined.

Lemma unknown_keys_are_dropped_witness :
  updateTaskInput (zod := sample_zod)
    (Some (JObj [("completed", JStr "1999-12-31T00:00:00.000Z"); ("taskId", JStr "t1")]))
  = updateTaskInput (zod := sample_zod) (Some (JObj [("taskId", JStr "t1")])).
Proof.
  apply (proj1 (proj2 (unknown_keys_are_dropped (zod := sample_zod) "completed"
                         (JStr "1999-12-31T00:00:00.000Z") [("taskId", JStr "t1")]))).
  intros Hin. not_in_list Hin.
Defined.

Lemma validated_reminders_witness :
  mapReminders (Some {| ri_useDefault := Some false; ri_overrides := None |}) = None
  ↔ Some false = None ∧ @None (list ReminderOverrideInput) = None.
Proof.
  apply (validated_reminders (zod := sample_zod)
           (Some (JObj [("useDefault", JBool false)]))
           {| ri_useDefault := Some false; ri_overrides := None |}).
  vm_compute. reflexivity.
Defined.

Lemma mapEvent_allow_list_witness :
  get "description" (mapEvent standup_raw) = Some JNull.
Proof.
  apply (proj2 (proj2 (proj1 (mapEvent_allow_list standup_raw "description")
                         ltac:(in_list)))).
  reflexivity.
Defined.

Lemma write_request_flags_witness :
  conferenceDataVersion_of (ce_common standup_input) = None
  ∧ supportsAttachments_of (ce_common standup_input) = None.
Proof.
  apply (proj1 (write_request_flags (zod := sample_zod) standup_args) standup_input).
  vm_compute. reflexivity.
Defined.

Lemma registerTool_structured_outcome_witness :
  ∃ m, ThrownMcpError {| code := InternalError; message := "Not Found" |}
       = ThrownMcpError m.
Proof.
  apply (proj1 (registerTool_structured_outcome (rt := sample_runtime)
                  "search-events"
                  "Search events across one or more calendars with advanced filters."
                  (searchEventsInput (zod := sample_zod))
                  (search_events (rt := sample_runtime) sample_server)
                  (Some (JObj [("calendarIds", JArr [JStr "a"; JStr "b"]);
                               ("query", JStr "standup")]))
                  (0%nat, []))).
  vm_compute. reflexivity.
Defined.

Lemma uninitialized_clients_witness :
  complete_task (rt := sample_runtime) fresh_server
    {| ct_tasklistId := "@default"; ct_taskId := "t1" |} (0%nat, [])
  = (inl (ThrownMcpError {| code := InternalError;
                            message := "Google Tasks client is not initialized" |}),
     (0%nat, [])).
Proof.
  destruct (proj2 (uninitialized_clients (rt := sample_runtime) (rest := sample_rest)
                     fresh_server (0%nat, [])) eq_refl)
    as (_ & _ & _ & _ & Hcomplete & _).
  apply Hcomplete.
Defined.

Lemma list_events_page_witness :
  ∃ p, issued (tool_list_events (zod := sample_zod) (rt := sample_runtime) sample_server
                 None (0%nat, [])) = [Events_list p]
       ∧ el_calendarId p = "primary".
Proof.
  destruct (list_events_page (zod := sample_zod) (rt := sample_runtime) sample_server
              CalendarHandle None
              {| le_calendarId := "primary"; le_timeMin := None; le_timeMax := None;
                 le_maxResults := None; le_query := None; le_singleEvents := None;
                 le_orderBy := None; le_showDeleted := None; le_timeZone := None;
                 le_pageToken := None; le_syncToken := None;
                 le_privateExtendedProperty := None;
                 le_sharedExtendedProperty := None |} 0%nat [])
    as (p & Hissued & Hfirst & _).
  - reflexivity.
  - vm_compute. reflexivity.
  - exists p. split; [exact Hissued|]. by injection Hfirst.
Defined.

Lemma delete_acknowledges_witness :
  tool_delete_event_instance (zod := sample_zod) (rt := sample_runtime)
    (rest := sample_rest) sample_server
    (Some (JObj [("instanceId", JStr "evt_20240110")])) (0%nat, [])
  = (inr {| content := toJsonContent (JObj [("success", JBool true)]) |}, (1%nat, [])).
Proof.
  apply (proj1 (proj2 (delete_acknowledges (zod := sample_zod) (rt := sample_runtime)
                         (rest := sample_rest) sample_server 0%nat []))
           CalendarHandle (Some (JObj [("instanceId", JStr "evt_20240110")]))
           {| di_calendarId := "primary"; di_instanceId := "evt_20240110";
              di_sendUpdates := None |}).
  - reflexivity.
  - vm_compute. reflexivity.
Defined.

Lemma list_tasks_entries_witness :
  get "notes" (task_entry (JObj [("id", JStr "t1"); ("title", JStr "Buy milk")]))
  = Some JNull.
Proof.
  apply (proj1 (proj2 (list_tasks_entries (zod := sample_zod) (rt := sample_runtime)
                         (rest := sample_rest))
                  (JObj [("id", JStr "t1"); ("title", JStr "Buy milk")]) "notes")).
  in_list.
Defined.

Lemma list_calendars_entries_witness :
  get "primary" (calendar_entry (JObj [("id", JStr "team")])) = Some (JBool false).
Proof.
  apply (proj1 (proj2 (proj2 (list_calendars_entries (zod := sample_zod)
                                (rt := sample_runtime) (rest := sample_rest))
                         (JObj [("id", JStr "team")]) "primary"))).
  reflexivity.
Defined.

Lemma create_task_body_and_echo_witness :
  task_body_keys (create_task_body
    {| nt_tasklistId := "@default"; nt_title := "Buy milk"; nt_notes := None;
       nt_due := None |}) = ["title"].
Proof.
  apply (create_task_body_and_echo (zod := sample_zod) (rt := sample_runtime)
           (rest := sample_rest) sample_server TasksHandle
           (Some (JObj [("title", JStr "Buy milk")]))
           {| nt_tasklistId := "@default"; nt_title := "Buy milk"; nt_notes := None;
              nt_due := None |} 0%nat []).
  - reflexivity.
  - vm_compute. reflexivity.
Defined.

Lemma list_event_instances_page_witness :
  ∃ instances,
    tool_list_event_instances (zod := sample_zod) (rt := sample_runtime)
      (rest := sample_rest) sample_server
      (Some (JObj [("recurringEventId", JStr "evt")])) (0%nat, [])
    = (inr {| content := toJsonContent
                (JObj [("instances", JArr instances); ("nextPageToken", JNull)]) |},
       (1%nat, []))
    ∧ instances = [mapEvent (JObj [("id", JStr "evt_1")])].
Proof.
  destruct (list_event_instances_page (zod := sample_zod) (rt := sample_runtime)
              (rest := sample_rest) sample_server CalendarHandle
              (Some (JObj [("recurringEventId", JStr "evt")]))
              {| li_calendarId := "primary"; li_recurringEventId := "evt";
                 li_timeMin := None; li_timeMax := None; li_maxResults := None;
                 li_pageToken := None; li_showDeleted := None; li_timeZone := None |}
              0%nat [] eq_refl ltac:(vm_compute; reflexivity)
              (JObj [("items", JArr [JObj [("id", JStr "evt_1")]])]) eq_refl)
    as (instances & Hrun & Hinstances & _).
  exists instances. split; [exact Hrun | exact Hinstances].
Defined.

Lemma loadSaved_never_throws_witness :
  loadSavedCredentialsIfExist (host := sample_host) sample_env sample_process
  = (inr None, sample_process).
Proof.
  apply (proj1 (proj2 (loadSaved_never_throws (host := sample_host) sample_env
                         sample_process))).
  vm_compute. reflexivity.
Defined.

Lemma authorize_requires_keyfile_witness :
  authorize (host := sample_host) no_keyfile_env cached_process
  = (inl (ErrorObject
       "Set GOOGLE_OAUTH_CREDENTIALS to the path of your OAuth client credentials JSON file."),
     cached_process).
Proof.
  apply (authorize_requires_keyfile (host := sample_host) no_keyfile_env cached_process).
  left. reflexivity.
Defined.

Lemma authorize_uses_cache_witness :
  authorize (host := sample_host) sample_env cached_process
  = (inr {| oc_client_id := JStr "id-1"; oc_client_secret := JStr "secret-1";
            oc_credentials := token_payload sample_keys sample_client |}, cached_process).
Proof.
  apply (authorize_uses_cache (host := sample_host) sample_env cached_process
           "/keys.json" "TOKENS" (token_payload sample_keys sample_client)).
  - reflexivity.
  - discriminate.
  - vm_compute. reflexivity.
  - reflexivity.
  - reflexivity.
  - reflexivity.
Defined.

Lemma saveCredentials_checks_before_writing_witness :
  saveCredentials (host := sample_host) empty_token_path_env sample_client sample_process
  = (inl (ErrorObject "ENOENT: no such file or directory, open ''"), sample_process).
Proof.
  refine (proj1 (proj2 (proj2 (saveCredentials_checks_before_writing (host := sample_host)
                                 empty_token_path_env sample_client sample_process))
                   "/keys.json" "KEYFILE" (JObj [("installed", sample_keys)]) sample_keys
                   eq_refl _ _ eq_refl eq_refl eq_refl)).
  - discriminate.
  - vm_compute. reflexivity.
Defined.

Lemma saved_token_loads_back_witness :
  authorize (host := sample_host) sample_env
    (written "/home/u/.config/google-calendar-todo-mcp/token.json" "TOKENS" sample_process)
  = (inr {| oc_client_id := JStr "id-1"; oc_client_secret := JStr "secret-1";
            oc_credentials := token_payload sample_keys sample_client |},
     written "/home/u/.config/google-calendar-todo-mcp/token.json" "TOKENS" sample_process).
Proof.
  destruct (saved_token_loads_back (host := sample_host) sample_env sample_client
              sample_process
              (written "/home/u/.config/google-calendar-todo-mcp/token.json" "TOKENS"
                 sample_process)
              "/keys.json" "KEYFILE" (JObj [("installed", sample_keys)]) sample_keys)
    as (_ & _ & _ & Hauthorize & _).
  - reflexivity.
  - discriminate.
  - vm_compute. reflexivity.
  - reflexivity.
  - discriminate.
  - reflexivity.
  - intros path content p p'. simpl. destruct (String.eqb path ""); [discriminate|].
    intros [= <-]. apply lookup_insert_eq.
  - reflexivity.
  - vm_compute. reflexivity.
  - exact Hauthorize.
Defined.

Lemma parseCommand_first_argument_witness :
  parseCommand ["node"; "index.js"; "serve"; "auth"] = CmdStart.
Proof.
  apply (proj2 (proj2 (proj2 (proj2 (proj2
           (parseCommand_first_argument ["node"; "index.js"; "serve"; "auth"])))))
           "serve").
  - reflexivity.
  - intros Hin. not_in_list Hin.
Defined.

Lemma version_and_help_only_print_witness :
  main (host := sample_host) no_keyfile_env ["node"; "index.js"; "-v"] sample_process
  = {| p_files := p_files sample_process;
       p_stdout := ["google-calendar-todo-mcp v1.2.3" +:+ LF];
       p_stderr := []; p_exitCode := None |}.
Proof.
  apply (proj1 (version_and_help_only_print (host := sample_host) no_keyfile_env
                  ["node"; "index.js"; "-v"] sample_process)).
  reflexivity.
Defined.

Lemma server_starts_only_authorized_witness :
  startServer (host := sample_host) no_keyfile_env "1.2.3" sample_process
  = (inl (ErrorObject
       "Set GOOGLE_OAUTH_CREDENTIALS to the path of your OAuth client credentials JSON file."),
     sample_process).
Proof.
  apply (proj1 (server_starts_only_authorized (host := sample_host) no_keyfile_env "1.2.3"
                  sample_process)).
  reflexivity.
Defined.

(** X27.  An entry of list-tasklists passes [id], [title] and [updated]
    through as the backend sent them, a missing one staying missing (no null
    is put in its place), and passes nothing else. *)
Theorem tasklist_entry_passes_through item k :
  (k ∈ ["id"; "title"; "updated"] → get k (tasklist_entry item) = get k item) ∧
  (k ∉ ["id"; "title"; "updated"] → get k (tasklist_entry item) = None).
Proof.
  unfold tasklist_entry, prop. split; intros Hk.
  - repeat (apply elem_of_cons in Hk as [->|Hk]); [..|by apply elem_of_nil in Hk];
      by destruct (get "id" item), (get "title" item), (get "updated" item).
  - assert (Forall (λ k', String.eqb k k' = false) ["id"; "title"; "updated"]) as Hne.
    { apply Forall_forall. intros k' Hin. apply String.eqb_neq. intros ->. by apply Hk. }
    apply Forall_cons in Hne as [H1 Hne]. apply Forall_cons in Hne as [H2 Hne].
    apply Forall_cons in Hne as [H3 _].
    destruct (get "id" item), (get "title" item), (get "updated" item); simpl;
      by rewrite ?H1, ?H2, ?H3.
Qed.

Lemma tasklist_entry_passes_through_witness :
  get "updated" (tasklist_entry (JObj [("id", JStr "l1"); ("title", JStr "My Tasks")]))
  = None.
Proof.
  apply (proj1 (tasklist_entry_passes_through
                  (JObj [("id", JStr "l1"); ("title", JStr "My Tasks")]) "updated")).
  in_list.
Defined.
